(** * Love Booth: a shallow embedding of the capture, compositing,
      export and print code, and the properties of it that the
      specification states.

    Part I embeds the source, one module per source file:
      - [Js]          the string operations of JavaScript that the source uses
      - [Catalog]     src/components/StripLayoutSelector.tsx
      - [Compositor]  generateHighQualityStrip in src/components/PhotoStripPreview.tsx
      - [Capture]     src/components/CaptureMode.tsx
      - [Eff]         state, exceptions and try/catch/finally for the handlers
      - [Download]    the useImageDownload hook
      - [Preview]     the download and print handlers of PhotoStripPreview.tsx
    Part II defines the vocabulary of the statements (reachable states,
    chunks, the traces of a print session) and sample inputs.
    Part III states and proves the properties.

    JavaScript numbers are modelled by [Z] (every quantity below is a small
    integer, far from the 2^53 limit of exact doubles) except the grayscale
    average, which is a rational; array lengths, indices and counts are
    [nat].  React state is modelled by explicit state passing: an event
    handler maps the state of the render it was created in to the next
    state, and runs to completion before the next event. *)

From Stdlib Require Import ZArith List String Ascii Bool Lia QArith Qround.
From Stdlib Require Import DecimalString.
Import ListNotations.
Local Open Scope string_scope.

(* ================================================================== *)
(** * Part I. The embedding                                            *)
(* ================================================================== *)

(* ------------------------------------------------------------------ *)
(** ** JavaScript strings                                              *)
(* ------------------------------------------------------------------ *)

(** The string operations the source uses.  Strings are sequences of
    8-bit characters; case conversion is that of the ASCII letters, which
    is all that the patterns of the source contain. *)
Module Js.
Local Open Scope nat_scope.

(** A template literal's [${n}]: the decimal numeral of a count. *)
Definition show (n : nat) : string := NilEmpty.string_of_uint (Nat.to_uint n).

Definition toLower (c : ascii) : ascii :=
  let n := nat_of_ascii c in
  if ((65 <=? n) && (n <=? 90))%bool then ascii_of_nat (n + 32) else c.

(** [s.toLowerCase()] *)
Fixpoint toLowerCase (s : string) : string :=
  match s with
  | EmptyString => EmptyString
  | String c rest => String (toLower c) (toLowerCase rest)
  end.

(** [s.endsWith(suffix)] *)
Definition endsWith (s suffix : string) : bool :=
  let n := String.length s in
  let m := String.length suffix in
  ((m <=? n) && String.eqb (substring (n - m) m s) suffix)%bool.

(** [s.includes(sub)] *)
Definition includes (s sub : string) : bool :=
  match String.index 0 sub s with Some _ => true | None => false end.

(** [s.split(',')[0]]: the text before the first comma. *)
Fixpoint untilComma (s : string) : string :=
  match s with
  | EmptyString => EmptyString
  | String c rest =>
      if Ascii.eqb c "," then EmptyString else String c (untilComma rest)
  end.

(** [s.split(',')[1]]: the text between the first comma and the next
    one; [undefined] ([None]) without a comma. *)
Fixpoint afterComma (s : string) : option string :=
  match s with
  | EmptyString => None
  | String c rest =>
      if Ascii.eqb c "," then Some (untilComma rest) else afterComma rest
  end.

(** A string argument that may be [undefined], as [atob] converts it. *)
Definition orUndefined (o : option string) : string :=
  match o with
  | Some b => b
  | None => "undefined"
  end.

End Js.

(* ------------------------------------------------------------------ *)
(** ** StripLayoutSelector.tsx: the layout catalog                     *)
(* ------------------------------------------------------------------ *)

Module Catalog.

(** [interface StripLayout].  The [preview] field is a React node that is
    only rendered, never inspected; it is left out. *)
Record StripLayout : Type := mkLayout {
  id : string;
  name : string;
  photoCount : nat;
  aspectRatio : string
}.

(** [export const STRIP_LAYOUTS: StripLayout[]] *)
Definition STRIP_LAYOUTS : list StripLayout :=
  [ mkLayout "strip-3" "Classic 3" 3 "2x6";
    mkLayout "strip-4" "Classic 4" 4 "2x6";
    mkLayout "grid-4" "Grid 4" 4 "4x6";
    mkLayout "wide-3" "Wide 3" 3 "4x6" ].

(** Modelled from the spec: the lookup [resolve(id) -> Layout | NotFound] of
    section 4.2.  The source has no lookup function (the components pass the
    layout record or its id around); the first catalog entry with the given
    id is returned. *)
Definition resolve (i : string) : option StripLayout :=
  find (fun l => String.eqb (id l) i) STRIP_LAYOUTS.

End Catalog.

(* ------------------------------------------------------------------ *)
(** ** PhotoStripPreview.tsx: generateHighQualityStrip                 *)
(* ------------------------------------------------------------------ *)

Module Compositor.
Local Open Scope Z_scope.

(** [const scale = 4; const padding = 40 * scale; const photoGap = 20 * scale;] *)
Definition scale : Z := 4.
Definition padding : Z := 40 * scale.
Definition photoGap : Z := 20 * scale.

(** The four [let] variables assigned by the layout branch. *)
Record Geometry : Type := mkGeometry {
  canvasWidth : Z;
  canvasHeight : Z;
  photoWidth : Z;
  photoHeight : Z
}.

(** "Calculate dimensions based on layout" (lines 63-82).  [n] is
    [photos.length]. *)
Definition canvasGeometry (layout : string) (n : Z) : Geometry :=
  if (String.eqb layout "strip-3" || String.eqb layout "strip-4")%bool then
    let photoWidth := 600 * scale in
    let photoHeight := 600 * scale in
    mkGeometry (photoWidth + padding * 2)
               (padding * 2 + n * photoHeight + (n - 1) * photoGap)
               photoWidth photoHeight
  else if String.eqb layout "grid-4" then
    let photoWidth := 450 * scale in
    let photoHeight := 450 * scale in
    mkGeometry (padding * 2 + 2 * photoWidth + photoGap)
               (padding * 2 + 2 * photoHeight + photoGap)
               photoWidth photoHeight
  else
    let photoWidth := 800 * scale in
    let photoHeight := 300 * scale in
    mkGeometry (photoWidth + padding * 2)
               (padding * 2 + n * photoHeight + (n - 1) * photoGap)
               photoWidth photoHeight.

(** The rectangle [(x, y, w, h)] handed to [ctx.drawImage] for the image at
    [index] (the [loadedImages.forEach] body, lines 110-133).
    [index % 2] and [Math.floor(index / 2)] on a non-negative integer. *)
Record Rect : Type := mkRect { rx : Z; ry : Z; rw : Z; rh : Z }.

Definition cellRect (layout : string) (n : Z) (index : Z) : Rect :=
  let g := canvasGeometry layout n in
  if (String.eqb layout "strip-3" || String.eqb layout "strip-4")%bool then
    mkRect padding (padding + index * (photoHeight g + photoGap))
           (photoWidth g) (photoHeight g)
  else if String.eqb layout "grid-4" then
    let col := index mod 2 in
    let row := index / 2 in
    mkRect (padding + col * (photoWidth g + photoGap))
           (padding + row * (photoHeight g + photoGap))
           (photoWidth g) (photoHeight g)
  else
    mkRect padding (padding + index * (photoHeight g + photoGap))
           (photoWidth g) (photoHeight g).

(** Storing a number into a [Uint8ClampedArray] element: the ECMAScript
    operation ToUint8Clamp.  [None] stands for NaN.  Ties go to the even
    neighbour. *)
Definition ToUint8Clamp (v : option Q) : Z :=
  match v with
  | None => 0
  | Some x =>
      if Qle_bool x 0 then 0
      else if Qle_bool 255 x then 255
      else
        let f := Qfloor x in
        match Qcompare (inject_Z f + (1 # 2)) x with
        | Lt => f + 1
        | Gt => f
        | Eq => if Z.even f then f else f + 1
        end
  end.

(** [(data[i] + data[i + 1] + data[i + 2]) / 3].  The source computes the
    quotient in binary64; the sum is an integer of at most 765, so the
    quotient is an integer or lies a third away from one, and the rounding
    of the double to an integer is that of the exact rational. *)
Definition average (r g b : Z) : Q := (r + g + b) # 3.

(** "Apply grayscale filter" (lines 136-146): the loop
    [for (let i = 0; i < data.length; i += 4)] over the RGBA buffer.  Each
    iteration reads and writes its own group of indices, so the in-place
    loop is a recursion over groups.  A buffer returned by [getImageData]
    has a length that is a multiple of four; for completeness a trailing
    group of three is averaged (all three reads are in range) and in a
    trailing group of one or two the reads past the end give [undefined],
    the average is NaN, and the in-range stores write 0. *)
Fixpoint grayscale (data : list Z) : list Z :=
  match data with
  | r :: g :: b :: a :: rest =>
      let avg := ToUint8Clamp (Some (average r g b)) in
      avg :: avg :: avg :: a :: grayscale rest
  | [r; g; b] =>
      let avg := ToUint8Clamp (Some (average r g b)) in
      [avg; avg; avg]
  | [_; _] => [ToUint8Clamp None; ToUint8Clamp None]
  | [_] => [ToUint8Clamp None]
  | [] => []
  end.

(** The canvas that [generateHighQualityStrip] (lines 48-156) paints, as
    the list of its drawing calls: the size given to the canvas, one
    [drawImage] per photo in order, whether the grayscale pass runs, and the
    watermark's [fillStyle] and anchor.  Pixel contents are not modelled;
    the pass itself is [grayscale]. *)
Record Strip : Type := mkStrip {
  strip_width : Z;
  strip_height : Z;
  strip_images : list (string * Rect);
  strip_grayscale : bool;
  watermark_style : string;
  watermark_x : Z;
  watermark_y : Z
}.

Fixpoint drawImages (layout : string) (n : Z) (index : Z) (photos : list string)
    : list (string * Rect) :=
  match photos with
  | [] => []
  | src :: rest =>
      (src, cellRect layout n index) :: drawImages layout n (index + 1) rest
  end.

(** [generateHighQualityStrip] for the component's [photos], [layout] and
    [isGrayscale].  [ctx] says whether the canvas has a 2d context and
    [loads] which sources load as images; without a context, or with a
    source that fails to load, the function throws ([None]).
    [canvasWidth / 2] and [padding / 2] are exact: both are even. *)
Definition generateHighQualityStrip (ctx : bool) (loads : string -> bool)
    (photos : list string) (layout : string) (isGrayscale : bool)
    : option Strip :=
  if negb ctx then None
  else
    let n := Z.of_nat (List.length photos) in
    let g := canvasGeometry layout n in
    if negb (forallb loads photos) then None
    else
      Some (mkStrip (canvasWidth g) (canvasHeight g)
                    (drawImages layout n 0 photos)
                    isGrayscale
                    (if isGrayscale then "#666666" else "#e91e63")
                    (canvasWidth g / 2)
                    (canvasHeight g - padding / 2)).

End Compositor.

(* ------------------------------------------------------------------ *)
(** ** CaptureMode.tsx: the capture component                          *)
(* ------------------------------------------------------------------ *)

Module Capture.
Import Js Catalog.
Local Open Scope nat_scope.

(** [type Mode = "choose" | "upload" | "camera"] *)
Inductive Mode : Type := choose | upload | camera.

(** Calls of the [sonner] toast functions. *)
Inductive Toast : Type :=
| toast_success (msg : string)
| toast_error (msg : string)
| toast_info (msg : string).

(** What the component does to the outside: a notification, the
    emptying of [fileInputRef.current.value], a call of the [onPhotosReady] prop. *)
Inductive Effect : Type :=
| Notify (t : Toast)
| ResetInput
| PhotosReady (photos : list string) (layout : string).

(** The component's [useState] cells, the number of live [setInterval]
    timers, the [requiredPhotos] captured by the closure of the running
    timer, and the log of effects (oldest first). *)
Record State : Type := mkState {
  mode : Mode;
  selectedLayout : StripLayout;
  photos : list string;
  countdown : option nat;
  timerDuration : nat;
  cameraReady : bool;
  intervals : nat;
  timerRequired : nat;
  effects : list Effect
}.

(** The state of a freshly mounted component. *)
Definition initial : State :=
  mkState choose (hd (mkLayout EmptyString EmptyString 0 EmptyString) STRIP_LAYOUTS) [] None 3 false 0 0 [].

Definition requiredPhotos (s : State) : nat := photoCount (selectedLayout s).

Definition setMode (m : Mode) (s : State) : State :=
  mkState m (selectedLayout s) (photos s) (countdown s) (timerDuration s)
          (cameraReady s) (intervals s) (timerRequired s) (effects s).
Definition setSelectedLayout (l : StripLayout) (s : State) : State :=
  mkState (mode s) l (photos s) (countdown s) (timerDuration s)
          (cameraReady s) (intervals s) (timerRequired s) (effects s).
Definition setPhotos (p : list string) (s : State) : State :=
  mkState (mode s) (selectedLayout s) p (countdown s) (timerDuration s)
          (cameraReady s) (intervals s) (timerRequired s) (effects s).
Definition setCountdown (c : option nat) (s : State) : State :=
  mkState (mode s) (selectedLayout s) (photos s) c (timerDuration s)
          (cameraReady s) (intervals s) (timerRequired s) (effects s).
Definition setTimerDuration (t : nat) (s : State) : State :=
  mkState (mode s) (selectedLayout s) (photos s) (countdown s) t
          (cameraReady s) (intervals s) (timerRequired s) (effects s).
Definition setCameraReady (b : bool) (s : State) : State :=
  mkState (mode s) (selectedLayout s) (photos s) (countdown s) (timerDuration s)
          b (intervals s) (timerRequired s) (effects s).
Definition setIntervals (n : nat) (s : State) : State :=
  mkState (mode s) (selectedLayout s) (photos s) (countdown s) (timerDuration s)
          (cameraReady s) n (timerRequired s) (effects s).
Definition setTimerRequired (n : nat) (s : State) : State :=
  mkState (mode s) (selectedLayout s) (photos s) (countdown s) (timerDuration s)
          (cameraReady s) (intervals s) n (effects s).
Definition emit (e : Effect) (s : State) : State :=
  mkState (mode s) (selectedLayout s) (photos s) (countdown s) (timerDuration s)
          (cameraReady s) (intervals s) (timerRequired s) (effects s ++ [e])%list.

Definition isCamera (m : Mode) : bool :=
  match m with camera => true | _ => false end.
Definition isChoose (m : Mode) : bool :=
  match m with choose => true | _ => false end.
Definition isNull {A} (o : option A) : bool :=
  match o with None => true | Some _ => false end.

(** [stopCamera] (lines 87-96); the camera hook's own state and the object
    URL list are outside this state. *)
Definition stopCamera (s : State) : State :=
  setPhotos [] (setMode choose (setCameraReady false s)).

(** [capturePhoto] (lines 138-166).  [videoRef.current] and
    [canvasRef.current] are set exactly while the camera view is rendered,
    that is while [mode] is ["camera"].  [ctx] says whether
    [canvas.getContext("2d")] returned a context, [frame] is the data URL
    that [canvas.toDataURL] returns for the drawn frame.  The toast shows
    the [requiredPhotos] of the render in which the timer was started. *)
Definition capturePhoto (ctx : bool) (videoWidth : Z) (frame : string)
    (s : State) : State :=
  if negb (isCamera (mode s)) then s
  else if (ctx && (0 <? videoWidth)%Z)%bool then
    let newPhotos := (photos s ++ [frame])%list in
    setPhotos newPhotos
      (emit (Notify (toast_success
               ("Photo " ++ show (List.length newPhotos) ++ "/" ++
                show (timerRequired s) ++ " captured!"))) s)
  else s.

(** [startCountdown] (lines 122-136): the guard, [setCountdown], and the
    registration of the interval timer. *)
Definition startCountdown (s : State) : State :=
  match countdown s with
  | Some _ => s
  | None =>
      setTimerRequired (requiredPhotos s)
        (setIntervals (S (intervals s))
           (setCountdown (Some (timerDuration s)) s))
  end.

(** One firing of the interval callback: the updater given to
    [setCountdown] (lines 127-134).  [prev ? prev - 1 : null] maps 0 and
    null to null. *)
Definition tick (ctx : bool) (videoWidth : Z) (frame : string)
    (s : State) : State :=
  match countdown s with
  | Some 1 =>
      setCountdown None
        (capturePhoto ctx videoWidth frame
           (setIntervals (Nat.pred (intervals s)) s))
  | Some (S (S n)) => setCountdown (Some (S n)) s
  | Some 0 => setCountdown None s
  | None => setCountdown None s
  end.

(** [prev.filter((_, i) => i !== index)]: [Array.prototype.filter] with the
    element index. *)
Fixpoint filter_index {A} (keep : A -> nat -> bool) (i : nat) (l : list A)
    : list A :=
  match l with
  | [] => []
  | x :: rest =>
      if keep x i then x :: filter_index keep (S i) rest
      else filter_index keep (S i) rest
  end.

(** [deletePhoto] (lines 168-171). *)
Definition deletePhoto (index : nat) (s : State) : State :=
  emit (Notify (toast_success "Photo deleted. Take another!"))
    (setPhotos (filter_index (fun _ i => negb (i =? index)) 0 (photos s)) s).

(** [handleDone] (lines 173-178); [onPhotosReady] receives the photos of
    the render, before [stopCamera] clears them. *)
Definition handleDone (s : State) : State :=
  if List.length (photos s) =? requiredPhotos s then
    emit (PhotosReady (photos s) (id (selectedLayout s))) (stopCamera s)
  else s.

(** What can happen to the mounted component. *)
Inductive Event : Type :=
| ClickTakePhoto
| IntervalFires (ctx : bool) (videoWidth : Z) (frame : string)
| ClickDelete (i : nat)
| ClickTimer (t : nat)
| ClickBack
| CameraGranted
| LoadedMetadata
| SelectLayout (k : nat)
| ClickDone
| TrackEnded.

Definition truthy (o : option string) : bool :=
  match o with
  | Some p => negb (String.eqb p EmptyString)
  | None => false
  end.

(** The dispatch of an event to its handler, as the JSX wires it (lines
    313-506).  The camera view shows, while
    [photos.length < requiredPhotos], the "Take Photo" button (disabled
    while [countdown !== null || !cameraReady]) and otherwise the "Continue
    to Preview" button; a thumbnail slot [i < requiredPhotos] with a photo
    has a delete button; the timer buttons offer 3, 5 and 10; the layout
    selector, one button per catalog entry, belongs to the choose view.
    [ClickBack] is the Back button of the camera view.  [TrackEnded] is
    the [onended] handler that the effect of lines 57-82 puts on the
    stream's tracks while the camera view is shown: the toast, then
    [stopCamera].  An interval callback runs only while an interval timer
    is live. *)
Definition step (s : State) (e : Event) : State :=
  match e with
  | ClickTakePhoto =>
      if (isCamera (mode s) && (List.length (photos s) <? requiredPhotos s))%bool then
        if (negb (isNull (countdown s)) || negb (cameraReady s))%bool then s
        else startCountdown s
      else s
  | IntervalFires ctx vw frame =>
      match intervals s with
      | O => s
      | S _ => tick ctx vw frame s
      end
  | ClickDelete i =>
      if (isCamera (mode s) && (i <? requiredPhotos s) &&
          truthy (nth_error (photos s) i))%bool
      then deletePhoto i s else s
  | ClickTimer t =>
      if (isCamera (mode s) && existsb (Nat.eqb t) [3; 5; 10])%bool
      then setTimerDuration t s else s
  | ClickBack =>
      if isCamera (mode s) then stopCamera s else s
  | CameraGranted => setMode camera s
  | LoadedMetadata => setCameraReady true s
  | SelectLayout k =>
      match nth_error STRIP_LAYOUTS k with
      | Some l => if isChoose (mode s) then setSelectedLayout l s else s
      | None => s
      end
  | ClickDone =>
      if (isCamera (mode s) && negb (List.length (photos s) <? requiredPhotos s))%bool
      then handleDone s else s
  | TrackEnded =>
      if isCamera (mode s)
      then stopCamera
             (emit (Notify (toast_error "Camera was disconnected. Please try again.")) s)
      else s
  end.

Definition run (s : State) (es : list Event) : State := fold_left step es s.

(** *** handleFileUpload *)

(** What happens in [img.onload] (lines 233-259). *)
Inductive CanvasOutcome : Type :=
| NoContext                 (* getContext("2d") returned null *)
| DrawThrows                (* the try block threw *)
| Png (payload : string).   (* canvas.toDataURL("image/png", 1.0) *)

(** An uploaded [File] with the outcome of its asynchronous decoding:
    [f.type], [f.name], what the [FileReader] delivers ([Some] data URL on
    [onload], [None] on [onerror]), whether the image element loads the
    data URL, and what the canvas step does with it. *)
Record File : Type := mkFile {
  file_type : string;
  file_name : string;
  readResult : option string;
  imageLoads : bool;
  canvas : CanvasOutcome
}.

(** [/\.(jpg|jpeg|png|gif|webp|heic|heif|bmp)$/i.test(name)] *)
Definition imageExtensions : list string :=
  ["jpg"; "jpeg"; "png"; "gif"; "webp"; "heic"; "heif"; "bmp"].

Definition hasImageExtension (name : string) : bool :=
  existsb (fun ext => endsWith (toLowerCase name) ("." ++ ext)) imageExtensions.

(** The predicate of [files.filter] (lines 204-208). *)
Definition isImageFile (f : File) : bool :=
  (String.prefix "image/" (file_type f) || hasImageExtension (file_name f))%bool.

(** The string one file's promise resolves to (lines 221-276); the empty
    string marks a failed load. *)
Definition processFile (f : File) : string :=
  match readResult f with
  | None => EmptyString
  | Some dataUrl =>
      if String.eqb dataUrl EmptyString then EmptyString
      else if negb (imageLoads f) then EmptyString
      else match canvas f with
           | NoContext => dataUrl
           | DrawThrows => dataUrl
           | Png payload => "data:image/png;base64," ++ payload
           end
  end.

Definition resetInput (attached : bool) : list Effect :=
  if attached then [ResetInput] else [].

(** [handleFileUpload] (lines 189-291), as the list of effects it has, the
    continuation of [Promise.all] included.  [refNow] and [refLater] say
    whether [fileInputRef.current] is set when the handler runs and when
    the promise resolves. *)
Definition handleFileUpload (s : State) (refNow refLater : bool)
    (files : list File) : list Effect :=
  if List.length files =? 0 then []
  else if negb (List.length files =? requiredPhotos s) then
    Notify (toast_error ("Please select exactly " ++ show (requiredPhotos s) ++ " photos"))
      :: resetInput refNow
  else
    let validFiles := filter isImageFile files in
    if negb (List.length validFiles =? List.length files) then
      Notify (toast_error "Please select only image files") :: resetInput refNow
    else
      let processedPhotos := map processFile validFiles in
      let validPhotos := filter (fun p => negb (String.eqb p EmptyString)) processedPhotos in
      Notify (toast_info "Processing images...") ::
      (resetInput refLater ++
       (if List.length validPhotos =? requiredPhotos s then
          [PhotosReady validPhotos (id (selectedLayout s));
           Notify (toast_success "Photos uploaded successfully!")]
        else
          [Notify (toast_error ("Only " ++ show (List.length validPhotos) ++ " of " ++
                                show (requiredPhotos s) ++
                                " photos loaded. Please try again."))]))%list.

End Capture.

(* ------------------------------------------------------------------ *)
(** ** Effects: state, exceptions, try/catch/finally                   *)
(* ------------------------------------------------------------------ *)

(** The handlers of the export and print code mutate refs and component
    state, call fallible browser functions and wrap them in
    [try]/[catch]/[finally].  A computation takes the state and gives the
    new state with either the exception thrown ([inl]) or the value
    returned ([inr]).  An [await] is a bind: the continuation runs after
    the awaited promise has settled, and a rejection is a throw. *)
Module Eff.

Definition M (S E A : Type) : Type := S -> S * (E + A).

Definition ret {S E A} (a : A) : M S E A := fun s => (s, inr a).

Definition throw {S E A} (e : E) : M S E A := fun s => (s, inl e).

Definition bind {S E A B} (m : M S E A) (k : A -> M S E B) : M S E B :=
  fun s =>
    match m s with
    | (s', inr a) => k a s'
    | (s', inl e) => (s', inl e)
    end.

Definition try_catch {S E A} (m : M S E A) (handler : E -> M S E A) : M S E A :=
  fun s =>
    match m s with
    | (s', inr a) => (s', inr a)
    | (s', inl e) => handler e s'
    end.

Definition try_finally {S E A} (m : M S E A) (final : M S E unit) : M S E A :=
  fun s =>
    match m s with
    | (s', r) =>
        match final s' with
        | (s'', inr _) => (s'', r)
        | (s'', inl e) => (s'', inl e)
        end
    end.

Definition get {S E} : M S E S := fun s => (s, inr s).

Definition modify {S E} (f : S -> S) : M S E unit := fun s => (f s, inr tt).

(** A call that returns [a] or throws [e]. *)
Definition call {S E A} (outcome : option A) (e : E) : M S E A :=
  match outcome with
  | Some a => ret a
  | None => throw e
  end.

End Eff.

Declare Scope eff_scope.
Delimit Scope eff_scope with eff.
Notation "x <- m ;; k" := (Eff.bind m (fun x => k))
  (at level 61, m at next level, right associativity) : eff_scope.
Notation "m ;; k" := (Eff.bind m (fun _ => k))
  (at level 61, right associativity) : eff_scope.

(** A thrown JavaScript value. *)
Inductive Exn : Type := JsError (message : string).

(* ------------------------------------------------------------------ *)
(** ** useImageDownload.ts: the download hook                          *)
(* ------------------------------------------------------------------ *)

Module Download.
Import Js Eff.
Local Open Scope eff_scope.

Record Blob : Type := mkBlob { blob_bytes : list Z; blob_type : string }.

(** The browser calls of the [try] block that can throw. *)
Inductive DomCall : Type := createElement | appendChild | click | setTimeout.

(** The host environment: [navigator.userAgent]; [atob], which gives the
    decoded bytes or throws on a malformed payload ([None]);
    [URL.createObjectURL]; and which of the DOM calls throw. *)
Record Host : Type := mkHost {
  userAgent : string;
  atob : string -> option (list Z);
  createObjectURL : Blob -> option string;
  domThrows : DomCall -> bool
}.

(** What the hook does to the document. *)
Inductive Dom : Type :=
| RevokeObjectURL (url : string)
| LinkClicked (href download : string) (inDocument : bool)
| TimerSet (ms : nat)
| ConsoleError.

(** The hook's refs and the log of its DOM effects (oldest first). *)
Record State : Type := mkState {
  isDownloadingRef : bool;
  objectUrlRef : option string;
  dom : list Dom
}.

Definition initial : State := mkState false None [].

Definition setIsDownloadingRef (b : bool) (s : State) : State :=
  mkState b (objectUrlRef s) (dom s).
Definition setObjectUrlRef (u : option string) (s : State) : State :=
  mkState (isDownloadingRef s) u (dom s).
Definition record (d : Dom) (s : State) : State :=
  mkState (isDownloadingRef s) (objectUrlRef s) (dom s ++ [d])%list.

(** [isMedianWebView] (lines 21-24). *)
Definition isMedianWebView (h : Host) : bool :=
  let ua := toLowerCase (userAgent h) in
  (includes ua "median" || includes ua "gonative")%bool.

(** The capture group of [/:(.*?);/] matched at a colon: the text up to
    the next semicolon, when no line terminator comes first. *)
Fixpoint untilSemicolon (s : string) : option string :=
  match s with
  | EmptyString => None
  | String c rest =>
      if Ascii.eqb c ";" then Some EmptyString
      else if (Ascii.eqb c "010" || Ascii.eqb c "013")%bool then None
      else option_map (String c) (untilSemicolon rest)
  end.

(** [s.match(/:(.*?);/)?.[1]]: the leftmost colon at which the pattern
    matches decides. *)
Fixpoint matchMime (s : string) : option string :=
  match s with
  | EmptyString => None
  | String c rest =>
      if Ascii.eqb c ":" then
        match untilSemicolon rest with
        | Some m => Some m
        | None => matchMime rest
        end
      else matchMime rest
  end.

(** A character in the range U+0020 to U+007E. *)
Definition printable (c : ascii) : bool :=
  let n := nat_of_ascii c in
  ((32 <=? n)%nat && (n <=? 126)%nat)%bool.

Fixpoint allPrintable (s : string) : bool :=
  match s with
  | EmptyString => true
  | String c rest => (printable c && allPrintable rest)%bool
  end.

(** [new Blob(parts, { type })]: the constructor stores the empty string
    as the type when the given one has a character outside U+0020 to
    U+007E, and the given type in ASCII lower case otherwise. *)
Definition blobType (type : string) : string :=
  if allPrintable type then toLowerCase type else EmptyString.

Definition newBlob (bytes : list Z) (type : string) : Blob :=
  mkBlob bytes (blobType type).

(** [dataUrlToBlob] (lines 29-39); an empty capture is falsy. *)
Definition dataUrlToBlob (h : Host) (dataUrl : string) : M State Exn Blob :=
  let mime := match matchMime (untilComma dataUrl) with
              | Some m => if String.eqb m EmptyString then "image/png" else m
              | None => "image/png"
              end in
  bstr <- call (atob h (orUndefined (afterComma dataUrl)))
               (JsError "InvalidCharacterError") ;;
  ret (newBlob bstr mime).

(** [cleanupObjectUrl] (lines 48-53). *)
Definition cleanupObjectUrl : M State Exn unit :=
  s <- get ;;
  match objectUrlRef s with
  | Some url =>
      modify (record (RevokeObjectURL url)) ;;
      modify (setObjectUrlRef None)
  | None => ret tt
  end.

Definition dom_call (h : Host) (c : DomCall) : M State Exn unit :=
  if domThrows h c then throw (JsError "DOMException") else ret tt.

(** [downloadImage] (lines 59-124).  The function is [async] but awaits
    nothing: one call runs from the guard to the [finally] without
    interruption.  The callbacks given to [setTimeout] run later and are
    only recorded. *)
Definition downloadImage (h : Host) (dataUrl filename : string)
    : M State Exn bool :=
  s <- get ;;
  if isDownloadingRef s then ret false
  else
    modify (setIsDownloadingRef true) ;;
    try_finally
      (try_catch
         (cleanupObjectUrl ;;
          blob <- dataUrlToBlob h dataUrl ;;
          objectUrl <- call (createObjectURL h blob) (JsError "TypeError") ;;
          modify (setObjectUrlRef (Some objectUrl)) ;;
          dom_call h createElement ;;
          (if isMedianWebView h then
             dom_call h appendChild ;;
             dom_call h click ;;
             modify (record (LinkClicked objectUrl filename true)) ;;
             dom_call h setTimeout ;;
             modify (record (TimerSet 100))
           else
             dom_call h click ;;
             modify (record (LinkClicked objectUrl filename false)) ;;
             dom_call h setTimeout ;;
             modify (record (TimerSet 1000))) ;;
          ret true)
         (fun error =>
            modify (record ConsoleError) ;;
            cleanupObjectUrl ;;
            ret false))
      (modify (setIsDownloadingRef false)).

End Download.

(* ------------------------------------------------------------------ *)
(** ** PhotoStripPreview.tsx: download and print handlers              *)
(* ------------------------------------------------------------------ *)

Module Preview.
Import Js Eff.
Local Open Scope eff_scope.
Local Open Scope nat_scope.

(** *** The Web Bluetooth objects (src/types/bluetooth.d.ts) *)

(** A characteristic with its [properties] flags.  [writeValue k chunk]
    says whether the call [writeValue(chunk)] resolves ([true]) or rejects
    ([false]) when [k] writes were made on the characteristic before it. *)
Record Characteristic : Type := mkCharacteristic {
  char_uuid : string;
  prop_write : bool;
  prop_writeWithoutResponse : bool;
  writeValue : nat -> list Z -> bool
}.

(** [getCharacteristics()] resolves to a list or rejects ([None]). *)
Record Service : Type := mkService {
  service_uuid : string;
  getCharacteristics : option (list Characteristic)
}.

(** [getPrimaryServices()] resolves to a list or rejects ([None]). *)
Record Server : Type := mkServer {
  getPrimaryServices : option (list Service)
}.

(** [device.gatt] may be absent; [connect()] resolves to the server or
    rejects ([None]). *)
Record Gatt : Type := mkGatt { connected : bool; connect : option Server }.

Record Device : Type := mkDevice {
  device_name : option string;
  gatt : option Gatt
}.

(** The page around the handlers: [stripDataUrl] is the data URL that
    [await generateHighQualityStrip()] gives for the current photos, layout
    and colour mode ([None] when it throws: no canvas context, or an image
    that fails to load); whether [window.open] returns a window;
    [Date.now()]; and the host environment. *)
Record Page : Type := mkPage {
  stripDataUrl : option string;
  windowOpens : bool;
  dateNow : N;
  downloadHost : Download.Host
}.

(** *** State and effects *)

Inductive Effect : Type :=
| Notify (t : Capture.Toast)
| SetIsPrinting (b : bool)
| SetIsDownloading (b : bool)
| Write (uuid : string) (k : nat) (chunk : list Z) (ok : bool)
| Disconnect
| ConsoleError
| SystemPrintCalled
| PrintWindow (dataUrl : string).

(** The [useState] cells the handlers use, the download hook's state, and
    the log of effects (oldest first). *)
Record State : Type := mkState {
  isDownloading : bool;
  isPrinting : bool;
  hook : Download.State;
  log : list Effect
}.

Definition initial : State := mkState false false Download.initial [].

Definition emit (e : Effect) : M State Exn unit :=
  modify (fun s => mkState (isDownloading s) (isPrinting s) (hook s)
                           (log s ++ [e])%list).
Definition setIsDownloading (b : bool) : M State Exn unit :=
  modify (fun s => mkState b (isPrinting s) (hook s)
                           (log s ++ [SetIsDownloading b])%list).
Definition setIsPrinting (b : bool) : M State Exn unit :=
  modify (fun s => mkState (isDownloading s) b (hook s)
                           (log s ++ [SetIsPrinting b])%list).

(** A call into the hook runs on the hook's part of the state. *)
Definition liftHook {A} (m : M Download.State Exn A) : M State Exn A :=
  fun s =>
    match m (hook s) with
    | (h', r) => (mkState (isDownloading s) (isPrinting s) h' (log s), r)
    end.

(** *** handleDownload (lines 162-194) *)
Definition handleDownload (p : Page) : M State Exn unit :=
  s <- get ;;
  if isDownloading s then ret tt
  else
    setIsDownloading true ;;
    try_finally
      (try_catch
         (dataUrl <- call (stripDataUrl p) (JsError "Failed to load image") ;;
          let filename := "love-booth-" ++
                          NilEmpty.string_of_uint (N.to_uint (dateNow p)) ++ ".png" in
          success <- liftHook (Download.downloadImage (downloadHost p) dataUrl filename) ;;
          if success then
            emit (Notify (Capture.toast_success "Photo downloaded! View in Gallery"))
          else
            emit (Notify (Capture.toast_error "Download failed. Please try again.")))
         (fun error =>
            emit ConsoleError ;;
            emit (Notify (Capture.toast_error
                            "Failed to generate image. Please try again."))))
      (setIsDownloading false).

(** *** handleSystemPrint (lines 314-363) *)
Definition handleSystemPrint (p : Page) : M State Exn unit :=
  emit SystemPrintCalled ;;
  try_catch
    (dataUrl <- call (stripDataUrl p) (JsError "Failed to load image") ;;
     if negb (windowOpens p) then
       emit (Notify (Capture.toast_error "Please allow popups to print"))
     else
       emit (PrintWindow dataUrl))
    (fun error =>
       emit ConsoleError ;;
       emit (Notify (Capture.toast_error "Failed to print. Please try again."))).

(** *** handleBluetoothPrint (lines 249-309) *)

(** "Convert to binary for printing" (lines 260-266). *)
Definition toBytes (p : Page) (dataUrl : string) : M State Exn (list Z) :=
  let base64 := afterComma dataUrl in
  call (Download.atob (downloadHost p) (orUndefined base64))
       (JsError "InvalidCharacterError").

Definition chunkSize : nat := 512.

(** [bytes.slice(i, j)] for [i <= j]. *)
Definition slice (bytes : list Z) (i j : nat) : list Z :=
  firstn (j - i) (skipn i bytes).

(** [await char.writeValue(chunk)]: the write is logged with its outcome;
    a rejection is thrown. *)
Definition await_writeValue (c : Characteristic) (k : nat) (chunk : list Z)
    : M State Exn unit :=
  if writeValue c k chunk then emit (Write (char_uuid c) k chunk true)
  else emit (Write (char_uuid c) k chunk false) ;;
       throw (JsError "NetworkError").

(** The chunk loop
    [for (let i = 0; i < bytes.length; i += chunkSize)] from offset [i].
    The loop is not structural, so it recurses on [fuel]; [writeChunks]
    gives it [bytes.length], one unit per iteration being more than it can
    use since every iteration advances [i] by 512. *)
Fixpoint chunkLoop (fuel : nat) (c : Characteristic) (bytes : list Z) (i : nat)
    : M State Exn unit :=
  match fuel with
  | O => ret tt
  | S fuel' =>
      if i <? List.length bytes then
        let chunk := slice bytes i (i + chunkSize) in
        await_writeValue c (i / chunkSize) chunk ;;
        chunkLoop fuel' c bytes (i + chunkSize)
      else ret tt
  end.

Definition writeChunks (c : Characteristic) (bytes : list Z) : M State Exn unit :=
  chunkLoop (List.length bytes) c bytes 0.

Definition writable (c : Characteristic) : bool :=
  (prop_write c || prop_writeWithoutResponse c)%bool.

(** [for (const char of characteristics)]: the value is the variable
    [printed], set just before the [break]. *)
Fixpoint charLoop (cs : list Characteristic) (bytes : list Z) : M State Exn bool :=
  match cs with
  | [] => ret false
  | c :: rest =>
      if writable c then
        writeChunks c bytes ;;
        ret true
      else charLoop rest bytes
  end.

(** [for (const service of services)] with its [try]/[catch]: an exception
    from [getCharacteristics] or from a write is swallowed and the loop
    continues with the next service. *)
Fixpoint serviceLoop (ss : list Service) (bytes : list Z) : M State Exn bool :=
  match ss with
  | [] => ret false
  | service :: rest =>
      printed <- try_catch
                   (characteristics <- call (getCharacteristics service)
                                            (JsError "NetworkError") ;;
                    charLoop characteristics bytes)
                   (fun e => ret false) ;;
      if printed then ret true else serviceLoop rest bytes
  end.

(** [device.gatt?.connect()] followed by the [!server] check. *)
Definition connectServer (device : Device) : M State Exn Server :=
  match gatt device with
  | Some g => call (connect g) (JsError "NetworkError")
  | None => throw (JsError "Could not connect to device")
  end.

Definition handleBluetoothPrint (p : Page) (device : Device) : M State Exn unit :=
  setIsPrinting true ;;
  try_finally
    (try_catch
       (server <- connectServer device ;;
        dataUrl <- call (stripDataUrl p) (JsError "Failed to load image") ;;
        bytes <- toBytes p dataUrl ;;
        services <- call (getPrimaryServices server) (JsError "NetworkError") ;;
        printed <- serviceLoop services bytes ;;
        (if printed then
           emit (Notify (Capture.toast_success "Sent to printer!"))
         else
           emit (Notify (Capture.toast_info
                           "Direct print not supported. Opening print dialog...")) ;;
           handleSystemPrint p) ;;
        emit Disconnect)
       (fun error =>
          emit ConsoleError ;;
          emit (Notify (Capture.toast_info "Opening system print dialog instead...")) ;;
          handleSystemPrint p))
    (setIsPrinting false).

End Preview.

(* ------------------------------------------------------------------ *)
(** ** CaptureMode.tsx: the normalization of a frame                   *)
(* ------------------------------------------------------------------ *)

Module Frame.
Import Capture.

(** The arguments of [ctx.drawImage(image, sx, sy, sWidth, sHeight, dx, dy,
    dWidth, dHeight)]: the source rectangle and the destination rectangle.
    [sx] and [sy] are halves of integers. *)
Record Draw : Type := mkDraw {
  sx : Q;
  sy : Q;
  sWidth : Z;
  sHeight : Z;
  dx : Z;
  dy : Z;
  dWidth : Z;
  dHeight : Z
}.

(** The draw of [capturePhoto] (lines 150-156, on [video.videoWidth] and
    [video.videoHeight]) and of the upload path (lines 246-252, on
    [img.width] and [img.height]): [size = Math.min(width, height)],
    [x = (width - size) / 2], [y = (height - size) / 2],
    [drawImage(image, x, y, size, size, 0, 0, 1000, 1000)]. *)
Definition centerCrop (width height : Z) : Draw :=
  let size := Z.min width height in
  mkDraw ((width - size) # 2) ((height - size) # 2) size size 0 0 1000 1000.

(** [capturePhoto] (lines 138-166) with its canvas step.  [toDataURL] is
    what [canvas.toDataURL("image/png", 1.0)] returns after a draw.  The
    result is the new state and the draw that was made, if any. *)
Definition capturePhoto (ctx : bool) (videoWidth videoHeight : Z)
    (toDataURL : Draw -> string) (s : State) : State * option Draw :=
  if negb (isCamera (mode s)) then (s, None)
  else if (ctx && (0 <? videoWidth)%Z)%bool then
    let draw := centerCrop videoWidth videoHeight in
    let dataUrl := toDataURL draw in
    let newPhotos := (photos s ++ [dataUrl])%list in
    (setPhotos newPhotos
       (emit (Notify (toast_success
                ("Photo " ++ Js.show (List.length newPhotos) ++ "/" ++
                 Js.show (timerRequired s) ++ " captured!"))) s),
     Some draw)
  else (s, None).

(** [img.onload] of the upload path (lines 233-259) for an image of the
    given size.  [ctx] says whether [getContext("2d")] returned a context;
    [toDataURL] is what the rest of the [try] block gives after the draw:
    the data URL of the canvas, or [None] when the block throws.  The result
    is the string the promise resolves to and the draw it comes from, if
    any. *)
Definition onImageLoad (dataUrl : string) (ctx : bool) (width height : Z)
    (toDataURL : Draw -> option string) : string * option Draw :=
  if negb ctx then (dataUrl, None)
  else
    let draw := centerCrop width height in
    match toDataURL draw with
    | Some png => (png, Some draw)
    | None => (dataUrl, None)
    end.

End Frame.

(* ------------------------------------------------------------------ *)
(** ** PhotoStripPreview.tsx: the Print button                         *)
(* ------------------------------------------------------------------ *)

Module PrintButton.
Import Js Eff Preview.
Local Open Scope eff_scope.

(** What [navigator.bluetooth.requestDevice(...)] does: it resolves with
    the device the user chose (the handler also allows for a falsy value,
    [None]), or it rejects with an exception of some [name]. *)
Inductive Chooser : Type :=
| Resolves (device : option Device)
| Rejects (name : string).

(** [navigator]: the [bluetooth] member is absent in a browser without Web
    Bluetooth. *)
Record Navigator : Type := mkNavigator { bluetooth : option Chooser }.

(** A value caught by the [catch] clause of [handleScanBluetooth]: a
    rejection of [requestDevice], or an error coming out of
    [handleBluetoothPrint] (which has name ["Error"]). *)
Inductive Thrown : Type :=
| DOMException (name : string)
| Plain (e : Exn).

Definition error_name (t : Thrown) : string :=
  match t with
  | DOMException name => name
  | Plain _ => "Error"
  end.

(** The further [useState] cells of the component (lines 35-36) next to
    the ones of [Preview.State].  The [connected] field of the stored
    device's [gatt] is the value of that property when the handler reads
    it. *)
Record State : Type := mkState {
  preview : Preview.State;
  isScanning : bool;
  connectedDevice : option Device
}.

Definition initial : State := mkState Preview.initial false None.

Definition setIsScanning (b : bool) : M State Thrown unit :=
  modify (fun s => mkState (preview s) b (connectedDevice s)).
Definition setConnectedDevice (d : option Device) : M State Thrown unit :=
  modify (fun s => mkState (preview s) (isScanning s) d).

(** A handler of [Preview] runs on its part of the state. *)
Definition liftPreview {A} (m : M Preview.State Exn A) : M State Thrown A :=
  fun s =>
    match m (preview s) with
    | (p', inr a) => (mkState p' (isScanning s) (connectedDevice s), inr a)
    | (p', inl e) => (mkState p' (isScanning s) (connectedDevice s), inl (Plain e))
    end.

Definition notify (t : Capture.Toast) : M State Thrown unit :=
  liftPreview (emit (Notify t)).

(** [isBluetoothSupported] (lines 199-201): ['bluetooth' in navigator]. *)
Definition isBluetoothSupported (nav : Navigator) : bool :=
  match bluetooth nav with Some _ => true | None => false end.

(** [await nav.bluetooth.requestDevice({...})]; without the member the
    property access throws a [TypeError]. *)
Definition requestDevice (nav : Navigator) : M State Thrown (option Device) :=
  match bluetooth nav with
  | Some (Resolves device) => ret device
  | Some (Rejects name) => throw (DOMException name)
  | None => throw (DOMException "TypeError")
  end.

(** [device.name || 'Bluetooth Device'] *)
Definition nameOrDefault (device : Device) : string :=
  match device_name device with
  | Some name => if String.eqb name EmptyString then "Bluetooth Device" else name
  | None => "Bluetooth Device"
  end.

(** [handleScanBluetooth] (lines 206-244). *)
Definition handleScanBluetooth (nav : Navigator) (p : Page) : M State Thrown unit :=
  if negb (isBluetoothSupported nav) then
    notify (Capture.toast_error "Bluetooth not supported. Use Chrome or Edge browser.")
  else
    setIsScanning true ;;
    try_finally
      (try_catch
         (device <- requestDevice nav ;;
          match device with
          | Some d =>
              setConnectedDevice (Some d) ;;
              notify (Capture.toast_success ("Connected to " ++ nameOrDefault d)) ;;
              liftPreview (handleBluetoothPrint p d)
          | None => ret tt
          end)
         (fun error =>
            if String.eqb (error_name error) "NotFoundError" then
              notify (Capture.toast_info "No device selected")
            else
              liftPreview (emit ConsoleError) ;;
              notify (Capture.toast_error
                        "Failed to connect. Make sure Bluetooth is enabled.")))
      (setIsScanning false).

(** [connectedDevice.gatt?.connected] as a condition. *)
Definition gattConnected (device : Device) : bool :=
  match gatt device with
  | Some g => connected g
  | None => false
  end.

(** [handlePrint] (lines 368-376). *)
Definition handlePrint (nav : Navigator) (p : Page) : M State Thrown unit :=
  s <- get ;;
  if (isPrinting (preview s) || isScanning s)%bool then ret tt
  else
    match connectedDevice s with
    | Some device =>
        if gattConnected device then liftPreview (handleBluetoothPrint p device)
        else handleScanBluetooth nav p
    | None => handleScanBluetooth nav p
    end.

End PrintButton.

(* ------------------------------------------------------------------ *)
(** ** useCamera.ts: the camera hook                                   *)
(* ------------------------------------------------------------------ *)

Module Camera.
Import Js Eff.
Local Open Scope eff_scope.
Local Open Scope nat_scope.

(** [type CameraPermissionState] (lines 13-20). *)
Inductive CameraPermissionState : Type :=
| prompt | requesting | granted | denied | blocked | unavailable | error.

(** The value a rejected [getUserMedia] is caught with. *)
Record DOMException : Type := mkDOMException { name : string; message : string }.

(** The three constraint objects the hook passes to [getUserMedia]: the
    WebView one (lines 114-119), the browser one (lines 120-125) and the
    minimal [{ video: true, audio: false }] of the retry (lines 175-178). *)
Inductive Constraints : Type := WebViewVideo | BrowserVideo | AnyVideo.

(** A [MediaStream] object, by identity. *)
Definition Stream : Type := nat.

(** The browser around one call of the hook: the user agent;
    [navigator.mediaDevices.getUserMedia] ([None] when it is missing), which
    resolves with a stream or rejects; and whether the component is unmounted
    while the hook waits for the first request, for the retry with minimal
    constraints, and for the 100 ms delay of [retryCamera]. *)
Record Env : Type := mkEnv {
  userAgent : string;
  getUserMedia : option (Constraints -> DOMException + Stream);
  unmountsDuringRequest : bool;
  unmountsDuringFallback : bool;
  unmountsDuringDelay : bool
}.

(** The hook's [useState] cells and its [isMounted] ref, with two logs
    (oldest first): the streams [getUserMedia] resolved with, and the
    streams whose tracks were stopped (one entry for every
    [getTracks().forEach(track => track.stop())]). *)
Record State : Type := mkState {
  stream : option Stream;
  permissionState : CameraPermissionState;
  errorMessage : option string;
  isMounted : bool;
  acquired : list Stream;
  stopped : list Stream
}.

(** The state of the hook in a freshly mounted component. *)
Definition initial : State := mkState None prompt None true [] [].

Definition setPermissionState (p : CameraPermissionState) : M State DOMException unit :=
  modify (fun s => mkState (stream s) p (errorMessage s) (isMounted s)
                           (acquired s) (stopped s)).
Definition setErrorMessage (m : option string) : M State DOMException unit :=
  modify (fun s => mkState (stream s) (permissionState s) m (isMounted s)
                           (acquired s) (stopped s)).

(** [stream.getTracks().forEach((track) => track.stop())] *)
Definition stopTracks (st : Stream) : M State DOMException unit :=
  modify (fun s => mkState (stream s) (permissionState s) (errorMessage s)
                           (isMounted s) (acquired s) (stopped s ++ [st])%list).

Definition sameStream (a b : option Stream) : bool :=
  match a, b with
  | Some x, Some y => x =? y
  | None, None => true
  | _, _ => false
  end.

Definition tracksOf (o : option Stream) : list Stream :=
  match o with Some st => [st] | None => [] end.

(** [setStream]: when the value changes, the render that follows runs the
    cleanup of the effect that depends on [stream] (lines 218-224), which
    stops the tracks of the stream it replaces. *)
Definition setStream (v : option Stream) : M State DOMException unit :=
  modify (fun s =>
    if sameStream (stream s) v then s
    else mkState v (permissionState s) (errorMessage s) (isMounted s)
                 (acquired s) (stopped s ++ tracksOf (stream s))%list).

(** The component is unmounted: the cleanups of both effects run (lines
    68-70 and 219-223). *)
Definition unmount : M State DOMException unit :=
  modify (fun s =>
    if isMounted s then
      mkState (stream s) (permissionState s) (errorMessage s) false
              (acquired s) (stopped s ++ tracksOf (stream s))%list
    else s).

Definition during (unmounts : bool) : M State DOMException unit :=
  if unmounts then unmount else ret tt.

Definition whenMounted (m : M State DOMException unit) : M State DOMException unit :=
  s <- get ;;
  if isMounted s then m else ret tt.

(** [isWebView] (lines 34-45). *)
Definition isWebView (env : Env) : bool :=
  let ua := toLowerCase (userAgent env) in
  (includes ua "median" || includes ua "gonative" ||
   (includes ua "android" && includes ua "wv") ||
   (includes ua "iphone" && negb (includes ua "safari")))%bool.

(** [isCameraSupported] (lines 50-55). *)
Definition isCameraSupported (env : Env) : bool :=
  match getUserMedia env with Some _ => true | None => false end.

(** [await navigator.mediaDevices.getUserMedia(constraints)]; the
    component may be unmounted while the request is pending. *)
Definition await_getUserMedia (gum : Constraints -> DOMException + Stream)
    (c : Constraints) (unmounts : bool) : M State DOMException Stream :=
  during unmounts ;;
  match gum c with
  | inr st =>
      modify (fun s => mkState (stream s) (permissionState s) (errorMessage s)
                               (isMounted s) (acquired s ++ [st])%list (stopped s)) ;;
      ret st
  | inl e => throw e
  end.

(** [stopCamera] (lines 76-88). *)
Definition stopCamera : M State DOMException unit :=
  s <- get ;;
  match stream s with
  | Some st => stopTracks st
  | None => ret tt
  end ;;
  whenMounted (setStream None ;; setPermissionState prompt ;; setErrorMessage None).

Definition fails (p : CameraPermissionState) (msg : string)
    : M State DOMException unit :=
  setPermissionState p ;; setErrorMessage (Some msg).

(** [requestCamera] (lines 94-204). *)
Definition requestCamera (env : Env) : M State DOMException bool :=
  match getUserMedia env with
  | None =>
      whenMounted
        (fails unavailable "Camera is not supported on this device or browser.") ;;
      ret false
  | Some gum =>
      whenMounted (setPermissionState requesting ;; setErrorMessage None) ;;
      try_catch
        (let constraints := if isWebView env then WebViewVideo else BrowserVideo in
         mediaStream <- await_getUserMedia gum constraints (unmountsDuringRequest env) ;;
         s <- get ;;
         (if isMounted s then
            setStream (Some mediaStream) ;;
            setPermissionState granted ;;
            setErrorMessage None
          else stopTracks mediaStream) ;;
         ret true)
        (fun err =>
           s <- get ;;
           if negb (isMounted s) then ret false
           else if String.eqb (name err) "NotAllowedError" then
             (if (includes (message err) "denied" ||
                  includes (message err) "dismissed")%bool
              then fails denied
                     "Camera access denied. Please allow camera access to take photos."
              else fails blocked
                     "Camera access is blocked. Please enable it in your device settings.") ;;
             ret false
           else if String.eqb (name err) "NotFoundError" then
             fails unavailable "No camera found on this device." ;;
             ret false
           else if (String.eqb (name err) "NotReadableError" ||
                    String.eqb (name err) "AbortError")%bool then
             fails error
               "Camera is in use by another app. Please close other apps and try again." ;;
             ret false
           else if String.eqb (name err) "OverconstrainedError" then
             try_catch
               (fallbackStream <- await_getUserMedia gum AnyVideo
                                    (unmountsDuringFallback env) ;;
                whenMounted (setStream (Some fallbackStream) ;;
                             setPermissionState granted ;;
                             setErrorMessage None) ;;
                ret true)
               (fun _ =>
                  fails error "Camera configuration error. Please try again." ;;
                  ret false)
           else if String.eqb (name err) "SecurityError" then
             fails error "Camera requires a secure connection (HTTPS)." ;;
             ret false
           else
             fails error "Unable to access camera. Please try again." ;;
             ret false)
  end.

(** [retryCamera] (lines 209-215). *)
Definition retryCamera (env : Env) : M State DOMException bool :=
  stopCamera ;;
  during (unmountsDuringDelay env) ;;
  requestCamera env.

End Camera.

(* ------------------------------------------------------------------ *)
(** ** CaptureMode.tsx: the component and its camera hook              *)
(* ------------------------------------------------------------------ *)

Module CaptureCamera.
Import Js Eff.
Local Open Scope eff_scope.

(** The component's own cells together with the state of its camera
    hook. *)
Record State : Type := mkState {
  component : Capture.State;
  hook : Camera.State
}.

Definition initial : State := mkState Capture.initial Camera.initial.

(** A function of the hook runs on the hook's part of the state. *)
Definition liftHook {A} (m : M Camera.State Camera.DOMException A)
    : M State Camera.DOMException A :=
  fun s =>
    match m (hook s) with
    | (h', r) => (mkState (component s) h', r)
    end.

Definition update (f : Capture.State -> Capture.State)
    : M State Camera.DOMException unit :=
  modify (fun s => mkState (f (component s)) (hook s)).

(** [errorMessage || "Unable to access camera."] *)
Definition orUnable (errorMessage : option string) : string :=
  match errorMessage with
  | Some m => if String.eqb m EmptyString then "Unable to access camera." else m
  | None => "Unable to access camera."
  end.

(** [startCamera] (lines 102-110).  The [errorMessage] in the toast is the
    constant of the render in which the button was clicked, read here
    before the request. *)
Definition startCamera (env : Camera.Env) : M State Camera.DOMException unit :=
  rendered <- get ;;
  success <- liftHook (Camera.requestCamera env) ;;
  if success then update (Capture.setMode Capture.camera)
  else update (Capture.emit
                 (Capture.Notify
                    (Capture.toast_error
                       (orUnable (Camera.errorMessage (hook rendered)))))).

(** [handleRetryCamera] (lines 115-120). *)
Definition handleRetryCamera (env : Camera.Env) : M State Camera.DOMException unit :=
  success <- liftHook (Camera.retryCamera env) ;;
  if success then update (Capture.setMode Capture.camera) else ret tt.

(** [stopCamera] (lines 87-96), the call of the hook's [stopCamera]
    included. *)
Definition stopCamera : M State Camera.DOMException unit :=
  liftHook Camera.stopCamera ;;
  update Capture.stopCamera.

End CaptureCamera.

(* ------------------------------------------------------------------ *)
(** ** Index.tsx: the page that switches between the three views       *)
(* ------------------------------------------------------------------ *)

Module Index.
Local Open Scope nat_scope.

(** [type AppState = "landing" | "capture" | "preview"] *)
Inductive AppState : Type := landing | capture | preview.

Record State : Type := mkState {
  appState : AppState;
  photos : list string;
  selectedLayout : string
}.

Definition initial : State := mkState landing [] "strip-3".

Definition handleStart (s : State) : State :=
  mkState capture (photos s) (selectedLayout s).

Definition handlePhotosReady (capturedPhotos : list string) (layout : string)
    (s : State) : State :=
  mkState preview capturedPhotos layout.

Definition handleBack (s : State) : State :=
  mkState landing [] (selectedLayout s).

Definition handleBackToCapture (s : State) : State :=
  mkState capture (photos s) (selectedLayout s).

(** The page with the view it renders.  [child] is the state of the
    mounted [CaptureMode] (a fresh one whenever the capture view is
    entered); [pending] holds, for every upload whose [Promise.all] has not
    settled yet, the calls of [onPhotosReady] its continuation makes. *)
Record Page : Type := mkPage {
  index : State;
  child : Capture.State;
  pending : list (list (list string * string))
}.

Definition start : Page := mkPage initial Capture.initial [].

(** The calls of the [onPhotosReady] prop among some effects. *)
Definition readyCalls (effs : list Capture.Effect) : list (list string * string) :=
  flat_map (fun e => match e with
                     | Capture.PhotosReady ps lid => [(ps, lid)]
                     | _ => []
                     end) effs.

Definition deliver (calls : list (list string * string)) (s : State) : State :=
  fold_left (fun i c => handlePhotosReady (fst c) (snd c) i) calls s.

Inductive Event : Type :=
| ClickStart                       (* LandingPage, onStart *)
| InCapture (e : Capture.Event)    (* an event of the mounted CaptureMode *)
| ClickLeaveCapture                (* Back button of the choose view, onBack *)
| FilesChosen (refNow refLater : bool) (files : list Capture.File)
| UploadSettles                    (* the oldest pending Promise.all resolves *)
| ClickBackToCapture               (* PhotoStripPreview, onBack *)
| ClickStartOver.                  (* PhotoStripPreview, onStartOver *)

Definition isLanding (a : AppState) : bool :=
  match a with landing => true | _ => false end.
Definition isCapture (a : AppState) : bool :=
  match a with capture => true | _ => false end.
Definition isPreview (a : AppState) : bool :=
  match a with preview => true | _ => false end.

(** The dispatch of an event, as the three views are rendered (lines
    161-182) and wire their props.  An event of [CaptureMode] reaches the
    page through the calls of [onPhotosReady] it makes; the continuation of
    an upload runs when its promise settles, whatever view is shown then. *)
Definition step (s : Page) (e : Event) : Page :=
  match e with
  | ClickStart =>
      if isLanding (appState (index s))
      then mkPage (handleStart (index s)) Capture.initial (pending s)
      else s
  | InCapture ev =>
      if isCapture (appState (index s)) then
        let c' := Capture.step (child s) ev in
        let new := skipn (List.length (Capture.effects (child s))) (Capture.effects c') in
        mkPage (deliver (readyCalls new) (index s)) c' (pending s)
      else s
  | ClickLeaveCapture =>
      if (isCapture (appState (index s)) &&
          Capture.isChoose (Capture.mode (child s)))%bool
      then mkPage (handleBack (index s)) (child s) (pending s)
      else s
  | FilesChosen refNow refLater files =>
      if (isCapture (appState (index s)) &&
          Capture.isChoose (Capture.mode (child s)))%bool
      then mkPage (index s) (child s)
             (pending s ++
              [readyCalls (Capture.handleFileUpload (child s) refNow refLater files)])%list
      else s
  | UploadSettles =>
      match pending s with
      | calls :: rest => mkPage (deliver calls (index s)) (child s) rest
      | [] => s
      end
  | ClickBackToCapture =>
      if isPreview (appState (index s))
      then mkPage (handleBackToCapture (index s)) Capture.initial (pending s)
      else s
  | ClickStartOver =>
      if isPreview (appState (index s))
      then mkPage (handleBack (index s)) (child s) (pending s)
      else s
  end.

Definition run (s : Page) (es : list Event) : Page := fold_left step es s.

End Index.

(* ================================================================== *)
(** * Part II. The vocabulary of the statements                       *)
(* ================================================================== *)

Section CaptureTerms.
Import Catalog Capture.
Local Open Scope nat_scope.

(** A state is reachable when some sequence of events leads to it from the
    freshly mounted component. *)
Definition reachable (s : State) : Prop := exists es, s = run initial es.

(** The invariant of the component. *)
Record Inv (s : State) : Prop := mkInv {
  inv_layout : In (selectedLayout s) STRIP_LAYOUTS;
  inv_choose : isCamera (mode s) = false -> photos s = [];
  inv_bound : List.length (photos s) <= requiredPhotos s;
  inv_counting : countdown s <> None -> List.length (photos s) < requiredPhotos s;
  inv_timer : intervals s = (if isNull (countdown s) then 0 else 1);
  inv_positive : countdown s <> Some 0;
  inv_duration : In (timerDuration s) [3; 5; 10]
}.

Definition isIntervalFires (e : Event) : bool :=
  match e with IntervalFires _ _ _ => true | _ => false end.

(** A file decodes when the reader delivers a non-empty data URL and the
    image element loads it. *)
Definition decodes (f : File) : bool :=
  match readResult f with
  | Some dataUrl => (negb (String.eqb dataUrl EmptyString) && imageLoads f)%bool
  | None => false
  end.

Definition nonEmpty (p : string) : bool := negb (String.eqb p EmptyString).

End CaptureTerms.

Section DownloadTerms.
Import Eff Download.

(** The MIME type [dataUrlToBlob] gives the blob. *)
Definition blob_type_of (dataUrl : string) : string :=
  blobType
    match matchMime (Js.untilComma dataUrl) with
    | Some m => if String.eqb m EmptyString then "image/png" else m
    | None => "image/png"
    end.

(** Every fallible call of the [try] block goes through. *)
Definition downloadSucceeds (h : Host) (dataUrl : string) : bool :=
  match atob h (Js.orUndefined (Js.afterComma dataUrl)) with
  | None => false
  | Some bytes =>
      match createObjectURL h (mkBlob bytes (blob_type_of dataUrl)) with
      | None => false
      | Some _ =>
          (negb (domThrows h createElement) &&
           (if isMedianWebView h then negb (domThrows h appendChild) else true) &&
           negb (domThrows h click) && negb (domThrows h setTimeout))%bool
      end
  end.

End DownloadTerms.

Section PrintTerms.
Import Eff Preview.
Local Open Scope nat_scope.

(** The state [s] with [l] appended to its log. *)
Definition append (s : State) (l : list Effect) : State :=
  mkState (isDownloading s) (isPrinting s) (hook s) (log s ++ l)%list.

(** ceil(n / 512) *)
Definition chunkCount (n : nat) : nat := (n + (chunkSize - 1)) / chunkSize.

(** Chunk [k] of the buffer: [bytes.slice(k * 512, (k + 1) * 512)]. *)
Definition chunk (bytes : list Z) (k : nat) : list Z :=
  slice bytes (k * chunkSize) (k * chunkSize + chunkSize).

Definition rejects (c : Characteristic) (bytes : list Z) (k : nat) : bool :=
  negb (writeValue c k (chunk bytes k)).

Definition okWrite (c : Characteristic) (bytes : list Z) (k : nat) : Effect :=
  Write (char_uuid c) k (chunk bytes k) true.

(** The writes of a transmission in which no write is rejected. *)
Definition fullRun (c : Characteristic) (bytes : list Z) : list Effect :=
  map (okWrite c bytes) (seq 0 (chunkCount (List.length bytes))).

(** The characteristic accepts every chunk of the buffer. *)
Definition accepted (c : Characteristic) (bytes : list Z) : bool :=
  forallb (fun k => writeValue c k (chunk bytes k))
          (seq 0 (chunkCount (List.length bytes))).

(** The writes of the chunk loop started at chunk [k]: up to the end, or up
    to and including the first rejected write. *)
Definition runFrom (c : Characteristic) (bytes : list Z) (k : nat) : list Effect :=
  match find (rejects c bytes) (seq k (chunkCount (List.length bytes) - k)) with
  | None => map (okWrite c bytes) (seq k (chunkCount (List.length bytes) - k))
  | Some j => (map (okWrite c bytes) (seq k (j - k)) ++
               [Write (char_uuid c) j (chunk bytes j) false])%list
  end.

Definition outcomeFrom (c : Characteristic) (bytes : list Z) (k : nat) : Exn + unit :=
  match find (rejects c bytes) (seq k (chunkCount (List.length bytes) - k)) with
  | None => inr tt
  | Some _ => inl (JsError "NetworkError")
  end.

(** The characteristic a service is tried with: its first writable one,
    when [getCharacteristics] resolves. *)
Definition attemptOf (sv : Service) : option Characteristic :=
  match getCharacteristics sv with
  | Some cs => find writable cs
  | None => None
  end.

(** The transmission completes on this service. *)
Definition completes (bytes : list Z) (sv : Service) : bool :=
  match attemptOf sv with
  | Some c => accepted c bytes
  | None => false
  end.

(** The writes of the service loop. *)
Fixpoint serviceTrace (bytes : list Z) (ss : list Service) : list Effect :=
  match ss with
  | [] => []
  | sv :: rest =>
      match attemptOf sv with
      | None => serviceTrace bytes rest
      | Some c =>
          (runFrom c bytes 0 ++
           (if accepted c bytes then [] else serviceTrace bytes rest))%list
      end
  end.

(** What the print session works on, when every step before the service
    loop goes through: the services of the connected server and the bytes
    of the generated image. *)
Definition sessionInputs (p : Page) (device : Device)
    : option (list Service * list Z) :=
  match gatt device with
  | None => None
  | Some g =>
      match connect g with
      | None => None
      | Some server =>
          match stripDataUrl p with
          | None => None
          | Some dataUrl =>
              match Download.atob (downloadHost p)
                                  (Js.orUndefined (Js.afterComma dataUrl)) with
              | None => None
              | Some bytes =>
                  match getPrimaryServices server with
                  | None => None
                  | Some services => Some (services, bytes)
                  end
              end
          end
      end
  end.

(** The transmission completes on some service. *)
Definition printed (p : Page) (device : Device) : bool :=
  match sessionInputs p device with
  | Some (services, bytes) => existsb (completes bytes) services
  | None => false
  end.

Definition systemPrintTrace (p : Page) : list Effect :=
  SystemPrintCalled ::
  match stripDataUrl p with
  | None => [ConsoleError;
             Notify (Capture.toast_error "Failed to print. Please try again.")]
  | Some dataUrl =>
      if windowOpens p then [PrintWindow dataUrl]
      else [Notify (Capture.toast_error "Please allow popups to print")]
  end.

Definition sentToast : Effect := Notify (Capture.toast_success "Sent to printer!").

(** Everything a print session logs. *)
Definition bluetoothTrace (p : Page) (device : Device) : list Effect :=
  (SetIsPrinting true ::
   match sessionInputs p device with
   | Some (services, bytes) =>
       serviceTrace bytes services ++
       (if existsb (completes bytes) services then [sentToast]
        else Notify (Capture.toast_info
                       "Direct print not supported. Opening print dialog...")
             :: systemPrintTrace p) ++
       [Disconnect]
   | None =>
       ConsoleError ::
       Notify (Capture.toast_info "Opening system print dialog instead...") ::
       systemPrintTrace p
   end ++ [SetIsPrinting false])%list.

Definition isWrite (e : Effect) : bool :=
  match e with Write _ _ _ _ => true | _ => false end.

Definition isFailedWrite (e : Effect) : bool :=
  match e with Write _ _ _ false => true | _ => false end.

Definition isSystemPrintCalled (e : Effect) : bool :=
  match e with SystemPrintCalled => true | _ => false end.

Definition isSentToast (e : Effect) : bool :=
  match e with
  | Notify (Capture.toast_success msg) => String.eqb msg "Sent to printer!"
  | _ => false
  end.

(** How often handleSystemPrint was invoked, and whether success was
    reported, in a log. *)
Definition systemPrintCalls (l : list Effect) : nat :=
  List.length (filter isSystemPrintCalled l).

Definition sentToPrinter (l : list Effect) : bool := existsb isSentToast l.

End PrintTerms.

(** ** Sample inputs *)

(** A reachable complete FrameSet: camera granted and ready, then three
    countdowns of three seconds on the default layout strip-3. *)
Definition three_captures : list Capture.Event :=
  let shot (f : string) :=
    [Capture.ClickTakePhoto;
     Capture.IntervalFires true 640 f;
     Capture.IntervalFires true 640 f;
     Capture.IntervalFires true 640 f] in
  (Capture.CameraGranted :: Capture.LoadedMetadata ::
   shot "data:a" ++ shot "data:b" ++ shot "data:c")%list.

(** Three files for the default layout strip-3: a PNG, a HEIC photo whose
    MIME type the gallery left empty, and a JPEG that fails to load. *)
Definition sample_png : Capture.File :=
  Capture.mkFile "image/png" "a.png" (Some "data:image/png;base64,QQ==") true
                 (Capture.Png "Qg==").

Definition sample_heic : Capture.File :=
  Capture.mkFile EmptyString "IMG_0001.HEIC" (Some "data:application/octet-stream;base64,Qw==")
                 true Capture.NoContext.

Definition sample_broken : Capture.File :=
  Capture.mkFile "image/jpeg" "c.jpg" (Some "data:image/jpeg;base64,RA==") false
                 (Capture.Png EmptyString).

(** A 1025-byte image (three chunks: 512 + 512 + 1). *)
Definition sample_bytes : list Z :=
  map (fun n => Z.of_nat (n mod 256)) (seq 0 1025).

Definition sample_page : Preview.Page :=
  Preview.mkPage (Some "data:image/png;base64,iVBORw0KGgo=") true 1700000000000%N
                 (Download.mkHost "Mozilla/5.0" (fun _ => Some sample_bytes)
                                  (fun _ => Some "blob:1") (fun _ => false)).

Definition char_readonly : Preview.Characteristic :=
  Preview.mkCharacteristic "2a00" false false (fun _ _ => true).

Definition char_rejecting : Preview.Characteristic :=
  Preview.mkCharacteristic "ffe1" true false (fun _ _ => false).

Definition char_flaky : Preview.Characteristic :=
  Preview.mkCharacteristic "ffe3" true false (fun k _ => (k <? 1)%nat).

(** A characteristic that rejects the third write. *)
Definition char_rejects_last : Preview.Characteristic :=
  Preview.mkCharacteristic "ffe4" true false (fun k _ => (k <? 2)%nat).

Definition char_printer : Preview.Characteristic :=
  Preview.mkCharacteristic "ffe2" false true (fun _ _ => true).

Definition device_of (services : list Preview.Service) : Preview.Device :=
  Preview.mkDevice (Some "Printer")
    (Some (Preview.mkGatt false (Some (Preview.mkServer (Some services))))).

(** The first service's writable characteristic rejects its first write,
    the second service's accepts everything. *)
Definition device_rejecting_then_printer : Preview.Device :=
  device_of [ Preview.mkService "1800" (Some [char_readonly; char_rejecting]);
              Preview.mkService "18f0" (Some [char_printer]) ].

(** The first service's characteristic fails on the second chunk. *)
Definition device_flaky_then_printer : Preview.Device :=
  device_of [ Preview.mkService "ffe0" (Some [char_flaky]);
              Preview.mkService "18f0" (Some [char_printer]) ].

Definition device_single_printer : Preview.Device :=
  device_of [ Preview.mkService "1800" (Some [char_readonly]);
              Preview.mkService "18f0" (Some [char_readonly; char_printer]) ].

(** A device without a GATT server, and one whose services are read-only. *)
Definition device_without_gatt : Preview.Device :=
  Preview.mkDevice (Some "Speaker") None.

Definition device_read_only : Preview.Device :=
  device_of [ Preview.mkService "1800" (Some [char_readonly]);
              Preview.mkService "180a" None ].

(** The log of a print session started from the initial state. *)
Definition session_log (p : Preview.Page) (device : Preview.Device)
    : list Preview.Effect :=
  Preview.log (fst (Preview.handleBluetoothPrint p device Preview.initial)).

Section CaptureTerms2.
Import Catalog Capture.
Local Open Scope nat_scope.

(** Every [onPhotosReady] call in a log passes a catalog layout's id and
    exactly that layout's number of photos. *)
(** The canvas outcome of an uploaded file, as [Frame.onImageLoad] takes
    it. *)
Definition hasContext (f : File) : bool :=
  match canvas f with NoContext => false | _ => true end.

Definition canvasOutput (f : File) (d : Frame.Draw) : option string :=
  match canvas f with
  | Png payload => Some ("data:image/png;base64," ++ payload)
  | _ => None
  end.

Definition forwardsComplete (effs : list Effect) : Prop :=
  forall ps lid, In (PhotosReady ps lid) effs ->
    exists l, In l STRIP_LAYOUTS /\ id l = lid /\ List.length ps = photoCount l.

End CaptureTerms2.

Section StringTerms.

(** No character of [s] is among [cs]. *)
Fixpoint freeOf (cs : list ascii) (s : string) : bool :=
  match s with
  | EmptyString => true
  | String c rest => (negb (existsb (Ascii.eqb c) cs) && freeOf cs rest)%bool
  end.

End StringTerms.

Section PrintTerms2.
Import Preview.

Definition isDisconnect (e : Effect) : bool :=
  match e with Disconnect => true | _ => false end.
Definition isPrintWindow (e : Effect) : bool :=
  match e with PrintWindow _ => true | _ => false end.
Definition isErrorToast (e : Effect) : bool :=
  match e with Notify (Capture.toast_error _) => true | _ => false end.

(** How often an effect of a kind occurs in a log. *)
Definition occurrences (kind : Effect -> bool) (l : list Effect) : nat :=
  List.length (filter kind l).

End PrintTerms2.

Section PrintButtonTerms.
Import Preview PrintButton.

(** The device a click on Print works with, if any: the stored device
    while its GATT server is connected, otherwise the one the chooser
    resolves with. *)
Definition storedDevice (s : PrintButton.State) : option Device :=
  match connectedDevice s with
  | Some d => if gattConnected d then Some d else None
  | None => None
  end.

Definition chosenDevice (nav : Navigator) : option Device :=
  match bluetooth nav with
  | Some (Resolves (Some d)) => Some d
  | _ => None
  end.

(** What a scan that ends without a device adds to the log. *)
Definition noDeviceTrace (nav : Navigator) : list Effect :=
  match bluetooth nav with
  | None =>
      [Notify (Capture.toast_error "Bluetooth not supported. Use Chrome or Edge browser.")]
  | Some (Rejects name) =>
      if String.eqb name "NotFoundError"
      then [Notify (Capture.toast_info "No device selected")]
      else [ConsoleError;
            Notify (Capture.toast_error
                      "Failed to connect. Make sure Bluetooth is enabled.")]
  | Some (Resolves _) => []
  end.

Definition idle (s : PrintButton.State) : bool :=
  negb (isPrinting (preview s) || isScanning s).

(** Entries that print: a write to the printer, a call of the system
    print fallback, a print window. *)
Definition isPrintingEffect (e : Effect) : bool :=
  match e with
  | Write _ _ _ _ | SystemPrintCalled | PrintWindow _ => true
  | _ => false
  end.

End PrintButtonTerms.

(** A browser whose chooser is dismissed, one without Web Bluetooth, and
    one in which the user picks the sample printer. *)
Definition nav_dismissed : PrintButton.Navigator :=
  PrintButton.mkNavigator (Some (PrintButton.Rejects "NotFoundError")).

Definition nav_unsupported : PrintButton.Navigator :=
  PrintButton.mkNavigator None.

Definition nav_picks_printer : PrintButton.Navigator :=
  PrintButton.mkNavigator (Some (PrintButton.Resolves (Some device_single_printer))).

Section CameraTerms.
Import Camera.

Definition firstConstraints (env : Env) : Constraints :=
  if isWebView env then WebViewVideo else BrowserVideo.

(** The stream a request obtains: the one of the first call of
    [getUserMedia], or the one of the call with minimal constraints when
    the first is rejected with an OverconstrainedError. *)
Definition obtains (env : Env) : option Stream :=
  match getUserMedia env with
  | None => None
  | Some gum =>
      match gum (firstConstraints env) with
      | inr st => Some st
      | inl e =>
          if String.eqb (name e) "OverconstrainedError" then
            match gum AnyVideo with
            | inr st => Some st
            | inl _ => None
            end
          else None
      end
  end.

Definition isFailure (p : CameraPermissionState) : bool :=
  match p with
  | denied | blocked | unavailable | error => true
  | prompt | requesting | granted => false
  end.

(** The component stays mounted during a request. *)
Definition staysMounted (env : Env) : bool :=
  (negb (unmountsDuringRequest env) && negb (unmountsDuringFallback env))%bool.

(** What happens to the hook: its three functions are called, one call
    after the other, and the component is unmounted. *)
Inductive Op : Type :=
| Request (env : Env)
| Stop
| Retry (env : Env)
| Unmount.

Definition perform (s : Camera.State) (op : Op) : Camera.State :=
  match op with
  | Request env => fst (requestCamera env s)
  | Stop => fst (stopCamera s)
  | Retry env => fst (retryCamera env s)
  | Unmount => fst (unmount s)
  end.

(** The component is not unmounted while a retry with minimal constraints
    is pending. *)
Definition fallbackUndisturbed (op : Op) : bool :=
  match op with
  | Request env | Retry env => negb (unmountsDuringFallback env)
  | Stop | Unmount => true
  end.

(** Every stream that was obtained is the current stream of the mounted
    hook or has had its tracks stopped. *)
Definition accountedFor (s : Camera.State) : Prop :=
  forall st, In st (acquired s) ->
    (isMounted s = true /\ stream s = Some st) \/ In st (stopped s).

End CameraTerms.

(** A browser in which the permission prompt is dismissed, and one whose
    camera cannot satisfy the constraints but delivers stream 7 for the
    minimal ones, the component being unmounted meanwhile. *)
Definition env_dismissed : Camera.Env :=
  Camera.mkEnv "Mozilla/5.0"
    (Some (fun _ => inl (Camera.mkDOMException "NotAllowedError" "Permission dismissed")))
    false false false.

Definition env_overconstrained (leaves : bool) : Camera.Env :=
  Camera.mkEnv "Mozilla/5.0 (Linux; Android 13; wv)"
    (Some (fun c => match c with
                    | Camera.AnyVideo => inr 7%nat
                    | _ => inl (Camera.mkDOMException "OverconstrainedError" "width")
                    end))
    false leaves false.

Definition env_granted (st : nat) (leaves : bool) : Camera.Env :=
  Camera.mkEnv "Mozilla/5.0" (Some (fun _ => inr st)) leaves false false.

Section IndexTerms.
Import Catalog.
Local Open Scope nat_scope.

(** A set of photos that fits a layout id: the id is in the catalog and
    the number of photos is the layout's. *)
Definition fits (ps : list string) (lid : string) : Prop :=
  exists l, In l STRIP_LAYOUTS /\ id l = lid /\ List.length ps = photoCount l.

End IndexTerms.

(** Three uploaded files that all decode, for the default layout. *)
Definition sample_upload : list Capture.File :=
  [sample_png; sample_heic; sample_png].

Section IndexTerms2.
Import Index.

(** The invariant of the page. *)
Record PageInv (s : Index.Page) : Prop := mkPageInv {
  pi_child : Inv (child s);
  pi_pending : forall calls ps lid,
    In calls (pending s) -> In (ps, lid) calls -> fits ps lid;
  pi_preview : appState (index s) = preview ->
    fits (photos (index s)) (selectedLayout (index s));
  pi_landing : appState (index s) = landing -> photos (index s) = []
}.

End IndexTerms2.

(* ================================================================== *)
(** * Part III. Properties                                            *)
(* ================================================================== *)

Section CatalogFacts.

Import Catalog.

Lemma catalog_ids :
  map id STRIP_LAYOUTS = ["strip-3"; "strip-4"; "grid-4"; "wide-3"].
Proof. reflexivity. Qed.

Lemma catalog_photoCount_bounds l :
  In l STRIP_LAYOUTS -> photoCount l = 3%nat \/ photoCount l = 4%nat.
Proof.
  simpl. intros [<-|[<-|[<-|[<-|[]]]]]; simpl; auto.
Qed.

End CatalogFacts.

Section CompositorFacts.

Import Compositor.

Local Open Scope Z_scope.

Lemma ToUint8Clamp_range v : 0 <= ToUint8Clamp v <= 255.
Proof.
  destruct v as [[n d]|]; [|simpl; lia].
  unfold ToUint8Clamp, Qle_bool, Qfloor. cbn [Qnum Qden].
  destruct (Z.leb_spec (n * 1) (0 * Z.pos d)); [lia|].
  destruct (Z.leb_spec (255 * Z.pos d) (n * 1)); [lia|].
  assert (0 <= n / Z.pos d) by (apply Z.div_pos; lia).
  assert (n / Z.pos d < 255) by (apply Z.div_lt_upper_bound; lia).
  destruct (Qcompare _ _); [destruct (Z.even _)| |]; lia.
Qed.

Lemma ToUint8Clamp_gray a :
  0 <= a <= 255 -> ToUint8Clamp (Some (average a a a)) = a.
Proof.
  intros Ha. unfold ToUint8Clamp, average, Qle_bool. cbn [Qnum Qden].
  destruct (Z.leb_spec ((a + a + a) * 1) (0 * 3)); [lia|].
  destruct (Z.leb_spec (255 * 3) ((a + a + a) * 1)); [lia|].
  assert (Hf : Qfloor ((a + a + a) # 3) = a).
  { unfold Qfloor. replace (a + a + a) with (a * 3) by lia.
    apply Z.div_mul. lia. }
  rewrite Hf.
  assert (Hc : Qcompare (inject_Z a + (1 # 2)) ((a + a + a) # 3) = Gt).
  { unfold Qcompare, inject_Z, Qplus. cbn [Qnum Qden].
    apply Z.compare_gt_iff. lia. }
  rewrite Hc. reflexivity.
Qed.

Lemma grayscale_group r g b a rest :
  grayscale (r :: g :: b :: a :: rest) =
  let avg := ToUint8Clamp (Some (average r g b)) in
  avg :: avg :: avg :: a :: grayscale rest.
Proof. reflexivity. Qed.

Lemma grayscale_length data : List.length (grayscale data) = List.length data.
Proof.
  enough (H : forall n data, (List.length data < n)%nat ->
                        List.length (grayscale data) = List.length data)
    by (apply (H (S (List.length data))); lia).
  clear data. induction n as [|n IH]; intros data Hn; [lia|].
  destruct data as [|r [|g [|b [|a rest]]]]; try reflexivity.
  rewrite grayscale_group. cbn [List.length]. cbn [List.length] in Hn.
  rewrite IH by lia. reflexivity.
Qed.

End CompositorFacts.

(** Sample values of the embedded functions. *)
Example grayscale_rounds_to_nearest :
  Compositor.grayscale [10; 20; 31; 255; 0; 0; 2; 7; 255; 255; 255; 0]%Z
  = [20; 20; 20; 255; 1; 1; 1; 7; 255; 255; 255; 0]%Z.
Proof. reflexivity. Qed.

Example strip_canvas_sizes :
  (let g3 := Compositor.canvasGeometry "strip-3" 3 in
   let g4 := Compositor.canvasGeometry "strip-4" 4 in
   let w3 := Compositor.canvasGeometry "wide-3" 3 in
   (Compositor.canvasWidth g3, Compositor.canvasHeight g3) = (2720, 7680) /\
   (Compositor.canvasWidth g4, Compositor.canvasHeight g4) = (2720, 10160) /\
   (Compositor.canvasWidth w3, Compositor.canvasHeight w3) = (3520, 4080))%Z.
Proof. repeat split. Qed.

Example image_check_samples :
  map Capture.isImageFile
    [ sample_png; sample_heic;
      Capture.mkFile "text/plain" "notes.txt" None false Capture.NoContext;
      Capture.mkFile "application/octet-stream" "scan.Jpeg" None false Capture.NoContext;
      Capture.mkFile EmptyString "jpg" None false Capture.NoContext ]
  = [true; true; false; true; false].
Proof. reflexivity. Qed.

Example median_user_agent :
  Download.isMedianWebView
    (Download.mkHost "Mozilla/5.0 (Linux; Android 14) GoNative/1.0"
                     (fun _ => None) (fun _ => None) (fun _ => false)) = true /\
  Download.isMedianWebView (Preview.downloadHost sample_page) = false.
Proof. split; reflexivity. Qed.

Example blob_type_samples :
  map blob_type_of
    ["data:image/jpeg;base64,QQ=="; "data:;base64,QQ=="; "no-colon,QQ==";
     "data:Image/PNG;base64,QQ=="]
  = ["image/jpeg"; "image/png"; "image/png"; "image/png"].
Proof. reflexivity. Qed.

Example chunk_count_samples :
  map chunkCount [0; 1; 511; 512; 513; 1024; 1025]%nat = [0; 1; 1; 1; 2; 2; 3]%nat.
Proof. vm_compute. reflexivity. Qed.

(** C8.  The catalog is the fixed table of the four layouts strip-3,
    strip-4, grid-4 and wide-3, in this order; the ids are pairwise
    distinct; strip-3 and wide-3 take 3 photos, strip-4 and grid-4 take 4,
    so every photoCount is 3 or 4; and the lookup by id is a function of the
    id alone over this constant table: it returns each catalog layout for
    its own id, and whatever it returns is a catalog layout with that id. *)
Theorem catalog_fixed_table :
  List.length Catalog.STRIP_LAYOUTS = 4%nat /\
  map (fun l => (Catalog.id l, Catalog.photoCount l)) Catalog.STRIP_LAYOUTS =
    [("strip-3", 3%nat); ("strip-4", 4%nat); ("grid-4", 4%nat); ("wide-3", 3%nat)] /\
  NoDup (map Catalog.id Catalog.STRIP_LAYOUTS) /\
  (forall l, In l Catalog.STRIP_LAYOUTS ->
     Catalog.photoCount l = 3%nat \/ Catalog.photoCount l = 4%nat) /\
  (forall l, In l Catalog.STRIP_LAYOUTS -> Catalog.resolve (Catalog.id l) = Some l) /\
  (forall i l, Catalog.resolve i = Some l ->
     In l Catalog.STRIP_LAYOUTS /\ Catalog.id l = i).
Proof.
  split; [reflexivity|]. split; [reflexivity|]. split.
  { simpl. repeat constructor; simpl; intuition discriminate. }
  split; [apply catalog_photoCount_bounds|]. split.
  { simpl. intros l [<-|[<-|[<-|[<-|[]]]]]; reflexivity. }
  intros i l H. unfold Catalog.resolve in H.
  apply find_some in H. destruct H as [Hin Heq].
  split; [exact Hin|]. apply String.eqb_eq. exact Heq.
Qed.

Lemma catalog_fixed_table_witness :
  Catalog.resolve "grid-4" = Some (Catalog.mkLayout "grid-4" "Grid 4" 4 "4x6") /\
  Catalog.resolve "strip-5" = None.
Proof.
  destruct catalog_fixed_table as (_ & _ & _ & _ & Hresolve & _).
  split; [|reflexivity].
  apply (Hresolve (Catalog.mkLayout "grid-4" "Grid 4" 4 "4x6")).
  simpl. auto.
Defined.


(** C1 (as stated, refuted).  For grid-4 with 4 photos the canvas is not
    [padding*2 + 2*1800 + gap*4] wide and high: that would be 4240, the
    code makes it 4000. *)
Lemma grid4_canvas_not_four_gaps :
  ~ (exists st,
       Compositor.generateHighQualityStrip true (fun _ => true)
         ["data:1"; "data:2"; "data:3"; "data:4"] "grid-4" false = Some st /\
       Compositor.strip_width st =
         Compositor.padding * 2 + 2 * 1800 + Compositor.photoGap * 4 /\
       Compositor.strip_height st =
         Compositor.padding * 2 + 2 * 1800 + Compositor.photoGap * 4)%Z.
Proof.
  intros (st & Hst & Hw & _). vm_compute in Hst. injection Hst as <-.
  vm_compute in Hw. discriminate Hw.
Qed.

(** C1 (amended).  For grid-4 with 4 photos every cell is 450*4 = 1800 px
    square, padding is 40*4 = 160 and the gap 20*4 = 80, and the canvas is
    square with width and height [padding*2 + 2*1800 + gap] = 4000: the gap
    is counted once, between the two columns and between the two rows.  The
    four photos are drawn at column [i mod 2], row [i / 2], and the last
    cell ends exactly one padding away from the right and bottom edges. *)
Theorem grid4_canvas_geometry (loads : string -> bool) (a b c d : string)
    (isGrayscale : bool) :
  forallb loads [a; b; c; d] = true ->
  exists st,
    Compositor.generateHighQualityStrip true loads [a; b; c; d] "grid-4" isGrayscale
      = Some st /\
    (Compositor.padding = 40 * 4 /\ Compositor.padding = 160 /\
     Compositor.photoGap = 20 * 4 /\ Compositor.photoGap = 80 /\
     Compositor.photoWidth (Compositor.canvasGeometry "grid-4" 4) = 450 * 4 /\
     Compositor.photoHeight (Compositor.canvasGeometry "grid-4" 4) = 450 * 4 /\
     Compositor.strip_width st = Compositor.strip_height st /\
     Compositor.strip_width st =
       Compositor.padding * 2 + 2 * 1800 + Compositor.photoGap /\
     Compositor.strip_width st = 4000 /\
     Compositor.strip_images st =
       [ (a, Compositor.mkRect 160 160 1800 1800);
         (b, Compositor.mkRect 2040 160 1800 1800);
         (c, Compositor.mkRect 160 2040 1800 1800);
         (d, Compositor.mkRect 2040 2040 1800 1800) ] /\
     2040 + 1800 + Compositor.padding = Compositor.strip_width st)%Z.
Proof.
  intros Hloads. unfold Compositor.generateHighQualityStrip.
  rewrite Hloads. cbn [negb]. eexists. split; [reflexivity|].
  cbv. repeat split.
Qed.

Lemma grid4_canvas_geometry_witness :
  exists st,
    Compositor.generateHighQualityStrip true (fun _ => true)
      ["data:1"; "data:2"; "data:3"; "data:4"] "grid-4" true = Some st /\
    Compositor.strip_width st = 4000%Z /\ Compositor.strip_height st = 4000%Z.
Proof.
  destruct (grid4_canvas_geometry (fun _ => true) "data:1" "data:2" "data:3" "data:4"
              true eq_refl) as (st & Hst & Hgeo).
  exists st. split; [exact Hst|].
  destruct Hgeo as (_ & _ & _ & _ & _ & _ & Hsq & _ & Hw & _).
  split; [exact Hw|]. rewrite <- Hsq. exact Hw.
Defined.

(** C6.  The monochrome transform (each pixel's R, G and B replaced by
    their average (R+G+B)/3 as stored into the clamped 8-bit buffer, alpha
    untouched) is idempotent: on every buffer, a second pass changes
    nothing. *)
Theorem grayscale_idempotent (data : list Z) :
  Compositor.grayscale (Compositor.grayscale data) = Compositor.grayscale data.
Proof.
  enough (H : forall n d, (List.length d < n)%nat ->
     Compositor.grayscale (Compositor.grayscale d) = Compositor.grayscale d)
    by (apply (H (S (List.length data))); lia).
  clear data. induction n as [|n IH]; intros d Hn; [lia|].
  destruct d as [|r [|g [|b [|a rest]]]]; try reflexivity.
  - cbn [Compositor.grayscale].
    rewrite ToUint8Clamp_gray by apply ToUint8Clamp_range. reflexivity.
  - repeat (rewrite grayscale_group; cbv zeta).
    rewrite ToUint8Clamp_gray by apply ToUint8Clamp_range.
    cbn [List.length] in Hn. rewrite IH by lia. reflexivity.
Qed.

(* ------------------------------------------------------------------ *)
(** ** The capture component                                           *)
(* ------------------------------------------------------------------ *)

Section CaptureFacts.

Import Catalog Capture.

Local Open Scope nat_scope.

Lemma filter_index_delete {A} (l : list A) : forall base i,
  filter_index (fun _ j => negb (j =? base + i)) base l =
  (firstn i l ++ skipn (S i) l)%list.
Proof.
  induction l as [|x l IH]; intros base i.
  - destruct i; reflexivity.
  - cbn [filter_index]. destruct i as [|i].
    + rewrite Nat.add_0_r, Nat.eqb_refl. cbn [negb firstn skipn app].
      clear IH. revert base.
      assert (H : forall k base, base < k ->
                filter_index (fun (_ : A) j => negb (j =? base)) k l = l).
      { induction l as [|y l IHl]; intros k base Hk; [reflexivity|].
        cbn [filter_index].
        destruct (Nat.eqb_spec k base); [lia|]. cbn [negb].
        rewrite IHl by lia. reflexivity. }
      intros base. apply H. lia.
    + destruct (Nat.eqb_spec base (base + S i)); [lia|]. cbn [negb].
      replace (base + S i) with (S base + i) by lia.
      rewrite IH. reflexivity.
Qed.

Lemma deletePhoto_photos i s :
  photos (deletePhoto i s) = (firstn i (photos s) ++ skipn (S i) (photos s))%list.
Proof. exact (filter_index_delete (photos s) 0 i). Qed.

Lemma deletePhoto_length_le i s :
  List.length (photos (deletePhoto i s)) <= List.length (photos s).
Proof.
  rewrite deletePhoto_photos, length_app, length_firstn, length_skipn. lia.
Qed.

Lemma required_positive s :
  In (selectedLayout s) STRIP_LAYOUTS -> 3 <= requiredPhotos s.
Proof.
  intros H. unfold requiredPhotos.
  destruct (catalog_photoCount_bounds _ H) as [-> | ->]; lia.
Qed.

Lemma Inv_initial : Inv initial.
Proof.
  constructor; simpl; auto; try lia; try discriminate; congruence.
Qed.

Lemma Inv_stopCamera s : Inv s -> Inv (stopCamera s).
Proof.
  intros [Hl Hc Hb Hn Ht Hp Hd].
  pose proof (required_positive s Hl) as Hr.
  constructor; unfold requiredPhotos in *; simpl; auto; lia.
Qed.

Lemma Inv_step s e : Inv s -> Inv (step s e).
Proof.
  intros HI. pose proof HI as [Hl Hc Hb Hn Ht Hp Hd].
  pose proof (required_positive s Hl) as Hr.
  destruct e as [|ctx vw fr|i|t| | | |k| |]; cbn [step].
  - (* ClickTakePhoto *)
    destruct (isCamera (mode s)) eqn:Hm; cbn [andb]; [|exact HI].
    destruct (Nat.ltb_spec (List.length (photos s)) (requiredPhotos s)); [|exact HI].
    destruct (countdown s) eqn:Hcd; cbn [isNull negb orb]; [exact HI|].
    destruct (cameraReady s); cbn [negb]; [|exact HI].
    unfold startCountdown. rewrite Hcd.
    constructor; unfold requiredPhotos in *; simpl; auto.
    + rewrite Hm. discriminate.
    + simpl in Hd. intros [=E]. rewrite E in Hd. intuition discriminate.
  - (* IntervalFires *)
    destruct (intervals s) as [|n] eqn:Hi; [exact HI|].
    destruct (countdown s) as [c|] eqn:Hcd; [|simpl in Ht; discriminate].
    simpl in Ht. injection Ht as ->.
    unfold tick. rewrite Hcd.
    destruct c as [|[|c]]; [congruence| |].
    + assert (List.length (photos s) < requiredPhotos s)
        by (apply Hn; discriminate).
      unfold capturePhoto. cbn [mode setIntervals].
      destruct (isCamera (mode s)) eqn:Hm; cbn [negb];
        [destruct (ctx && (0 <? vw)%Z)%bool|];
        constructor; unfold requiredPhotos in *; simpl; auto;
        try discriminate; try congruence;
        try (rewrite Hi; reflexivity);
        rewrite length_app; simpl; lia.
    + constructor; unfold requiredPhotos in *; simpl; auto; try discriminate;
        try (intros _; apply Hn; discriminate); try (rewrite Hi; reflexivity).
  - (* ClickDelete *)
    destruct (isCamera (mode s) && (i <? requiredPhotos s) &&
              truthy (nth_error (photos s) i))%bool eqn:Hg; [|exact HI].
    apply andb_prop in Hg. destruct Hg as [Hg _].
    apply andb_prop in Hg. destruct Hg as [Hm _].
    pose proof (deletePhoto_length_le i s) as Hle.
    constructor; unfold requiredPhotos in *; auto;
      try (cbn [selectedLayout mode countdown intervals timerDuration
                deletePhoto emit setPhotos]; auto; fail).
    + cbn [mode deletePhoto emit setPhotos]. congruence.
    + cbn [selectedLayout deletePhoto emit setPhotos] in *. lia.
    + cbn [selectedLayout countdown deletePhoto emit setPhotos] in *.
      intros H. specialize (Hn H). lia.
  - (* ClickTimer *)
    destruct (isCamera (mode s) && existsb (Nat.eqb t) [3; 5; 10])%bool eqn:Hg;
      [|exact HI].
    apply andb_prop in Hg. destruct Hg as [_ Hg].
    constructor; unfold requiredPhotos in *; simpl; auto.
    simpl in Hg.
    destruct (Nat.eqb_spec t 3); [auto|].
    destruct (Nat.eqb_spec t 5); [auto|].
    destruct (Nat.eqb_spec t 10); [auto|discriminate].
  - (* ClickBack *)
    destruct (isCamera (mode s)); [apply Inv_stopCamera|]; exact HI.
  - (* CameraGranted *)
    constructor; unfold requiredPhotos in *; simpl; auto. discriminate.
  - (* LoadedMetadata *)
    constructor; unfold requiredPhotos in *; simpl; auto.
  - (* SelectLayout *)
    destruct (nth_error STRIP_LAYOUTS k) as [l|] eqn:Hk; [|exact HI].
    destruct (isChoose (mode s)) eqn:Hm; [|exact HI].
    assert (Hcam : isCamera (mode s) = false) by (destruct (mode s); auto; discriminate).
    apply nth_error_In in Hk.
    assert (3 <= photoCount l)
      by (destruct (catalog_photoCount_bounds _ Hk) as [-> | ->]; lia).
    pose proof (Hc Hcam) as Hnil.
    constructor; unfold requiredPhotos in *; simpl; auto;
      rewrite Hnil; simpl; intros; lia.
  - (* ClickDone *)
    destruct (isCamera (mode s) && negb (List.length (photos s) <? requiredPhotos s))%bool;
      [|exact HI].
    unfold handleDone.
    destruct (List.length (photos s) =? requiredPhotos s); [|exact HI].
    pose proof (Inv_stopCamera s HI) as [Hl' Hc' Hb' Hn' Ht' Hp' Hd'].
    constructor; unfold requiredPhotos in *; auto.
  - (* TrackEnded *)
    destruct (isCamera (mode s)); [|exact HI].
    pose proof (Inv_stopCamera s HI) as [Hl' Hc' Hb' Hn' Ht' Hp' Hd'].
    constructor; unfold requiredPhotos in *; auto.
Qed.

Lemma run_snoc s es e : run s (es ++ [e]) = step (run s es) e.
Proof. unfold run. rewrite fold_left_app. reflexivity. Qed.

Lemma reachable_Inv s : reachable s -> Inv s.
Proof.
  intros [es ->]. induction es as [|e es IH] using rev_ind.
  - exact Inv_initial.
  - rewrite run_snoc. apply Inv_step. exact IH.
Qed.

End CaptureFacts.

Section CountdownFacts.

Import Catalog Capture.

Local Open Scope nat_scope.

Lemma no_timer_no_change s es :
  intervals s = 0 -> forallb isIntervalFires es = true -> run s es = s.
Proof.
  intros Hi. induction es as [|e es IH]; intros Hes; [reflexivity|].
  cbn [forallb] in Hes. apply andb_prop in Hes. destruct Hes as [He Hes].
  destruct e; try discriminate.
  unfold run. cbn [fold_left step]. rewrite Hi. apply IH. exact Hes.
Qed.

Lemma firing_captures_at_most_once s es :
  Inv s -> forallb isIntervalFires es = true ->
  List.length (photos (run s es)) <= List.length (photos s) + 1.
Proof.
  revert s. induction es as [|e es IH]; intros s HI Hes; [simpl; lia|].
  cbn [forallb] in Hes. apply andb_prop in Hes. destruct Hes as [He Hes].
  destruct e as [|ctx vw fr| | | | | | | |]; try discriminate.
  change (run s (IntervalFires ctx vw fr :: es))
    with (run (step s (IntervalFires ctx vw fr)) es).
  pose proof (Inv_step s (IntervalFires ctx vw fr) HI) as HI'.
  cbn [step] in *.
  destruct (intervals s) as [|k] eqn:Hi; [apply IH; assumption|].
  unfold tick in *.
  destruct (countdown s) as [[|[|c]]|] eqn:Hcd.
  - exact (IH _ HI' Hes).
  - rewrite no_timer_no_change; [| |exact Hes].
    + unfold capturePhoto. cbn [mode setIntervals].
      destruct (negb (isCamera (mode s))); [simpl; lia|].
      destruct (ctx && (0 <? vw)%Z)%bool; simpl; [|lia].
      rewrite length_app. simpl. lia.
    + destruct HI' as [_ _ _ _ Ht _ _]. exact Ht.
  - exact (IH _ HI' Hes).
  - exact (IH _ HI' Hes).
Qed.

Lemma countdown_fires vw fr : (0 < vw)%Z -> forall n s,
  isCamera (mode s) = true -> countdown s = Some (S n) -> 0 < intervals s ->
  let s' := run s (repeat (IntervalFires true vw fr) (S n)) in
  photos s' = (photos s ++ [fr])%list /\ countdown s' = None.
Proof.
  intros Hvw. induction n as [|n IH]; intros s Hm Hcd Hi.
  - cbn [repeat run fold_left step].
    destruct (intervals s) as [|k]; [lia|].
    unfold tick, capturePhoto. rewrite Hcd. cbn [mode setIntervals]. rewrite Hm.
    cbn [negb andb]. destruct (Z.ltb_spec 0 vw); [|lia]. split; reflexivity.
  - change (repeat (IntervalFires true vw fr) (S (S n)))
      with (IntervalFires true vw fr :: repeat (IntervalFires true vw fr) (S n)).
    change (run s (IntervalFires true vw fr :: repeat (IntervalFires true vw fr) (S n)))
      with (run (step s (IntervalFires true vw fr))
                (repeat (IntervalFires true vw fr) (S n))).
    assert (Hs : step s (IntervalFires true vw fr) = setCountdown (Some (S n)) s).
    { cbn [step]. destruct (intervals s); [lia|]. unfold tick. rewrite Hcd. reflexivity. }
    rewrite Hs. apply (IH (setCountdown (Some (S n)) s)); auto.
Qed.

(** The completeness guard is the view's, not the handlers': applied to a
    complete FrameSet directly, [startCountdown] starts a countdown and
    [capturePhoto] appends.  No reachable state lets the view call them
    so ([reachable_Inv]). *)
Remark handlers_leave_completeness_to_the_view :
  let full := setPhotos ["data:a"; "data:b"; "data:c"] (setMode camera initial) in
  List.length (photos full) = requiredPhotos full /\
  countdown (startCountdown full) = Some 3 /\
  List.length (photos (capturePhoto true 640 "data:d" full)) = 4 /\
  step full ClickTakePhoto = full.
Proof. repeat split. Qed.

End CountdownFacts.

(** C5.  In every state the component can reach: (1) while a countdown is
    active, startCountdown and a click on "Take Photo" change nothing;
    (2) however often the interval timer fires before the next click, at
    most one photo is added, and a firing that adds one is the one that ends
    the countdown and its timer; (3) when the FrameSet is complete
    (photos.length = layout.photoCount), a click on "Take Photo" changes
    nothing and a firing of the timer leaves the photos unchanged; the
    FrameSet never holds more than photoCount photos. *)
Theorem countdown_capture_guards (s : Capture.State) :
  reachable s ->
  (Capture.countdown s <> None ->
     Capture.startCountdown s = s /\ Capture.step s Capture.ClickTakePhoto = s) /\
  (forall es, forallb isIntervalFires es = true ->
     List.length (Capture.photos (Capture.run s es))
       <= List.length (Capture.photos s) + 1)%nat /\
  (forall ctx vw fr,
     let s' := Capture.step s (Capture.IntervalFires ctx vw fr) in
     Capture.photos s' <> Capture.photos s ->
     Capture.countdown s = Some 1%nat /\
     Capture.photos s' = (Capture.photos s ++ [fr])%list /\
     Capture.countdown s' = None /\ Capture.intervals s' = 0%nat) /\
  (List.length (Capture.photos s) = Capture.requiredPhotos s ->
     Capture.step s Capture.ClickTakePhoto = s /\
     forall ctx vw fr,
       Capture.photos (Capture.step s (Capture.IntervalFires ctx vw fr))
       = Capture.photos s) /\
  (List.length (Capture.photos s) <= Capture.requiredPhotos s)%nat.
Proof.
  intros Hr. pose proof (reachable_Inv s Hr) as HI.
  pose proof HI as [Hl Hc Hb Hn Ht Hp Hd].
  split; [|split; [|split; [|split]]].
  - intros Hcd. unfold Capture.startCountdown. cbn [Capture.step].
    destruct (Capture.countdown s); [|congruence].
    split; [reflexivity|].
    cbn [Capture.isNull negb orb].
    destruct (_ && _)%bool; reflexivity.
  - intros es Hes. apply firing_captures_at_most_once; assumption.
  - intros ctx vw fr s' Hne. subst s'. cbn [Capture.step] in *.
    destruct (Capture.intervals s) as [|k] eqn:Hi; [congruence|].
    unfold Capture.tick in *.
    destruct (Capture.countdown s) as [[|[|c]]|] eqn:Hcd;
      try (exfalso; apply Hne; reflexivity).
    cbn [Capture.isNull] in Ht. injection Ht as ->.
    unfold Capture.capturePhoto in *. cbn [Capture.mode Capture.setIntervals] in *.
    destruct (negb (Capture.isCamera (Capture.mode s)));
      [exfalso; apply Hne; reflexivity|].
    destruct (ctx && (0 <? vw)%Z)%bool; [|exfalso; apply Hne; reflexivity].
    repeat split. cbn [Capture.intervals Capture.setCountdown Capture.setPhotos
                       Capture.emit Capture.setIntervals].
    rewrite Hi. reflexivity.
  - intros Hfull.
    assert (Hcd : Capture.countdown s = None).
    { destruct (Capture.countdown s) eqn:E; [|reflexivity].
      assert (List.length (Capture.photos s) < Capture.requiredPhotos s)%nat
        by (apply Hn; discriminate).
      lia. }
    split.
    + cbn [Capture.step].
      destruct (Nat.ltb_spec (List.length (Capture.photos s)) (Capture.requiredPhotos s));
        [lia|].
      rewrite andb_false_r. reflexivity.
    + intros ctx vw fr. cbn [Capture.step]. rewrite Ht, Hcd. reflexivity.
  - exact Hb.
Qed.

Lemma countdown_capture_guards_witness :
  let s := Capture.run Capture.initial three_captures in
  reachable s /\
  Capture.photos s = ["data:a"; "data:b"; "data:c"] /\
  Capture.step s Capture.ClickTakePhoto = s /\
  Capture.photos (Capture.step s (Capture.IntervalFires true 640 "data:d"))
    = Capture.photos s.
Proof.
  assert (Hr : reachable (Capture.run Capture.initial three_captures))
    by (exists three_captures; reflexivity).
  split; [exact Hr|]. split; [reflexivity|].
  destruct (countdown_capture_guards _ Hr) as (_ & _ & _ & Hfull & _).
  destruct (Hfull eq_refl) as [Hclick Hfire].
  split; [exact Hclick | apply Hfire].
Defined.

(** C9.  For every in-range index i, deletePhoto(i) removes exactly the
    element at index i: the photos before i keep their index, the photos
    after i move down by one in the same order, and the length decreases by
    one.  So after deleting one frame from a complete set the set is
    incomplete and capture is possible again: with the camera ready and no
    countdown running, a click on "Take Photo" followed by the countdown's
    firings appends a new photo. *)
Theorem deletePhoto_removes_index (s : Capture.State) (i : nat) :
  (i < List.length (Capture.photos s))%nat ->
  let s' := Capture.deletePhoto i s in
  Capture.photos s' =
    (firstn i (Capture.photos s) ++ skipn (S i) (Capture.photos s))%list /\
  List.length (Capture.photos s') = (List.length (Capture.photos s) - 1)%nat /\
  (forall j, (j < i)%nat ->
     nth_error (Capture.photos s') j = nth_error (Capture.photos s) j) /\
  (forall j, (i <= j)%nat ->
     nth_error (Capture.photos s') j = nth_error (Capture.photos s) (S j)) /\
  (List.length (Capture.photos s) = Capture.requiredPhotos s ->
     (List.length (Capture.photos s') < Capture.requiredPhotos s')%nat /\
     (Capture.isCamera (Capture.mode s) = true ->
      Capture.countdown s = None -> Capture.cameraReady s = true ->
      (0 < Capture.timerDuration s)%nat ->
      forall vw fr, (0 < vw)%Z ->
        Capture.photos
          (Capture.run s'
             (Capture.ClickTakePhoto ::
              repeat (Capture.IntervalFires true vw fr) (Capture.timerDuration s)))
        = (Capture.photos s' ++ [fr])%list)).
Proof.
  intros Hi s'. subst s'.
  pose proof (deletePhoto_photos i s) as Hp.
  assert (Hlen : List.length (Capture.photos (Capture.deletePhoto i s))
                 = (List.length (Capture.photos s) - 1)%nat).
  { rewrite Hp, length_app, length_firstn, length_skipn. lia. }
  split; [exact Hp|]. split; [exact Hlen|]. split; [|split].
  - intros j Hj. rewrite Hp, nth_error_app1 by (rewrite length_firstn; lia).
    rewrite nth_error_firstn. apply Nat.ltb_lt in Hj. rewrite Hj. reflexivity.
  - intros j Hj. rewrite Hp, nth_error_app2 by (rewrite length_firstn; lia).
    rewrite length_firstn, nth_error_skipn.
    f_equal. lia.
  - intros Hfull.
    assert (Hlt : (List.length (Capture.photos (Capture.deletePhoto i s))
                   < Capture.requiredPhotos (Capture.deletePhoto i s))%nat).
    { rewrite Hlen. unfold Capture.requiredPhotos in *.
      cbn [Capture.selectedLayout Capture.deletePhoto Capture.emit Capture.setPhotos].
      lia. }
    split; [exact Hlt|].
    intros Hm Hcd Hready Ht vw fr Hvw.
    destruct (Capture.timerDuration s) as [|n] eqn:Hd; [lia|].
    change (Capture.run (Capture.deletePhoto i s)
              (Capture.ClickTakePhoto :: repeat (Capture.IntervalFires true vw fr) (S n)))
      with (Capture.run (Capture.step (Capture.deletePhoto i s) Capture.ClickTakePhoto)
              (repeat (Capture.IntervalFires true vw fr) (S n))).
    assert (Hs : Capture.step (Capture.deletePhoto i s) Capture.ClickTakePhoto
                 = Capture.startCountdown (Capture.deletePhoto i s)).
    { cbn [Capture.step].
      apply Nat.ltb_lt in Hlt. rewrite Hlt.
      cbn [Capture.mode Capture.countdown Capture.cameraReady Capture.deletePhoto
           Capture.emit Capture.setPhotos].
      rewrite Hm, Hcd, Hready. reflexivity. }
    rewrite Hs. unfold Capture.startCountdown.
    cbn [Capture.countdown Capture.deletePhoto Capture.emit Capture.setPhotos].
    rewrite Hcd.
    cbn [Capture.timerDuration Capture.deletePhoto Capture.emit Capture.setPhotos].
    rewrite Hd.
    match goal with |- Capture.photos (Capture.run ?st _) = _ =>
      destruct (countdown_fires vw fr Hvw n st) as [Hph _];
        [exact Hm | reflexivity | simpl; lia | rewrite Hph; reflexivity]
    end.
Qed.

Lemma deletePhoto_removes_index_witness :
  let s := Capture.run Capture.initial three_captures in
  Capture.photos (Capture.deletePhoto 1 s) = ["data:a"; "data:c"] /\
  Capture.photos
    (Capture.run (Capture.deletePhoto 1 s)
       (Capture.ClickTakePhoto :: repeat (Capture.IntervalFires true 640 "data:d") 3))
  = ["data:a"; "data:c"; "data:d"].
Proof.
  assert (Hi : (1 < List.length
                  (Capture.photos (Capture.run Capture.initial three_captures)))%nat)
    by (vm_compute; lia).
  destruct (deletePhoto_removes_index _ 1%nat Hi) as (Hp & _ & _ & _ & Hfull).
  split; [exact Hp|].
  destruct (Hfull eq_refl) as [_ Hagain].
  apply (Hagain eq_refl eq_refl eq_refl); [vm_compute; lia | reflexivity].
Defined.

(* ------------------------------------------------------------------ *)
(** ** The upload path                                                 *)
(* ------------------------------------------------------------------ *)

Section UploadFacts.

Import Catalog Capture.

Local Open Scope nat_scope.

Lemma processFile_nonEmpty f : nonEmpty (processFile f) = decodes f.
Proof.
  unfold nonEmpty, processFile, decodes.
  destruct (readResult f) as [d|]; [|reflexivity].
  destruct (String.eqb d EmptyString) eqn:Hd; [reflexivity|].
  destruct (imageLoads f); [|reflexivity].
  destruct (canvas f); cbn [negb andb]; rewrite ?Hd; reflexivity.
Qed.

Lemma filter_length_le {A} (p : A -> bool) l :
  List.length (filter p l) <= List.length l.
Proof.
  induction l as [|x l IH]; simpl; [lia|]. destruct (p x); simpl; lia.
Qed.

Lemma filter_all {A} (p : A -> bool) l :
  forallb p l = true -> filter p l = l.
Proof.
  induction l as [|x l IH]; simpl; [reflexivity|].
  destruct (p x); simpl; [|discriminate]. intros H. rewrite IH; auto.
Qed.

Lemma filter_length_all {A} (p : A -> bool) l :
  List.length (filter p l) = List.length l -> forallb p l = true.
Proof.
  induction l as [|x l IH]; simpl; [reflexivity|].
  pose proof (filter_length_le p l).
  destruct (p x); simpl; intros H'; [apply IH|]; lia.
Qed.

Lemma filter_processed files :
  filter nonEmpty (map processFile files) = map processFile (filter decodes files).
Proof.
  induction files as [|f files IH]; simpl; [reflexivity|].
  rewrite processFile_nonEmpty. destruct (decodes f); simpl; rewrite IH; reflexivity.
Qed.

Lemma in_resetInput_app b (l : list Effect) e :
  e <> ResetInput -> In e (resetInput b ++ l)%list -> In e l.
Proof.
  destruct b; simpl; [|auto]. intros Hne [H|H]; [congruence|exact H].
Qed.

End UploadFacts.

(** C3.  For every non-empty batch, the photos are forwarded to
    onPhotosReady if and only if the batch has layout.photoCount files,
    every file passes the image check (MIME type starting with "image/" or
    a recognized extension) and every file decodes; then all of them are
    forwarded, in order, with the layout id.  In every other case nothing is
    forwarded and an error toast is shown; when only decoding failed the
    toast gives the number of images that did decode. *)
Theorem upload_all_or_nothing (s : Capture.State) (refNow refLater : bool)
    (files : list Capture.File) :
  files <> [] ->
  let out := Capture.handleFileUpload s refNow refLater files in
  let sizeOk := (List.length files =? Capture.requiredPhotos s)%nat in
  let imagesOk := forallb Capture.isImageFile files in
  let decodeOk := forallb decodes files in
  ((exists ps l, In (Capture.PhotosReady ps l) out) <->
     (sizeOk && imagesOk && decodeOk)%bool = true) /\
  ((sizeOk && imagesOk && decodeOk)%bool = true ->
     out = (Capture.Notify (Capture.toast_info "Processing images...") ::
            Capture.resetInput refLater ++
            [Capture.PhotosReady (map Capture.processFile files)
               (Catalog.id (Capture.selectedLayout s));
             Capture.Notify (Capture.toast_success "Photos uploaded successfully!")])%list) /\
  ((sizeOk && imagesOk && decodeOk)%bool = false ->
     exists msg, In (Capture.Notify (Capture.toast_error msg)) out) /\
  ((sizeOk && imagesOk)%bool = true -> decodeOk = false ->
     In (Capture.Notify (Capture.toast_error
           ("Only " ++ Js.show (List.length (filter decodes files)) ++ " of " ++
            Js.show (Capture.requiredPhotos s) ++
            " photos loaded. Please try again."))) out).
Proof.
  intros Hne out sizeOk imagesOk decodeOk.
  assert (Hlen0 : (List.length files =? 0)%nat = false)
    by (destruct files; [congruence|reflexivity]).
  assert (Hout : out =
    if sizeOk then
      if imagesOk then
        (Capture.Notify (Capture.toast_info "Processing images...") ::
         Capture.resetInput refLater ++
         (if decodeOk then
            [Capture.PhotosReady (map Capture.processFile files)
               (Catalog.id (Capture.selectedLayout s));
             Capture.Notify (Capture.toast_success "Photos uploaded successfully!")]
          else
            [Capture.Notify (Capture.toast_error
               ("Only " ++ Js.show (List.length (filter decodes files)) ++ " of " ++
                Js.show (Capture.requiredPhotos s) ++
                " photos loaded. Please try again."))]))%list
      else Capture.Notify (Capture.toast_error "Please select only image files")
             :: Capture.resetInput refNow
    else Capture.Notify (Capture.toast_error
           ("Please select exactly " ++ Js.show (Capture.requiredPhotos s) ++ " photos"))
           :: Capture.resetInput refNow).
  { subst out sizeOk imagesOk decodeOk. unfold Capture.handleFileUpload.
    rewrite Hlen0.
    destruct (Nat.eqb_spec (List.length files) (Capture.requiredPhotos s)) as [Hsz|Hsz];
      cbn [negb]; [|reflexivity].
    destruct (forallb Capture.isImageFile files) eqn:Himg.
    - rewrite (filter_all _ _ Himg), Nat.eqb_refl. cbn [negb].
      change (fun p : string => negb (String.eqb p EmptyString)) with nonEmpty.
      rewrite filter_processed, length_map.
      destruct (forallb decodes files) eqn:Hdec.
      + rewrite (filter_all _ _ Hdec), Hsz, Nat.eqb_refl. reflexivity.
      + destruct (Nat.eqb_spec (List.length (filter decodes files))
                    (Capture.requiredPhotos s)) as [E|E]; [|reflexivity].
        rewrite <- Hsz in E. apply filter_length_all in E. congruence.
    - destruct (Nat.eqb_spec (List.length (filter Capture.isImageFile files))
                  (List.length files)) as [E|E]; [|reflexivity].
      apply filter_length_all in E. congruence. }
  clearbody out. subst out.
  destruct sizeOk, imagesOk, decodeOk; cbn [andb];
    (split; [split|split; [|split]]);
    try discriminate; try reflexivity; try (intros; reflexivity);
    try (intros _; eexists; left; reflexivity);
    try (intros _; eexists; right; apply in_or_app; right; left; reflexivity);
    try (intros _ _; right; apply in_or_app; right; left; reflexivity).
  - intros _. exists (map Capture.processFile files), (Catalog.id (Capture.selectedLayout s)).
    right. apply in_or_app. right. left. reflexivity.
  - intros (ps & l & [H|H]); [discriminate|].
    apply in_resetInput_app in H; [|discriminate].
    destruct H as [H|[]]. discriminate.
  - intros (ps & l & [H|H]); [discriminate|].
    destruct refNow; simpl in H; intuition discriminate.
  - intros (ps & l & [H|H]); [discriminate|].
    destruct refNow; simpl in H; intuition discriminate.
  - intros (ps & l & [H|H]); [discriminate|].
    destruct refNow; simpl in H; intuition discriminate.
  - intros (ps & l & [H|H]); [discriminate|].
    destruct refNow; simpl in H; intuition discriminate.
  - intros (ps & l & [H|H]); [discriminate|].
    destruct refNow; simpl in H; intuition discriminate.
  - intros (ps & l & [H|H]); [discriminate|].
    destruct refNow; simpl in H; intuition discriminate.
Qed.

Lemma upload_all_or_nothing_witness :
  In (Capture.Notify
        (Capture.toast_error "Only 2 of 3 photos loaded. Please try again."))
     (Capture.handleFileUpload Capture.initial true true
        [sample_png; sample_heic; sample_broken]) /\
  Capture.handleFileUpload Capture.initial true true
    [sample_png; sample_heic; sample_png] =
  [ Capture.Notify (Capture.toast_info "Processing images...");
    Capture.ResetInput;
    Capture.PhotosReady
      ["data:image/png;base64,Qg=="; "data:application/octet-stream;base64,Qw==";
       "data:image/png;base64,Qg=="] "strip-3";
    Capture.Notify (Capture.toast_success "Photos uploaded successfully!") ].
Proof.
  split.
  - assert (Hne : [sample_png; sample_heic; sample_broken] <> []) by discriminate.
    destruct (upload_all_or_nothing Capture.initial true true _ Hne)
      as (_ & _ & _ & Hcount).
    exact (Hcount eq_refl eq_refl).
  - assert (Hne : [sample_png; sample_heic; sample_png] <> []) by discriminate.
    destruct (upload_all_or_nothing Capture.initial true true _ Hne)
      as (_ & Hok & _).
    exact (Hok eq_refl).
Defined.

(** C10.  An empty file list (the picker was cancelled) is a silent no-op:
    no toast, no input reset, nothing forwarded; the handler does not touch
    the component's state at all.  Every other batch of the wrong size gets
    the error toast and, with the input mounted, the input reset. *)
Theorem upload_empty_is_silent (s : Capture.State) (refNow refLater : bool) :
  Capture.handleFileUpload s refNow refLater [] = [] /\
  (forall files, files <> [] ->
     List.length files <> Capture.requiredPhotos s ->
     Capture.handleFileUpload s refNow refLater files =
       Capture.Notify (Capture.toast_error
         ("Please select exactly " ++ Js.show (Capture.requiredPhotos s) ++ " photos"))
       :: (if refNow then [Capture.ResetInput] else [])).
Proof.
  split; [reflexivity|].
  intros files Hne Hsz. unfold Capture.handleFileUpload.
  assert (H0 : (List.length files =? 0)%nat = false)
    by (destruct files; [congruence|reflexivity]).
  rewrite H0.
  destruct (Nat.eqb_spec (List.length files) (Capture.requiredPhotos s));
    [congruence|].
  reflexivity.
Qed.

Lemma upload_empty_is_silent_witness :
  Capture.handleFileUpload Capture.initial true true [] = [] /\
  Capture.handleFileUpload Capture.initial true true [sample_png; sample_heic] =
    [ Capture.Notify (Capture.toast_error "Please select exactly 3 photos");
      Capture.ResetInput ].
Proof.
  destruct (upload_empty_is_silent Capture.initial true true) as [Hempty Hwrong].
  split; [exact Hempty|].
  apply Hwrong; [discriminate | vm_compute; lia].
Defined.

(* ------------------------------------------------------------------ *)
(** ** The download hook and handler                                   *)
(* ------------------------------------------------------------------ *)

Section DownloadFacts.

Import Eff Download.

Lemma downloadImage_in_flight h dataUrl filename st :
  isDownloadingRef st = true ->
  downloadImage h dataUrl filename st = (st, inr false).
Proof.
  intros H. unfold downloadImage, bind, get. rewrite H. reflexivity.
Qed.

Lemma downloadImage_returns h dataUrl filename st :
  isDownloadingRef st = false ->
  exists st', downloadImage h dataUrl filename st
              = (st', inr (downloadSucceeds h dataUrl)) /\
              isDownloadingRef st' = false.
Proof.
  intros H.
  unfold downloadImage, downloadSucceeds, blob_type_of, dataUrlToBlob,
    cleanupObjectUrl, dom_call,
    try_finally, try_catch, bind, get, modify, call, ret, throw.
  destruct st as [flag ref events]. cbn [isDownloadingRef] in H. subst flag.
  destruct ref;
    cbn [isDownloadingRef objectUrlRef setIsDownloadingRef setObjectUrlRef record];
    (destruct (atob h _) as [bytes|];
     [destruct (createObjectURL h _) as [url|];
      [destruct (domThrows h createElement);
       [|destruct (isMedianWebView h);
         [destruct (domThrows h appendChild)|];
         (destruct (domThrows h click); [|destruct (domThrows h setTimeout)])]
      |]
     |]);
    cbn; eexists; split; reflexivity.
Qed.

End DownloadFacts.

(** C7.  A call of downloadImage made while the in-flight flag is set
    returns false at once: the state is untouched, no object URL is made and
    no link is clicked.  downloadImage never throws: whatever fails inside
    (decoding the data URL, creating the object URL, a DOM call), it returns
    a boolean, true exactly when every step went through, and it clears the
    flag.  handleDownload is guarded in the same way by isDownloading: an
    overlapping call returns without any effect, and no call ever throws. *)
Theorem download_guard_and_boundary (p : Preview.Page) (h : Download.Host)
    (dataUrl filename : string) (st : Download.State) (s : Preview.State) :
  (Download.isDownloadingRef st = true ->
     Download.downloadImage h dataUrl filename st = (st, inr false)) /\
  (exists st' b,
     Download.downloadImage h dataUrl filename st = (st', inr b) /\
     (Download.isDownloadingRef st = false ->
        b = downloadSucceeds h dataUrl /\ Download.isDownloadingRef st' = false)) /\
  (Preview.isDownloading s = true ->
     Preview.handleDownload p s = (s, inr tt)) /\
  (exists s', Preview.handleDownload p s = (s', inr tt) /\
     (Preview.isDownloading s = false -> Preview.isDownloading s' = false)).
Proof.
  split; [apply downloadImage_in_flight|]. split; [|split].
  - destruct (Download.isDownloadingRef st) eqn:Hg.
    + exists st, false. split; [apply downloadImage_in_flight; exact Hg|discriminate].
    + destruct (downloadImage_returns h dataUrl filename st Hg) as (st' & Hrun & Hflag).
      exists st', (downloadSucceeds h dataUrl). split; [exact Hrun|]. auto.
  - intros Hg. unfold Preview.handleDownload, Eff.bind, Eff.get. rewrite Hg. reflexivity.
  - unfold Preview.handleDownload, Eff.bind, Eff.get.
    destruct (Preview.isDownloading s) eqn:Hg.
    + exists s. split; [reflexivity|discriminate].
    + unfold Preview.setIsDownloading, Preview.emit, Preview.liftHook,
        Eff.try_finally, Eff.try_catch, Eff.bind, Eff.modify, Eff.call,
        Eff.ret, Eff.throw.
      destruct (Preview.stripDataUrl p) as [url|];
        [|eexists; split; [reflexivity|reflexivity]].
      cbn [Preview.hook].
      destruct (Download.downloadImage (Preview.downloadHost p) url _ (Preview.hook s))
        as [st' [e|[|]]] eqn:Hrun; eexists; split; reflexivity.
Qed.

Lemma download_guard_and_boundary_witness :
  let h := Preview.downloadHost sample_page in
  let busy := Download.mkState true None [] in
  Download.downloadImage h "data:image/png;base64,QQ==" "love-booth-1.png" busy
    = (busy, inr false) /\
  Download.downloadImage h "data:image/png;base64,QQ==" "love-booth-1.png"
    Download.initial
    = (Download.mkState false (Some "blob:1")
         [Download.LinkClicked "blob:1" "love-booth-1.png" false;
          Download.TimerSet 1000], inr true) /\
  Download.downloadImage
    (Download.mkHost "Mozilla/5.0 median" (fun _ => None) (fun _ => Some "blob:1")
                     (fun _ => false))
    "data:image/png;base64,%%%" "love-booth-1.png" Download.initial
    = (Download.mkState false None [Download.ConsoleError], inr false).
Proof.
  intros h busy.
  destruct (download_guard_and_boundary sample_page h "data:image/png;base64,QQ=="
              "love-booth-1.png" busy Preview.initial) as (Hbusy & _).
  split; [exact (Hbusy eq_refl)|]. split; reflexivity.
Defined.

(* ------------------------------------------------------------------ *)
(** ** The Bluetooth print path                                        *)
(* ------------------------------------------------------------------ *)

Section PrintFacts.

Import Eff Preview.

Local Open Scope nat_scope.

Lemma append_nil s : append s [] = s.
Proof. destruct s. unfold append. simpl. rewrite app_nil_r. reflexivity. Qed.

Lemma append_append s a b : append (append s a) b = append s (a ++ b).
Proof. unfold append. simpl. rewrite app_assoc. reflexivity. Qed.

Lemma emit_spec e s : emit e s = (append s [e], inr tt).
Proof. reflexivity. Qed.

Lemma lt_chunkCount k n : k < chunkCount n <-> k * chunkSize < n.
Proof.
  unfold chunkCount, chunkSize. split; intros H.
  - apply Nat.nle_gt. intros Hc. apply (Nat.lt_irrefl k).
    eapply Nat.lt_le_trans; [exact H|].
    apply Nat.lt_succ_r. apply Nat.Div0.div_lt_upper_bound. lia.
  - apply Nat.div_le_lower_bound; lia.
Qed.

Lemma chunk_index k : (k * chunkSize) / chunkSize = k.
Proof. apply Nat.div_mul. discriminate. Qed.

Lemma find_seq_ge (f : nat -> bool) k m j :
  find f (seq k m) = Some j -> k <= j.
Proof.
  intros H. apply find_some in H. destruct H as [H _].
  apply in_seq in H. lia.
Qed.

Lemma find_seq_first (f : nat -> bool) : forall m k j,
  find f (seq k m) = Some j -> forall i, k <= i < j -> f i = false.
Proof.
  induction m as [|m IH]; intros k j H i Hi; [discriminate|].
  cbn [seq find] in H. destruct (f k) eqn:Hk.
  - injection H as <-. lia.
  - destruct (Nat.eq_dec i k) as [->|Hne]; [exact Hk|].
    apply (IH (S k) j H). lia.
Qed.

Lemma runFrom_done c bytes k :
  List.length bytes <= k * chunkSize ->
  runFrom c bytes k = [] /\ outcomeFrom c bytes k = inr tt.
Proof.
  intros H. unfold runFrom, outcomeFrom.
  assert (E : chunkCount (List.length bytes) - k = 0).
  { destruct (Nat.le_gt_cases (chunkCount (List.length bytes)) k) as [Hle|Hgt]; [lia|].
    apply lt_chunkCount in Hgt. lia. }
  rewrite E. split; reflexivity.
Qed.

Lemma runFrom_step c bytes k :
  k * chunkSize < List.length bytes ->
  (writeValue c k (chunk bytes k) = true ->
     runFrom c bytes k = okWrite c bytes k :: runFrom c bytes (S k) /\
     outcomeFrom c bytes k = outcomeFrom c bytes (S k)) /\
  (writeValue c k (chunk bytes k) = false ->
     runFrom c bytes k = [Write (char_uuid c) k (chunk bytes k) false] /\
     outcomeFrom c bytes k = inl (JsError "NetworkError")).
Proof.
  intros H. apply lt_chunkCount in H. unfold runFrom, outcomeFrom.
  replace (chunkCount (List.length bytes) - k)
    with (S (chunkCount (List.length bytes) - S k)) by lia.
  cbn [seq find].
  split; intros Hw;
    [assert (Hr : rejects c bytes k = false) by (unfold rejects; rewrite Hw; reflexivity)
    |assert (Hr : rejects c bytes k = true) by (unfold rejects; rewrite Hw; reflexivity)];
    rewrite Hr.
  - destruct (find (rejects c bytes) (seq (S k) _)) as [j|] eqn:Hf.
    + apply find_seq_ge in Hf.
      replace (j - k) with (S (j - S k)) by lia.
      split; reflexivity.
    + split; reflexivity.
  - rewrite Nat.sub_diag. split; reflexivity.
Qed.

(** The chunk loop, for any fuel that covers the rest of the buffer. *)
Lemma chunkLoop_spec c bytes : forall fuel k s,
  List.length bytes - k * chunkSize <= fuel ->
  chunkLoop fuel c bytes (k * chunkSize) s
  = (append s (runFrom c bytes k), outcomeFrom c bytes k).
Proof.
  induction fuel as [|fuel IH]; intros k s Hfuel.
  - destruct (runFrom_done c bytes k) as [-> ->]; [lia|].
    rewrite append_nil. reflexivity.
  - cbn [chunkLoop].
    destruct (Nat.ltb_spec (k * chunkSize) (List.length bytes)) as [Hlt|Hge].
    + destruct (runFrom_step c bytes k Hlt) as [Hok Hno].
      unfold await_writeValue, bind. rewrite chunk_index.
      fold (chunk bytes k).
      destruct (writeValue c k (chunk bytes k)) eqn:Hw.
      * destruct (Hok eq_refl) as [-> ->]. rewrite emit_spec.
        replace (k * chunkSize + chunkSize) with (S k * chunkSize) by (unfold chunkSize; lia).
        rewrite IH by (unfold chunkSize in *; lia).
        rewrite append_append. reflexivity.
      * destruct (Hno eq_refl) as [-> ->]. rewrite emit_spec. reflexivity.
    + destruct (runFrom_done c bytes k Hge) as [-> ->].
      rewrite append_nil. reflexivity.
Qed.

Lemma writeChunks_spec c bytes s :
  writeChunks c bytes s = (append s (runFrom c bytes 0), outcomeFrom c bytes 0).
Proof.
  unfold writeChunks. apply (chunkLoop_spec c bytes (List.length bytes) 0 s). lia.
Qed.

End PrintFacts.

Section ChunkFacts.

Import Preview.

Local Open Scope nat_scope.

Lemma chunkCount_ceil n :
  0 < n -> (chunkCount n - 1) * chunkSize < n <= chunkCount n * chunkSize.
Proof.
  intros Hn. split.
  - apply lt_chunkCount.
    assert (0 < chunkCount n) by (apply lt_chunkCount; simpl; lia). lia.
  - destruct (Nat.le_gt_cases n (chunkCount n * chunkSize)) as [H|H]; [exact H|].
    apply lt_chunkCount in H. lia.
Qed.

Lemma chunk_length bytes k :
  List.length (chunk bytes k)
  = Nat.min chunkSize (List.length bytes - k * chunkSize).
Proof.
  unfold chunk, slice. rewrite length_firstn, length_skipn.
  replace (k * chunkSize + chunkSize - k * chunkSize) with chunkSize by lia.
  reflexivity.
Qed.

Lemma chunk_bounds bytes k :
  k < chunkCount (List.length bytes) ->
  0 < List.length (chunk bytes k) <= chunkSize.
Proof.
  intros H. apply lt_chunkCount in H. rewrite chunk_length.
  assert (0 < chunkSize) by (unfold chunkSize; lia). lia.
Qed.

Lemma chunk_is_slice bytes k :
  chunk bytes k
  = slice bytes (k * chunkSize) (Nat.min ((k + 1) * chunkSize) (List.length bytes)).
Proof.
  unfold chunk, slice.
  replace (k * chunkSize + chunkSize - k * chunkSize) with chunkSize by lia.
  destruct (Nat.le_gt_cases ((k + 1) * chunkSize) (List.length bytes)) as [H|H].
  - rewrite Nat.min_l by exact H. f_equal. lia.
  - rewrite Nat.min_r by lia.
    rewrite !firstn_all2; [reflexivity| |]; rewrite length_skipn; lia.
Qed.

Lemma chunks_cover_from bytes : forall m k,
  m = chunkCount (List.length bytes) - k ->
  List.concat (map (chunk bytes) (seq k m)) = skipn (k * chunkSize) bytes.
Proof.
  induction m as [|m IH]; intros k Hm.
  - cbn [seq map List.concat]. symmetry. apply skipn_all2.
    destruct (Nat.le_gt_cases (List.length bytes) (k * chunkSize)) as [H|H]; [exact H|].
    apply lt_chunkCount in H. lia.
  - cbn [seq map List.concat]. rewrite IH by lia.
    unfold chunk, slice.
    replace (k * chunkSize + chunkSize - k * chunkSize) with chunkSize by lia.
    replace (S k * chunkSize) with (chunkSize + k * chunkSize) by lia.
    rewrite <- skipn_skipn. apply firstn_skipn.
Qed.

Lemma chunks_cover bytes :
  List.concat (map (chunk bytes) (seq 0 (chunkCount (List.length bytes)))) = bytes.
Proof.
  rewrite (chunks_cover_from bytes _ 0) by lia. reflexivity.
Qed.

Lemma accepted_no_reject c bytes :
  accepted c bytes = true ->
  find (rejects c bytes) (seq 0 (chunkCount (List.length bytes) - 0)) = None.
Proof.
  unfold accepted. rewrite Nat.sub_0_r.
  generalize (seq 0 (chunkCount (List.length bytes))) as ks.
  induction ks as [|k ks IH]; cbn [forallb find]; [reflexivity|].
  unfold rejects at 1. destruct (writeValue c k (chunk bytes k)); cbn [andb negb].
  - exact IH.
  - discriminate.
Qed.

Lemma rejected_first c bytes :
  accepted c bytes = false ->
  exists j, find (rejects c bytes) (seq 0 (chunkCount (List.length bytes) - 0)) = Some j /\
            j < chunkCount (List.length bytes) /\
            writeValue c j (chunk bytes j) = false.
Proof.
  unfold accepted. rewrite Nat.sub_0_r. intros H.
  destruct (find (rejects c bytes) (seq 0 (chunkCount (List.length bytes))))
    as [j|] eqn:Hf.
  - exists j. split; [reflexivity|].
    apply find_some in Hf. destruct Hf as [Hin Hr].
    apply in_seq in Hin. unfold rejects in Hr.
    split; [lia|]. destruct (writeValue c j (chunk bytes j)); [discriminate|reflexivity].
  - exfalso. assert (forallb (fun k => writeValue c k (chunk bytes k))
                       (seq 0 (chunkCount (List.length bytes))) = true); [|congruence].
    apply forallb_forall. intros k Hk.
    pose proof (find_none _ _ Hf k Hk) as Hn. unfold rejects in Hn.
    destruct (writeValue c k (chunk bytes k)); [reflexivity|discriminate].
Qed.

Lemma runFrom_accepted c bytes :
  accepted c bytes = true ->
  runFrom c bytes 0 = fullRun c bytes /\ outcomeFrom c bytes 0 = inr tt.
Proof.
  intros H. unfold runFrom, outcomeFrom. rewrite (accepted_no_reject _ _ H).
  rewrite Nat.sub_0_r. split; reflexivity.
Qed.

Lemma firstn_seq_prefix : forall j n start,
  j <= n -> firstn j (seq start n) = seq start j.
Proof.
  induction j as [|j IH]; intros n start H; [reflexivity|].
  destruct n as [|n]; [lia|]. cbn [seq firstn]. rewrite IH by lia. reflexivity.
Qed.

Lemma runFrom_rejected c bytes :
  accepted c bytes = false ->
  exists j, j < chunkCount (List.length bytes) /\
    writeValue c j (chunk bytes j) = false /\
    runFrom c bytes 0 = (firstn j (fullRun c bytes) ++
                         [Write (char_uuid c) j (chunk bytes j) false])%list /\
    outcomeFrom c bytes 0 = inl (JsError "NetworkError").
Proof.
  intros H. destruct (rejected_first _ _ H) as (j & Hf & Hj & Hw).
  exists j. split; [exact Hj|]. split; [exact Hw|].
  unfold runFrom, outcomeFrom. rewrite Hf. split; [|reflexivity].
  f_equal. unfold fullRun. rewrite firstn_map, Nat.sub_0_r. f_equal.
  rewrite firstn_seq_prefix by lia. reflexivity.
Qed.

Lemma runFrom_first_rejected c bytes :
  accepted c bytes = false ->
  exists j, j < chunkCount (List.length bytes) /\
    writeValue c j (chunk bytes j) = false /\
    (forall i, i < j -> writeValue c i (chunk bytes i) = true) /\
    runFrom c bytes 0 = (firstn j (fullRun c bytes) ++
                         [Write (char_uuid c) j (chunk bytes j) false])%list /\
    outcomeFrom c bytes 0 = inl (JsError "NetworkError") /\
    List.length (firstn j (fullRun c bytes)) = j.
Proof.
  intros H. destruct (rejected_first _ _ H) as (j & Hf & Hj & Hw).
  exists j. split; [exact Hj|]. split; [exact Hw|].
  split.
  { intros i Hi. pose proof (find_seq_first _ _ _ _ Hf i ltac:(lia)) as Hr.
    unfold rejects in Hr. destruct (writeValue c i (chunk bytes i));
      [reflexivity|discriminate]. }
  unfold runFrom, outcomeFrom. rewrite Hf. split; [|split; [reflexivity|]].
  - f_equal. unfold fullRun. rewrite firstn_map, Nat.sub_0_r. f_equal.
    rewrite firstn_seq_prefix by lia. reflexivity.
  - unfold fullRun. rewrite firstn_map, length_map, firstn_seq_prefix by lia.
    apply length_seq.
Qed.

End ChunkFacts.

Section SessionFacts.

Import Eff Preview.

Local Open Scope nat_scope.

Lemma outcome_accepted c bytes :
  outcomeFrom c bytes 0
  = if accepted c bytes then inr tt else inl (JsError "NetworkError").
Proof.
  destruct (accepted c bytes) eqn:Ha.
  - apply runFrom_accepted. exact Ha.
  - destruct (runFrom_rejected c bytes Ha) as (j & _ & _ & _ & H). exact H.
Qed.

Lemma charLoop_spec bytes : forall cs s,
  charLoop cs bytes s
  = match find writable cs with
    | None => (s, inr false)
    | Some c => (append s (runFrom c bytes 0),
                 if accepted c bytes then inr true
                 else inl (JsError "NetworkError"))
    end.
Proof.
  induction cs as [|c cs IH]; intros s; cbn [charLoop find]; [reflexivity|].
  destruct (writable c); [|apply IH].
  unfold bind. rewrite writeChunks_spec, outcome_accepted.
  destruct (accepted c bytes); reflexivity.
Qed.

Lemma serviceLoop_spec bytes : forall ss s,
  serviceLoop ss bytes s
  = (append s (serviceTrace bytes ss), inr (existsb (completes bytes) ss)).
Proof.
  induction ss as [|sv ss IH]; intros s;
    cbn [serviceLoop serviceTrace existsb].
  - rewrite append_nil. reflexivity.
  - unfold bind, try_catch, call, completes, attemptOf.
    destruct (getCharacteristics sv) as [cs|]; unfold ret, throw.
    + rewrite charLoop_spec.
      destruct (find writable cs) as [c|].
      * destruct (accepted c bytes); cbn [orb].
        -- rewrite app_nil_r. reflexivity.
        -- rewrite IH, append_append. reflexivity.
      * cbn [orb]. apply IH.
    + cbn [orb]. apply IH.
Qed.

Lemma handleSystemPrint_spec p s :
  handleSystemPrint p s = (append s (systemPrintTrace p), inr tt).
Proof.
  unfold handleSystemPrint, systemPrintTrace, bind, try_catch, call, ret, throw.
  rewrite emit_spec.
  destruct (stripDataUrl p) as [url|].
  - destruct (windowOpens p); cbn [negb]; rewrite emit_spec, append_append;
      reflexivity.
  - rewrite !emit_spec, !append_append. reflexivity.
Qed.

Lemma handleBluetoothPrint_spec p device s :
  handleBluetoothPrint p device s
  = (mkState (isDownloading s) false (hook s)
             (log s ++ bluetoothTrace p device)%list, inr tt).
Proof.
  unfold handleBluetoothPrint, bluetoothTrace, sessionInputs, connectServer,
    toBytes, setIsPrinting, try_finally, try_catch, bind, modify, call.
  destruct (gatt device) as [g|]; [destruct (connect g) as [server|]|];
    unfold ret, throw;
    [destruct (stripDataUrl p) as [url|] eqn:Hgen;
     [destruct (Download.atob _ _) as [bytes|];
      [destruct (getPrimaryServices server) as [services|]|]|]| |];
    try (rewrite !emit_spec, handleSystemPrint_spec; unfold append; cbn;
         rewrite <- !app_assoc; reflexivity).
  rewrite serviceLoop_spec.
  destruct (existsb (completes bytes) services).
  - rewrite !emit_spec. unfold append. cbn. rewrite <- !app_assoc. reflexivity.
  - rewrite emit_spec, handleSystemPrint_spec, emit_spec. unfold append. cbn.
    rewrite <- !app_assoc. cbn. rewrite <- !app_assoc. reflexivity.
Qed.

End SessionFacts.

Section TraceFacts.

Import Eff Preview.

Local Open Scope nat_scope.

Lemma systemPrintCalls_app a b :
  systemPrintCalls (a ++ b) = systemPrintCalls a + systemPrintCalls b.
Proof. unfold systemPrintCalls. rewrite filter_app, length_app. reflexivity. Qed.

Lemma sentToPrinter_app a b :
  sentToPrinter (a ++ b) = (sentToPrinter a || sentToPrinter b)%bool.
Proof. apply existsb_app. Qed.

Lemma writes_only_neutral l :
  forallb isWrite l = true -> systemPrintCalls l = 0 /\ sentToPrinter l = false.
Proof.
  induction l as [|e l IH]; cbn [forallb]; [split; reflexivity|].
  intros H. apply andb_prop in H. destruct H as [He Hl].
  destruct (IH Hl) as [IH1 IH2].
  destruct e; try discriminate. unfold systemPrintCalls, sentToPrinter in *.
  cbn. split; assumption.
Qed.

Lemma runFrom_writes c bytes k : forallb isWrite (runFrom c bytes k) = true.
Proof.
  unfold runFrom. destruct (find _ _); rewrite ?forallb_app;
    cbn [forallb isWrite andb]; rewrite ?andb_true_r;
    apply forallb_forall; intros e He; apply in_map_iff in He;
    destruct He as (j & <- & _); reflexivity.
Qed.

Lemma serviceTrace_writes bytes ss : forallb isWrite (serviceTrace bytes ss) = true.
Proof.
  induction ss as [|sv ss IH]; cbn [serviceTrace]; [reflexivity|].
  destruct (attemptOf sv) as [c|]; [|exact IH].
  rewrite forallb_app, runFrom_writes.
  destruct (accepted c bytes); [reflexivity|exact IH].
Qed.

Lemma systemPrintTrace_counts p :
  systemPrintCalls (systemPrintTrace p) = 1 /\
  sentToPrinter (systemPrintTrace p) = false.
Proof.
  unfold systemPrintTrace.
  destruct (stripDataUrl p); [destruct (windowOpens p)|];
    split; reflexivity.
Qed.

Lemma bluetoothTrace_counts p device :
  systemPrintCalls (bluetoothTrace p device) = (if printed p device then 0 else 1) /\
  sentToPrinter (bluetoothTrace p device) = printed p device.
Proof.
  unfold bluetoothTrace, printed.
  destruct (systemPrintTrace_counts p) as [Hc Hs].
  destruct (sessionInputs p device) as [[services bytes]|].
  - destruct (writes_only_neutral _ (serviceTrace_writes bytes services)) as [Wc Ws].
    change (SetIsPrinting true :: ?l ++ ?r)%list
      with ([SetIsPrinting true] ++ l ++ r)%list.
    rewrite !systemPrintCalls_app, !sentToPrinter_app, Wc, Ws.
    destruct (existsb (completes bytes) services).
    + split; reflexivity.
    + change (Notify ?t :: systemPrintTrace p)
        with ([Notify t] ++ systemPrintTrace p)%list.
      rewrite !systemPrintCalls_app, !sentToPrinter_app, Hc, Hs.
      split; reflexivity.
  - change (SetIsPrinting true :: (ConsoleError :: ?n :: systemPrintTrace p) ++ ?r)%list
      with ([SetIsPrinting true; ConsoleError; n] ++ systemPrintTrace p ++ r)%list.
    rewrite !systemPrintCalls_app, !sentToPrinter_app, Hc, Hs.
    split; reflexivity.
Qed.

Lemma filter_all_writes l : forallb isWrite l = true -> filter isWrite l = l.
Proof.
  induction l as [|e l IH]; cbn [forallb filter]; [reflexivity|].
  intros H. apply andb_prop in H. destruct H as [He Hl].
  rewrite He, IH by exact Hl. reflexivity.
Qed.

Lemma bluetoothTrace_writes p device services bytes :
  sessionInputs p device = Some (services, bytes) ->
  filter isWrite (bluetoothTrace p device) = serviceTrace bytes services.
Proof.
  intros Hin. unfold bluetoothTrace, systemPrintTrace. rewrite Hin.
  cbn [filter isWrite]. rewrite !filter_app.
  rewrite (filter_all_writes _ (serviceTrace_writes bytes services)).
  destruct (existsb (completes bytes) services);
    [|destruct (stripDataUrl p); [destruct (windowOpens p)|]];
    cbn [filter isWrite sentToast app]; rewrite ?app_nil_r; reflexivity.
Qed.

Lemma completed_run bytes : forall ss,
  existsb (completes bytes) ss = true ->
  exists pre sv c,
    In sv ss /\ attemptOf sv = Some c /\ accepted c bytes = true /\
    forallb isWrite pre = true /\
    serviceTrace bytes ss = (pre ++ fullRun c bytes)%list.
Proof.
  induction ss as [|sv ss IH]; cbn [existsb serviceTrace]; [discriminate|].
  unfold completes at 1.
  destruct (attemptOf sv) as [c|] eqn:Ha.
  - destruct (accepted c bytes) eqn:Hacc; cbn [orb]; intros H.
    + exists [], sv, c. rewrite app_nil_r.
      destruct (runFrom_accepted c bytes Hacc) as [-> _].
      repeat split; auto. left; reflexivity.
    + destruct (IH H) as (pre & sv' & c' & Hin & Hat & Hok & Hpre & Htr).
      exists (runFrom c bytes 0 ++ pre)%list, sv', c'.
      rewrite forallb_app, runFrom_writes, Hpre, Htr, app_assoc.
      repeat split; auto. right; exact Hin.
  - cbn [orb]. intros H.
    destruct (IH H) as (pre & sv' & c' & Hin & Hat & Hok & Hpre & Htr).
    exists pre, sv', c'. repeat split; auto. right; exact Hin.
Qed.

End TraceFacts.

(** C2 (as stated, refuted).  With a 1025-byte image and a printer whose
    first writable characteristic rejects the first write while a later
    service accepts all of them, the session reports "Sent to printer!"
    although a write failed, and it has issued four writes, not
    ceil(1025/512) = 3. *)
Lemma sent_to_printer_after_failed_write :
  let evs := session_log sample_page device_rejecting_then_printer in
  sentToPrinter evs = true /\
  existsb isFailedWrite evs = true /\
  List.length (filter isWrite evs) = 4%nat /\
  chunkCount (List.length sample_bytes) = 3%nat /\
  ~ (sentToPrinter evs = true ->
     existsb isFailedWrite evs = false /\
     List.length (filter isWrite evs) = chunkCount (List.length sample_bytes)).
Proof.
  vm_compute. repeat split; try reflexivity.
  intros H. destruct (H eq_refl) as [H1 _]. discriminate H1.
Qed.

(** A rejection of the last chunk: all ceil(N/512) = 3 writes are issued
    to the characteristic and the third one fails. *)
Example rejected_last_chunk_issues_every_write :
  Preview.writeChunks char_rejects_last sample_bytes Preview.initial
  = (append Preview.initial
       [ Preview.Write "ffe4" 0 (chunk sample_bytes 0) true;
         Preview.Write "ffe4" 1 (chunk sample_bytes 1) true;
         Preview.Write "ffe4" 2 (chunk sample_bytes 2) false ],
     inl (JsError "NetworkError")) /\
  chunkCount (List.length sample_bytes) = 3%nat.
Proof. split; vm_compute; reflexivity. Qed.

(** C2 (amended).  The buffer of N > 0 bytes is cut into ceil(N/512) chunks,
    chunk k holding bytes [k*512, min((k+1)*512, N)), each of 1 to 512
    bytes, together the whole buffer in order.  On a characteristic that
    accepts every chunk the loop issues exactly these ceil(N/512) writes, in
    order, the next one after the previous one has resolved.  A rejected
    write ends the transmission on that characteristic: the writes issued to
    it are those of the chunks 0 to j, in order, where chunk j is the first
    one it rejects; so j + 1 <= ceil(N/512) writes are issued (all
    ceil(N/512) of them when the last chunk is the one rejected), the first
    j < ceil(N/512) of them succeed, and no chunk after j is written.  The
    search then goes on with the next service: its writes follow in the log,
    and whether the session succeeds is decided by the remaining services.
    The session reports "Sent to printer!" exactly when some service's
    first writable characteristic accepted every chunk, and then the writes
    of the session end with the ceil(N/512) successful writes to that
    characteristic. *)
Theorem chunked_transmission (c : Preview.Characteristic) (bytes : list Z)
    (s : Preview.State) :
  (0 < List.length bytes)%nat ->
  let n := chunkCount (List.length bytes) in
  Preview.chunkSize = 512%nat /\
  ((n - 1) * 512 < List.length bytes <= n * 512)%nat /\
  (forall k, (k < n)%nat ->
     (0 < List.length (chunk bytes k) <= 512)%nat /\
     chunk bytes k
     = Preview.slice bytes (k * 512) (Nat.min ((k + 1) * 512) (List.length bytes))) /\
  List.concat (map (chunk bytes) (seq 0 n)) = bytes /\
  (accepted c bytes = true ->
     Preview.writeChunks c bytes s = (append s (fullRun c bytes), inr tt) /\
     List.length (fullRun c bytes) = n /\
     forall k, (k < n)%nat ->
       nth_error (fullRun c bytes) k
       = Some (Preview.Write (Preview.char_uuid c) k (chunk bytes k) true)) /\
  (accepted c bytes = false ->
     exists j, (j < n)%nat /\
       Preview.writeValue c j (chunk bytes j) = false /\
       Preview.writeChunks c bytes s
       = (append s (firstn j (fullRun c bytes) ++
                    [Preview.Write (Preview.char_uuid c) j (chunk bytes j) false]),
          inl (JsError "NetworkError")) /\
       (forall i, (i < j)%nat -> Preview.writeValue c i (chunk bytes i) = true) /\
       List.length (firstn j (fullRun c bytes)) = j /\
       List.length (firstn j (fullRun c bytes) ++
                    [Preview.Write (Preview.char_uuid c) j (chunk bytes j) false])
       = S j /\
       (S j <= n)%nat) /\
  (forall p device services,
     sessionInputs p device = Some (services, bytes) ->
     let evs := bluetoothTrace p device in
     Preview.log (fst (Preview.handleBluetoothPrint p device s))
       = (Preview.log s ++ evs)%list /\
     (sentToPrinter evs = true <-> existsb (completes bytes) services = true) /\
     (sentToPrinter evs = true ->
        exists pre sv c',
          In sv services /\ attemptOf sv = Some c' /\ accepted c' bytes = true /\
          filter isWrite evs = (pre ++ fullRun c' bytes)%list) /\
     (forall sv rest c',
        services = sv :: rest -> attemptOf sv = Some c' ->
        accepted c' bytes = false ->
        (exists j, (j < n)%nat /\
           filter isWrite evs
           = (firstn j (fullRun c' bytes) ++
              [Preview.Write (Preview.char_uuid c') j (chunk bytes j) false] ++
              serviceTrace bytes rest)%list) /\
        (sentToPrinter evs = true <-> existsb (completes bytes) rest = true))).
Proof.
  intros HN n. subst n.
  split; [reflexivity|].
  split; [exact (chunkCount_ceil _ HN)|].
  split; [intros k Hk; split; [exact (chunk_bounds bytes k Hk)|apply chunk_is_slice]|].
  split; [apply chunks_cover|].
  split; [|split].
  - intros Hacc. rewrite writeChunks_spec.
    destruct (runFrom_accepted c bytes Hacc) as [-> ->].
    split; [reflexivity|]. unfold fullRun.
    split; [rewrite length_map, length_seq; reflexivity|].
    intros k Hk. rewrite nth_error_map, nth_error_seq.
    apply Nat.ltb_lt in Hk. rewrite Hk. reflexivity.
  - intros Hrej.
    destruct (runFrom_first_rejected c bytes Hrej)
      as (j & Hj & Hw & Hbefore & Hrun & Hout & Hlen).
    exists j. split; [exact Hj|]. split; [exact Hw|].
    split; [rewrite writeChunks_spec, Hrun, Hout; reflexivity|].
    split; [exact Hbefore|]. split; [exact Hlen|].
    split; [rewrite length_app, Hlen; cbn [List.length]; lia|lia].
  - intros p device services Hin evs. subst evs.
    split; [rewrite handleBluetoothPrint_spec; reflexivity|].
    destruct (bluetoothTrace_counts p device) as [_ Hsent].
    assert (Hp : printed p device = existsb (completes bytes) services)
      by (unfold printed; rewrite Hin; reflexivity).
    split; [rewrite Hsent, Hp; tauto|]. split.
    + intros Hs. rewrite Hsent, Hp in Hs.
      destruct (completed_run bytes services Hs)
        as (pre & sv & c' & Hsv & Hat & Hacc & Hpre & Htr).
      exists pre, sv, c'. repeat split; auto.
      rewrite (bluetoothTrace_writes p device services bytes Hin). exact Htr.
    + intros sv rest c' -> Hat Hrej.
      destruct (runFrom_first_rejected c' bytes Hrej)
        as (j & Hj & _ & _ & Hrun & _ & _).
      split.
      * exists j. split; [exact Hj|].
        rewrite (bluetoothTrace_writes p device _ bytes Hin).
        cbn [serviceTrace]. rewrite Hat, Hrej, Hrun, <- app_assoc. reflexivity.
      * rewrite Hsent, Hp. cbn [existsb]. unfold completes at 1.
        rewrite Hat, Hrej. cbn [orb]. tauto.
Qed.

Lemma chunked_transmission_witness :
  chunkCount (List.length sample_bytes) = 3%nat /\
  map (@List.length Z) (map (chunk sample_bytes) [0; 1; 2]%nat) = [512; 512; 1]%nat /\
  filter isWrite (session_log sample_page device_single_printer)
  = [ Preview.Write "ffe2" 0 (chunk sample_bytes 0) true;
      Preview.Write "ffe2" 1 (chunk sample_bytes 1) true;
      Preview.Write "ffe2" 2 (chunk sample_bytes 2) true ] /\
  sentToPrinter (session_log sample_page device_single_printer) = true.
Proof.
  assert (HN : (0 < List.length sample_bytes)%nat) by (vm_compute; lia).
  destruct (chunked_transmission char_printer sample_bytes Preview.initial HN)
    as (_ & _ & _ & _ & Hok & _ & Hsession).
  destruct (Hok eq_refl) as (Hrun & Hlen & _).
  split; [vm_compute; reflexivity|]. split; [vm_compute; reflexivity|].
  destruct (Hsession sample_page device_single_printer _ eq_refl) as (Hlog & _ & _).
  unfold session_log. rewrite Hlog.
  split; vm_compute; reflexivity.
Defined.

(** C4 (as stated, refuted).  A characteristic write fails (the second
    chunk on the first service) and yet the system print fallback is not
    invoked: the next service takes the transmission and the session
    reports success. *)
Lemma failed_write_without_fallback :
  let evs := session_log sample_page device_flaky_then_printer in
  existsb isFailedWrite evs = true /\
  systemPrintCalls evs = 0%nat /\
  ~ (existsb isFailedWrite evs = true -> (1 <= systemPrintCalls evs)%nat).
Proof.
  vm_compute. repeat split; try reflexivity.
  intros H. specialize (H eq_refl). lia.
Qed.

(** C4 (amended).  handleBluetoothPrint always returns normally with
    isPrinting reset to false, and so does handleSystemPrint: no failure of
    the transport leaves them as an exception.  The system print fallback is
    invoked, exactly once, whenever the transmission completes on no
    service: when the device has no GATT server or the connection fails (or
    the image or the service list cannot be obtained), when no service
    offers a writable characteristic, and when every characteristic that is
    tried rejects a write.  A failed write on one service is skipped: when
    a later service's first writable characteristic accepts every chunk the
    session reports success and the fallback is not invoked. *)
Theorem print_fallback (p : Preview.Page) (device : Preview.Device)
    (s : Preview.State) :
  let evs := bluetoothTrace p device in
  Preview.handleBluetoothPrint p device s
    = (Preview.mkState (Preview.isDownloading s) false (Preview.hook s)
                       (Preview.log s ++ evs)%list, inr tt) /\
  (exists s', Preview.handleSystemPrint p s = (s', inr tt)) /\
  systemPrintCalls evs = (if printed p device then 0 else 1)%nat /\
  sentToPrinter evs = printed p device /\
  (Preview.gatt device = None \/
   (exists g, Preview.gatt device = Some g /\ Preview.connect g = None) ->
   systemPrintCalls evs = 1%nat) /\
  (sessionInputs p device = None -> systemPrintCalls evs = 1%nat) /\
  (forall services bytes,
     sessionInputs p device = Some (services, bytes) ->
     (forall sv, In sv services -> attemptOf sv = None) ->
     systemPrintCalls evs = 1%nat) /\
  (forall services bytes,
     sessionInputs p device = Some (services, bytes) ->
     (forall sv c, In sv services -> attemptOf sv = Some c ->
                   accepted c bytes = false) ->
     systemPrintCalls evs = 1%nat) /\
  (forall services bytes,
     sessionInputs p device = Some (services, bytes) ->
     existsb (completes bytes) services = true ->
     systemPrintCalls evs = 0%nat /\ sentToPrinter evs = true).
Proof.
  intros evs. subst evs.
  destruct (bluetoothTrace_counts p device) as [Hcalls Hsent].
  assert (Hnone : sessionInputs p device = None ->
                  systemPrintCalls (bluetoothTrace p device) = 1%nat).
  { intros H. rewrite Hcalls. unfold printed. rewrite H. reflexivity. }
  assert (Hfail : forall services bytes,
            sessionInputs p device = Some (services, bytes) ->
            (forall sv, In sv services -> completes bytes sv = false) ->
            systemPrintCalls (bluetoothTrace p device) = 1%nat).
  { intros services bytes Hin Hall. rewrite Hcalls. unfold printed. rewrite Hin.
    destruct (existsb (completes bytes) services) eqn:He; [|reflexivity].
    apply existsb_exists in He. destruct He as (sv & Hsv & Hc).
    rewrite (Hall sv Hsv) in Hc. discriminate. }
  split; [apply handleBluetoothPrint_spec|].
  split; [eexists; apply handleSystemPrint_spec|].
  split; [exact Hcalls|]. split; [exact Hsent|].
  split; [|split; [exact Hnone|split; [|split]]].
  - intros Hg. apply Hnone. unfold sessionInputs.
    destruct Hg as [-> | (g & -> & ->)]; reflexivity.
  - intros services bytes Hin Hall. apply (Hfail services bytes Hin).
    intros sv Hsv. unfold completes. rewrite (Hall sv Hsv). reflexivity.
  - intros services bytes Hin Hall. apply (Hfail services bytes Hin).
    intros sv Hsv. unfold completes.
    destruct (attemptOf sv) as [c|] eqn:Ha; [|reflexivity].
    apply (Hall sv c Hsv Ha).
  - intros services bytes Hin Hdone. rewrite Hcalls, Hsent. unfold printed.
    rewrite Hin, Hdone. split; reflexivity.
Qed.

Lemma print_fallback_witness :
  systemPrintCalls (session_log sample_page device_without_gatt) = 1%nat /\
  systemPrintCalls (session_log sample_page device_read_only) = 1%nat /\
  session_log sample_page device_read_only
  = [ Preview.SetIsPrinting true;
      Preview.Notify (Capture.toast_info
                        "Direct print not supported. Opening print dialog...");
      Preview.SystemPrintCalled;
      Preview.PrintWindow "data:image/png;base64,iVBORw0KGgo=";
      Preview.Disconnect;
      Preview.SetIsPrinting false ].
Proof.
  destruct (print_fallback sample_page device_without_gatt Preview.initial)
    as (Hrun1 & _ & _ & _ & Hgatt & _).
  destruct (print_fallback sample_page device_read_only Preview.initial)
    as (Hrun2 & _ & _ & _ & _ & _ & Hnowritable & _).
  unfold session_log. rewrite Hrun1, Hrun2. cbn [fst Preview.log Preview.initial app].
  split; [apply Hgatt; left; reflexivity|].
  split; [|vm_compute; reflexivity].
  apply (Hnowritable _ sample_bytes eq_refl).
  intros sv [<-|[<-|[]]]; reflexivity.
Defined.

(* ================================================================== *)
(** * Part IV. Further properties of the code                          *)
(* ================================================================== *)

(* ------------------------------------------------------------------ *)
(** ** The compositor's geometry                                       *)
(* ------------------------------------------------------------------ *)

Section GeometryFacts.
Import Compositor.
Local Open Scope Z_scope.

Lemma stacked_geometry layout n :
  String.eqb layout "grid-4" = false ->
  let g := canvasGeometry layout n in
  (photoHeight g = 2400 \/ photoHeight g = 1200) /\
  canvasWidth g = photoWidth g + padding * 2 /\
  canvasHeight g = padding * 2 + n * photoHeight g + (n - 1) * photoGap /\
  forall i, cellRect layout n i
            = mkRect padding (padding + i * (photoHeight g + photoGap))
                     (photoWidth g) (photoHeight g).
Proof.
  intros Hgrid. unfold cellRect, canvasGeometry. rewrite Hgrid.
  destruct (String.eqb layout "strip-3" || String.eqb layout "strip-4")%bool;
    cbn; repeat split; auto.
Qed.

Lemma drawImages_spec layout n : forall photos index,
  map fst (drawImages layout n index photos) = photos /\
  forall i src, nth_error photos i = Some src ->
    nth_error (drawImages layout n index photos) i
    = Some (src, cellRect layout n (index + Z.of_nat i)).
Proof.
  induction photos as [|p photos IH]; intros index; cbn [drawImages map].
  - split; [reflexivity|]. intros [|i] src H; discriminate.
  - destruct (IH (index + 1)) as [IH1 IH2]. split; [rewrite IH1; reflexivity|].
    intros [|i] src H; cbn [nth_error] in *.
    + injection H as <-. rewrite Z.add_0_r. reflexivity.
    + rewrite (IH2 i src H). do 3 f_equal. lia.
Qed.

Lemma grid_geometry n :
  canvasGeometry "grid-4" n = mkGeometry 4000 4000 1800 1800.
Proof. reflexivity. Qed.

Lemma grid_cell n k :
  cellRect "grid-4" n k
  = mkRect (160 + (k mod 2) * 1880) (160 + (k / 2) * 1880) 1800 1800.
Proof. reflexivity. Qed.

End GeometryFacts.

(** X1.  In the vertical-strip and wide layouts (every layout id other than
    grid-4) the cells are stacked top to bottom: each spans the canvas
    between the left and right padding, the first starts at the top
    padding, consecutive cells are exactly one gap apart, and the last ends
    exactly at the bottom padding. *)
Theorem stacked_cells_tile_canvas (layout : string) (n i : Z) :
  String.eqb layout "grid-4" = false ->
  (0 <= i < n)%Z ->
  let g := Compositor.canvasGeometry layout n in
  let r := Compositor.cellRect layout n i in
  (Compositor.rx r = Compositor.padding /\
   Compositor.rx r + Compositor.rw r = Compositor.canvasWidth g - Compositor.padding /\
   Compositor.padding <= Compositor.ry r /\
   Compositor.ry r + Compositor.rh r <= Compositor.canvasHeight g - Compositor.padding /\
   (i = 0 -> Compositor.ry r = Compositor.padding) /\
   (i = n - 1 ->
    Compositor.ry r + Compositor.rh r = Compositor.canvasHeight g - Compositor.padding) /\
   (i + 1 < n ->
    Compositor.ry (Compositor.cellRect layout n (i + 1))
    = Compositor.ry r + Compositor.rh r + Compositor.photoGap))%Z.
Proof.
  intros Hgrid Hi g r. subst g r.
  destruct (stacked_geometry layout n Hgrid) as (Hh & Hw & Hc & Hcell).
  rewrite !Hcell, Hw, Hc. cbn [Compositor.rx Compositor.ry Compositor.rw Compositor.rh].
  change Compositor.padding with 160%Z. change Compositor.photoGap with 80%Z.
  destruct Hh as [-> | ->]; repeat split; intros; nia.
Qed.

Lemma stacked_cells_tile_canvas_witness :
  Compositor.cellRect "strip-4" 4 3 = Compositor.mkRect 160 7600 2400 2400 /\
  (7600 + 2400 = Compositor.canvasHeight (Compositor.canvasGeometry "strip-4" 4)
                 - Compositor.padding)%Z.
Proof.
  assert (H : (0 <= 3 < 4)%Z) by lia.
  destruct (stacked_cells_tile_canvas "strip-4" 4 3 eq_refl H)
    as (_ & _ & _ & _ & _ & Hlast & _).
  split; [reflexivity|]. apply (Hlast eq_refl).
Defined.

(** X2.  In the grid-4 layout the cells of the photos 0 to 3 lie inside the
    padded canvas and any two of them are at least one gap apart
    horizontally or vertically; a fifth or later photo would be drawn past
    the bottom edge of the canvas, whose size does not grow with the number
    of photos. *)
Theorem grid_cells_disjoint_inside (n i j : Z) :
  (0 <= i < 4)%Z -> (0 <= j < 4)%Z -> i <> j ->
  let g := Compositor.canvasGeometry "grid-4" n in
  let a := Compositor.cellRect "grid-4" n i in
  let b := Compositor.cellRect "grid-4" n j in
  (Compositor.padding <= Compositor.rx a /\
   Compositor.rx a + Compositor.rw a <= Compositor.canvasWidth g - Compositor.padding /\
   Compositor.padding <= Compositor.ry a /\
   Compositor.ry a + Compositor.rh a <= Compositor.canvasHeight g - Compositor.padding /\
   (Compositor.rx a + Compositor.rw a + Compositor.photoGap <= Compositor.rx b \/
    Compositor.rx b + Compositor.rw b + Compositor.photoGap <= Compositor.rx a \/
    Compositor.ry a + Compositor.rh a + Compositor.photoGap <= Compositor.ry b \/
    Compositor.ry b + Compositor.rh b + Compositor.photoGap <= Compositor.ry a) /\
   (forall k, 4 <= k ->
      Compositor.canvasHeight g
      < Compositor.ry (Compositor.cellRect "grid-4" n k)
        + Compositor.rh (Compositor.cellRect "grid-4" n k)))%Z.
Proof.
  intros Hi Hj Hij g a b. subst g a b.
  rewrite grid_geometry, !grid_cell.
  cbn [Compositor.rx Compositor.ry Compositor.rw Compositor.rh
       Compositor.canvasWidth Compositor.canvasHeight].
  change Compositor.padding with 160%Z. change Compositor.photoGap with 80%Z.
  assert (Hmi : (0 <= i mod 2 < 2)%Z) by (apply Z.mod_pos_bound; lia).
  assert (Hmj : (0 <= j mod 2 < 2)%Z) by (apply Z.mod_pos_bound; lia).
  assert (Hdi : (0 <= i / 2 < 2)%Z)
    by (split; [apply Z.div_pos; lia | apply Z.div_lt_upper_bound; lia]).
  assert (Hdj : (0 <= j / 2 < 2)%Z)
    by (split; [apply Z.div_pos; lia | apply Z.div_lt_upper_bound; lia]).
  pose proof (Z.div_mod i 2 ltac:(lia)) as Ei.
  pose proof (Z.div_mod j 2 ltac:(lia)) as Ej.
  repeat split; try lia.
  intros k Hk. rewrite grid_cell. cbn [Compositor.ry Compositor.rh].
  assert (2 <= k / 2)%Z by (apply Z.div_le_lower_bound; lia). lia.
Qed.

Lemma grid_cells_disjoint_inside_witness :
  (Compositor.ry (Compositor.cellRect "grid-4" 4 3)
   + Compositor.rh (Compositor.cellRect "grid-4" 4 3)
   <= Compositor.canvasHeight (Compositor.canvasGeometry "grid-4" 4)
      - Compositor.padding)%Z.
Proof.
  assert (H0 : (0 <= 0 < 4)%Z) by lia. assert (H3 : (0 <= 3 < 4)%Z) by lia.
  assert (Hne : 3%Z <> 0%Z) by discriminate.
  destruct (grid_cells_disjoint_inside 4 3 0 H3 H0 Hne) as (_ & _ & _ & H & _).
  exact H.
Defined.

(** X3.  generateHighQualityStrip is all or nothing: it throws exactly when
    the canvas has no 2d context or some photo fails to load, and otherwise
    draws every photo once, in FrameSet order, photo i into the cell of
    index i, on a canvas of the layout's size. *)
Theorem strip_draws_every_photo_in_order (ctx : bool) (loads : string -> bool)
    (photos : list string) (layout : string) (isGrayscale : bool) :
  let n := Z.of_nat (List.length photos) in
  let out := Compositor.generateHighQualityStrip ctx loads photos layout isGrayscale in
  (out = None <-> ctx = false \/ forallb loads photos = false) /\
  (forall st, out = Some st ->
     map fst (Compositor.strip_images st) = photos /\
     (forall i src, nth_error photos i = Some src ->
        nth_error (Compositor.strip_images st) i
        = Some (src, Compositor.cellRect layout n (Z.of_nat i))) /\
     Compositor.strip_width st
       = Compositor.canvasWidth (Compositor.canvasGeometry layout n) /\
     Compositor.strip_height st
       = Compositor.canvasHeight (Compositor.canvasGeometry layout n) /\
     Compositor.strip_grayscale st = isGrayscale).
Proof.
  intros n out. subst n out. unfold Compositor.generateHighQualityStrip.
  destruct ctx; cbn [negb].
  - destruct (forallb loads photos); cbn [negb].
    + split; [split; [discriminate|intros [H|H]; discriminate]|].
      intros st [= <-]. cbn [Compositor.strip_images Compositor.strip_width
                             Compositor.strip_height Compositor.strip_grayscale].
      destruct (drawImages_spec layout (Z.of_nat (List.length photos)) photos 0)
        as [Hfst Hnth].
      repeat split; auto.
    + split; [split; auto|discriminate].
  - split; [split; auto|discriminate].
Qed.

(** X4.  The watermark is anchored at half the canvas width, half a padding
    above the bottom edge, strictly below every photo drawn (in the stacked
    layouts for any number of photos, in grid-4 for up to four), and its
    colour is gray in monochrome mode and pink otherwise. *)
Theorem watermark_in_bottom_margin (ctx : bool) (loads : string -> bool)
    (photos : list string) (layout : string) (isGrayscale : bool)
    (st : Compositor.Strip) :
  Compositor.generateHighQualityStrip ctx loads photos layout isGrayscale = Some st ->
  String.eqb layout "grid-4" = false \/ (List.length photos <= 4)%nat ->
  (2 * Compositor.watermark_x st = Compositor.strip_width st /\
   Compositor.watermark_y st = Compositor.strip_height st - 80 /\
   Compositor.watermark_y st < Compositor.strip_height st /\
   (forall src r, In (src, r) (Compositor.strip_images st) ->
      Compositor.ry r + Compositor.rh r < Compositor.watermark_y st))%Z /\
  Compositor.watermark_style st = (if isGrayscale then "#666666" else "#e91e63").
Proof.
  intros Hst Hshape.
  destruct (strip_draws_every_photo_in_order ctx loads photos layout isGrayscale)
    as [_ Hsome].
  destruct (Hsome st Hst) as (Hfst & Hnth & Hw & Hh & _).
  assert (Hcells : forall src r, In (src, r) (Compositor.strip_images st) ->
            exists i, (i < List.length photos)%nat /\
              r = Compositor.cellRect layout (Z.of_nat (List.length photos)) (Z.of_nat i)).
  { intros src r Hin. apply In_nth_error in Hin. destruct Hin as [i Hi].
    assert (Hsrc : nth_error photos i = Some src).
    { rewrite <- Hfst, nth_error_map, Hi. reflexivity. }
    exists i. split; [apply nth_error_Some; congruence|].
    rewrite (Hnth i src Hsrc) in Hi. congruence. }
  unfold Compositor.generateHighQualityStrip in Hst.
  destruct ctx; [|discriminate]. destruct (forallb loads photos); [|discriminate].
  cbn [negb] in Hst. injection Hst as <-.
  cbn [Compositor.watermark_x Compositor.watermark_y Compositor.watermark_style
       Compositor.strip_width Compositor.strip_height Compositor.strip_images] in *.
  split; [|reflexivity].
  set (n := Z.of_nat (List.length photos)) in *.
  change (Compositor.padding / 2)%Z with 80%Z.
  destruct (String.eqb layout "grid-4") eqn:Hgrid.
  - apply String.eqb_eq in Hgrid. subst layout.
    destruct Hshape as [Hf|Hle]; [discriminate|].
    rewrite grid_geometry.
    cbn [Compositor.canvasWidth Compositor.canvasHeight].
    repeat split; try reflexivity.
    intros src r Hin. destruct (Hcells src r Hin) as (i & Hi & ->).
    rewrite grid_cell. cbn [Compositor.ry Compositor.rh].
    assert (Z.of_nat i / 2 < 2)%Z by (apply Z.div_lt_upper_bound; lia). lia.
  - destruct (stacked_geometry layout n Hgrid) as (Hph & Hcw & Hch & Hcell).
    rewrite Hcw, Hch.
    assert (Hpw : (Compositor.photoWidth (Compositor.canvasGeometry layout n) = 2400
                   \/ Compositor.photoWidth (Compositor.canvasGeometry layout n) = 3200)%Z).
    { unfold Compositor.canvasGeometry. rewrite Hgrid.
      destruct (String.eqb layout "strip-3" || String.eqb layout "strip-4")%bool;
        cbn; auto. }
    change Compositor.padding with 160%Z. change Compositor.photoGap with 80%Z.
    repeat split.
    + destruct Hpw as [-> | ->]; reflexivity.
    + lia.
    + intros src r Hin. destruct (Hcells src r Hin) as (i & Hi & ->).
      rewrite Hcell. cbn [Compositor.ry Compositor.rh].
      change Compositor.padding with 160%Z. change Compositor.photoGap with 80%Z.
      destruct Hph as [-> | ->]; nia.
Qed.

Lemma watermark_in_bottom_margin_witness :
  exists st,
    Compositor.generateHighQualityStrip true (fun _ => true)
      ["data:1"; "data:2"; "data:3"] "wide-3" true = Some st /\
    Compositor.watermark_x st = 1760%Z /\
    Compositor.watermark_y st = 4000%Z /\
    Compositor.watermark_style st = "#666666".
Proof.
  eexists. split; [reflexivity|].
  destruct (watermark_in_bottom_margin true (fun _ => true)
              ["data:1"; "data:2"; "data:3"] "wide-3" true _ eq_refl
              (or_introl eq_refl)) as ((_ & Hy & _) & Hstyle).
  split; [reflexivity|]. split; [exact Hy | exact Hstyle].
Defined.

(** X5.  For 8-bit channel values the stored gray value is the average
    (R+G+B)/3 rounded to the nearest integer, that is (R+G+B+1) div 3 (a
    tie cannot occur); it differs from the exact average by at most a third
    and lies between the smallest and the largest of the three channels. *)
Theorem gray_value_is_rounded_average (r g b : Z) :
  (0 <= r <= 255)%Z -> (0 <= g <= 255)%Z -> (0 <= b <= 255)%Z ->
  let v := Compositor.ToUint8Clamp (Some (Compositor.average r g b)) in
  (v = (r + g + b + 1) / 3 /\
   3 * v - 1 <= r + g + b <= 3 * v + 1 /\
   Z.min r (Z.min g b) <= v <= Z.max r (Z.max g b))%Z.
Proof.
  intros Hr Hg Hb v. subst v.
  unfold Compositor.ToUint8Clamp, Compositor.average, Qle_bool, Qfloor, Qcompare,
    inject_Z, Qplus. cbn [Qnum Qden].
  set (s := (r + g + b)%Z).
  assert (Hs : (0 <= s <= 765)%Z) by (subst s; lia).
  pose proof (Z.div_mod s 3 ltac:(lia)) as Hdm.
  pose proof (Z.mod_pos_bound s 3 ltac:(lia)) as Hm.
  pose proof (Z.div_mod (s + 1) 3 ltac:(lia)) as Hdm1.
  pose proof (Z.mod_pos_bound (s + 1) 3 ltac:(lia)) as Hm1.
  assert (Hv : (if (s * 1 <=? 0 * 3)%Z then 0%Z
                else if (255 * 3 <=? s * 1)%Z then 255%Z
                else match ((s / 3 * 2 + 1 * 1) * 3 ?= s * Z.pos (1 * 2))%Z with
                     | Eq => if Z.even (s / 3) then (s / 3)%Z else (s / 3 + 1)%Z
                     | Lt => (s / 3 + 1)%Z
                     | Gt => (s / 3)%Z
                     end) = ((s + 1) / 3)%Z).
  { destruct (Z.leb_spec (s * 1) (0 * 3)); [lia|].
    destruct (Z.leb_spec (255 * 3) (s * 1)); [lia|].
    destruct (Z.compare_spec ((s / 3 * 2 + 1 * 1) * 3) (s * Z.pos (1 * 2))); lia. }
  assert (Hgoal : forall v, v = ((s + 1) / 3)%Z ->
            (v = (s + 1) / 3 /\ 3 * v - 1 <= s <= 3 * v + 1 /\
             Z.min r (Z.min g b) <= v <= Z.max r (Z.max g b))%Z).
  { intros v ->. subst s. repeat split; lia. }
  apply Hgoal. etransitivity; [|exact Hv].
  replace (Z.pos 3 * 1)%Z with 3%Z by reflexivity. reflexivity.
Qed.

Lemma gray_value_is_rounded_average_witness :
  Compositor.ToUint8Clamp (Some (Compositor.average 10 20 31)) = 20%Z /\
  Compositor.ToUint8Clamp (Some (Compositor.average 0 0 2)) = 1%Z.
Proof.
  assert (H10 : (0 <= 10 <= 255)%Z) by lia. assert (H20 : (0 <= 20 <= 255)%Z) by lia.
  assert (H31 : (0 <= 31 <= 255)%Z) by lia. assert (H0 : (0 <= 0 <= 255)%Z) by lia.
  assert (H2 : (0 <= 2 <= 255)%Z) by lia.
  destruct (gray_value_is_rounded_average 10 20 31 H10 H20 H31) as [Ha _].
  destruct (gray_value_is_rounded_average 0 0 2 H0 H0 H2) as [Hb _].
  split; [exact Ha | exact Hb].
Defined.

Section GrayscaleShape.
Import Compositor.
Local Open Scope nat_scope.

Lemma grayscale_alpha : forall k data,
  nth_error (grayscale data) (4 * k + 3) = nth_error data (4 * k + 3).
Proof.
  induction k as [|k IH]; intros data.
  - destruct data as [|r [|g [|b [|a rest]]]]; reflexivity.
  - replace (4 * S k + 3) with (S (S (S (S (4 * k + 3))))) by lia.
    destruct data as [|r [|g [|b [|a rest]]]]; try reflexivity.
    rewrite grayscale_group. cbv zeta. cbn [nth_error]. apply IH.
Qed.

Lemma grayscale_pixel : forall k data,
  4 * k + 3 < List.length data ->
  exists v, (0 <= v <= 255)%Z /\
    nth_error (grayscale data) (4 * k) = Some v /\
    nth_error (grayscale data) (4 * k + 1) = Some v /\
    nth_error (grayscale data) (4 * k + 2) = Some v.
Proof.
  induction k as [|k IH]; intros data Hlen.
  - destruct data as [|r [|g [|b [|a rest]]]]; cbn [List.length] in Hlen; try lia.
    rewrite grayscale_group. cbv zeta.
    exists (ToUint8Clamp (Some (average r g b))).
    split; [apply ToUint8Clamp_range|]. repeat split.
  - destruct data as [|r [|g [|b [|a rest]]]]; cbn [List.length] in Hlen; try lia.
    destruct (IH rest) as (v & Hv & H0 & H1 & H2); [lia|].
    exists v. split; [exact Hv|].
    rewrite grayscale_group. cbv zeta.
    replace (4 * S k) with (S (S (S (S (4 * k))))) by lia.
    cbn [nth_error Nat.add]. repeat split; assumption.
Qed.

End GrayscaleShape.

(** X6.  The grayscale pass keeps the shape of the RGBA buffer: the length
    is unchanged, every alpha byte (index 4k+3) is left as it was, and in
    every complete pixel the three colour bytes become one and the same
    value between 0 and 255. *)
Theorem grayscale_keeps_shape (data : list Z) :
  List.length (Compositor.grayscale data) = List.length data /\
  (forall k, nth_error (Compositor.grayscale data) (4 * k + 3)
             = nth_error data (4 * k + 3)) /\
  (forall k, (4 * k + 3 < List.length data)%nat ->
     exists v, (0 <= v <= 255)%Z /\
       nth_error (Compositor.grayscale data) (4 * k) = Some v /\
       nth_error (Compositor.grayscale data) (4 * k + 1) = Some v /\
       nth_error (Compositor.grayscale data) (4 * k + 2) = Some v).
Proof.
  split; [apply grayscale_length|].
  split; [intros k; apply grayscale_alpha | intros k; apply grayscale_pixel].
Qed.

(* ------------------------------------------------------------------ *)
(** ** The capture component, further                                  *)
(* ------------------------------------------------------------------ *)

(** X7.  The canvas step of the camera and of the upload path.  Whenever
    capturePhoto adds a photo, the photo is the canvas after a drawImage
    call whose source is the centred largest square of the video frame:
    side min(width, height), equal margins on both sides of the longer
    dimension and none on the shorter one.  The upload path makes the same
    draw, and resolves to the canvas PNG, when the canvas gives a 2d context
    and the step does not throw; without a context, or when the step
    throws, it resolves to the original data URL, uncropped. *)
Theorem centerCrop_is_centred_square (width height : Z) :
  (0 < width)%Z -> (0 < height)%Z ->
  let d := Frame.centerCrop width height in
  (Frame.sWidth d = Z.min width height /\ Frame.sHeight d = Frame.sWidth d /\
   (0 <= Frame.sx d)%Q /\ (0 <= Frame.sy d)%Q /\
   (Frame.sx d + inject_Z (Frame.sWidth d) + Frame.sx d == inject_Z width)%Q /\
   (Frame.sy d + inject_Z (Frame.sHeight d) + Frame.sy d == inject_Z height)%Q /\
   (Frame.sx d == 0 \/ Frame.sy d == 0)%Q /\
   (forall t, (t <= width)%Z -> (t <= height)%Z -> (t <= Frame.sWidth d)%Z)) /\
  (forall ctx toDataURL s,
     let r := Frame.capturePhoto ctx width height toDataURL s in
     fst r = Capture.capturePhoto ctx width (toDataURL d) s /\
     (Capture.photos (fst r) <> Capture.photos s ->
      snd r = Some d /\
      Capture.photos (fst r) = (Capture.photos s ++ [toDataURL d])%list) /\
     (snd r = None -> fst r = s)) /\
  (forall f dataUrl,
     Capture.readResult f = Some dataUrl -> decodes f = true ->
     let r := Frame.onImageLoad dataUrl (hasContext f) width height (canvasOutput f) in
     fst r = Capture.processFile f /\
     (forall payload, Capture.canvas f = Capture.Png payload ->
        snd r = Some d /\
        Capture.processFile f = "data:image/png;base64," ++ payload) /\
     (Capture.canvas f = Capture.NoContext \/ Capture.canvas f = Capture.DrawThrows ->
        snd r = None /\ Capture.processFile f = dataUrl)).
Proof.
  intros Hw Hh d. subst d. split; [|split].
  - unfold Frame.centerCrop.
    cbn [Frame.sx Frame.sy Frame.sWidth Frame.sHeight].
    unfold Qle, Qeq, Qplus, inject_Z. cbn [Qnum Qden].
    destruct (Z.min_spec width height) as [[Hlt ->] | [Hge ->]];
      repeat split; try lia; try (left; lia); try (right; lia).
  - intros ctx toDataURL s r. subst r.
    unfold Frame.capturePhoto, Capture.capturePhoto.
    destruct (negb (Capture.isCamera (Capture.mode s)));
      [cbn [fst snd]; repeat split; congruence|].
    destruct (ctx && (0 <? width)%Z)%bool; cbn [fst snd];
      repeat split; try congruence.
  - intros f dataUrl Hread Hdec r. subst r.
    unfold decodes in Hdec. rewrite Hread in Hdec.
    apply andb_prop in Hdec. destruct Hdec as [Hne Hload].
    unfold Frame.onImageLoad, Capture.processFile, hasContext, canvasOutput.
    rewrite Hread, Hload. apply negb_true_iff in Hne. rewrite Hne. cbn [negb].
    destruct (Capture.canvas f) as [| |payload]; cbn [negb fst snd];
      (split; [reflexivity|split]).
    + intros payload H. discriminate H.
    + intros _. split; reflexivity.
    + intros payload H. discriminate H.
    + intros _. split; reflexivity.
    + intros p [= <-]. split; reflexivity.
    + intros [H|H]; discriminate H.
Qed.

Lemma centerCrop_is_centred_square_witness :
  Frame.centerCrop 1280 720 = Frame.mkDraw (560 # 2) (0 # 2) 720 720 0 0 1000 1000 /\
  (Frame.sx (Frame.centerCrop 1280 720) + inject_Z 720
   + Frame.sx (Frame.centerCrop 1280 720) == inject_Z 1280)%Q /\
  snd (Frame.onImageLoad "data:application/octet-stream;base64,Qw=="
         (hasContext sample_heic) 1280 720 (canvasOutput sample_heic)) = None /\
  Capture.processFile sample_heic = "data:application/octet-stream;base64,Qw==".
Proof.
  assert (Hw : (0 < 1280)%Z) by lia. assert (Hh : (0 < 720)%Z) by lia.
  destruct (centerCrop_is_centred_square 1280 720 Hw Hh)
    as ((_ & _ & _ & _ & Hx & _) & _ & Hupload).
  split; [reflexivity|]. split; [exact Hx|].
  destruct (Hupload sample_heic _ eq_refl eq_refl) as (_ & _ & Hfall).
  destruct (Hfall (or_introl eq_refl)) as [_ Horig].
  split; [reflexivity | exact Horig].
Defined.

Section CaptureFacts2.
Import Catalog Capture.
Local Open Scope nat_scope.

Lemma setCountdown_same s : setCountdown (countdown s) s = s.
Proof. destruct s. reflexivity. Qed.

Lemma countdown_runs_down : forall es s t,
  countdown s = Some t -> 0 < intervals s ->
  forallb isIntervalFires es = true -> List.length es < t ->
  run s es = setCountdown (Some (t - List.length es)) s.
Proof.
  induction es as [|e es IH]; intros s t Hcd Hi Hes Hlen.
  - cbn [List.length run fold_left]. rewrite Nat.sub_0_r, <- Hcd.
    symmetry. apply setCountdown_same.
  - cbn [forallb] in Hes. apply andb_prop in Hes. destruct Hes as [He Hes].
    destruct e as [|ctx vw fr| | | | | | | |]; try discriminate.
    cbn [List.length] in Hlen.
    change (run s (IntervalFires ctx vw fr :: es))
      with (run (step s (IntervalFires ctx vw fr)) es).
    assert (Hs : step s (IntervalFires ctx vw fr) = setCountdown (Some (t - 1)) s).
    { cbn [step]. destruct (intervals s); [lia|]. unfold tick. rewrite Hcd.
      destruct t as [|[|t]]; try lia.
      replace (S (S t) - 1) with (S t) by lia. reflexivity. }
    rewrite Hs.
    rewrite (IH (setCountdown (Some (t - 1)) s) (t - 1)); auto; try lia.
    cbn [List.length]. replace (t - 1 - List.length es) with (t - S (List.length es)) by lia.
    reflexivity.
Qed.


Lemma mode_never_upload s : reachable s -> mode s <> upload.
Proof.
  intros [es ->]. induction es as [|e es IH] using rev_ind; [discriminate|].
  rewrite run_snoc. set (s := run initial es) in *. clearbody s.
  destruct e as [|ctx vw fr|i|t| | | |k| |]; cbn [step].
  - destruct (_ && _)%bool; [|exact IH]. destruct (_ || _)%bool; [exact IH|].
    unfold startCountdown. destruct (countdown s); exact IH.
  - destruct (intervals s); [exact IH|]. unfold tick, capturePhoto.
    destruct (countdown s) as [[|[|c]]|]; cbn [mode setCountdown setIntervals];
      try exact IH.
    destruct (negb (isCamera (mode s))); [exact IH|].
    destruct (ctx && _)%bool; exact IH.
  - destruct (_ && _ && _)%bool; exact IH.
  - destruct (_ && _)%bool; exact IH.
  - destruct (isCamera (mode s)); [discriminate|exact IH].
  - discriminate.
  - exact IH.
  - destruct (nth_error STRIP_LAYOUTS k); [|exact IH].
    destruct (isChoose (mode s)); exact IH.
  - destruct (_ && _)%bool; [|exact IH]. unfold handleDone.
    destruct (_ =? _); [discriminate|exact IH].
  - destruct (isCamera (mode s)); [discriminate|exact IH].
Qed.

Lemma step_effects s e : Inv s ->
  exists new, effects (step s e) = (effects s ++ new)%list /\ forwardsComplete new.
Proof.
  intros [Hl _ _ _ _ _ _].
  assert (Hnone : forwardsComplete []) by (intros ps lid []).
  assert (Hnote : forall t, forwardsComplete [Notify t])
    by (intros t ps lid [H|[]]; discriminate).
  assert (Hsame : exists new, effects s = (effects s ++ new)%list /\ forwardsComplete new)
    by (exists []; rewrite app_nil_r; auto).
  destruct e as [|ctx vw fr|i|t| | | |k| |]; cbn [step].
  - destruct (_ && _)%bool; [|exact Hsame]. destruct (_ || _)%bool; [exact Hsame|].
    unfold startCountdown. destruct (countdown s); exact Hsame.
  - destruct (intervals s); [exact Hsame|]. unfold tick, capturePhoto.
    destruct (countdown s) as [[|[|c]]|];
      cbn [effects mode setCountdown setIntervals]; try exact Hsame.
    destruct (negb (isCamera (mode s))); [exact Hsame|].
    destruct (ctx && _)%bool; [|exact Hsame].
    eexists. split; [reflexivity|apply Hnote].
  - destruct (_ && _ && _)%bool; [|exact Hsame].
    eexists. split; [reflexivity|apply Hnote].
  - destruct (_ && _)%bool; exact Hsame.
  - destruct (isCamera (mode s)); exact Hsame.
  - exact Hsame.
  - exact Hsame.
  - destruct (nth_error STRIP_LAYOUTS k); [|exact Hsame].
    destruct (isChoose (mode s)); exact Hsame.
  - destruct (_ && _)%bool; [|exact Hsame]. unfold handleDone.
    destruct (Nat.eqb_spec (List.length (photos s)) (requiredPhotos s)) as [Hfull|];
      [|exact Hsame].
    eexists. split; [reflexivity|].
    intros ps lid [H|[]]. injection H as <- <-.
    exists (selectedLayout s). auto.
  - destruct (isCamera (mode s)); [|exact Hsame].
    eexists. split; [reflexivity|apply Hnote].
Qed.

Lemma filter_index_none {A} (l : list A) : forall base index,
  base + List.length l <= index ->
  filter_index (fun _ j => negb (j =? index)) base l = l.
Proof.
  induction l as [|x l IH]; intros base index H; [reflexivity|].
  cbn [filter_index List.length] in *.
  destruct (Nat.eqb_spec base index); [lia|]. cbn [negb].
  rewrite IH by lia. reflexivity.
Qed.

End CaptureFacts2.

(** X8.  A countdown lasts exactly timerDuration firings of the interval
    timer: after a click on "Take Photo", k firings with k below the
    duration leave the photos unchanged and show duration - k, and the
    firing that completes the duration captures the frame and clears the
    countdown. *)
Theorem countdown_lasts_timerDuration (s : Capture.State)
    (es : list Capture.Event) (vw : Z) (fr : string) :
  Capture.isCamera (Capture.mode s) = true ->
  Capture.countdown s = None -> Capture.cameraReady s = true ->
  (List.length (Capture.photos s) < Capture.requiredPhotos s)%nat ->
  forallb isIntervalFires es = true ->
  (List.length es < Capture.timerDuration s)%nat -> (0 < vw)%Z ->
  let s1 := Capture.run (Capture.step s Capture.ClickTakePhoto) es in
  Capture.photos s1 = Capture.photos s /\
  Capture.countdown s1 = Some (Capture.timerDuration s - List.length es)%nat /\
  (S (List.length es) = Capture.timerDuration s ->
   let s2 := Capture.step s1 (Capture.IntervalFires true vw fr) in
   Capture.photos s2 = (Capture.photos s ++ [fr])%list /\
   Capture.countdown s2 = None /\ Capture.intervals s2 = Capture.intervals s).
Proof.
  intros Hm Hcd Hready Hlt Hes Hlen Hvw s1.
  assert (Hstart : Capture.step s Capture.ClickTakePhoto = Capture.startCountdown s).
  { cbn [Capture.step]. apply Nat.ltb_lt in Hlt. rewrite Hm, Hlt, Hcd, Hready. reflexivity. }
  assert (Hs1 : s1 = Capture.setCountdown
                       (Some (Capture.timerDuration s - List.length es)%nat)
                       (Capture.startCountdown s)).
  { subst s1. rewrite Hstart.
    apply countdown_runs_down; auto; unfold Capture.startCountdown; rewrite Hcd;
      cbn; auto; lia. }
  rewrite Hs1. unfold Capture.startCountdown. rewrite Hcd.
  split; [reflexivity|]. split; [reflexivity|].
  intros Hlast. cbv zeta.
  replace (Capture.timerDuration s - List.length es)%nat with 1%nat by lia.
  cbn [Capture.step Capture.intervals Capture.setCountdown Capture.setIntervals
       Capture.setTimerRequired].
  unfold Capture.tick, Capture.capturePhoto.
  cbn [Capture.countdown Capture.mode Capture.photos Capture.intervals
       Capture.setCountdown Capture.setIntervals Capture.setTimerRequired
       Capture.setPhotos Capture.emit Nat.pred].
  rewrite Hm. cbn [negb andb].
  destruct (Z.ltb_spec 0 vw); [|lia]. repeat split.
Qed.

Lemma countdown_lasts_timerDuration_witness :
  let s := Capture.setCameraReady true (Capture.setMode Capture.camera Capture.initial) in
  let tick := Capture.IntervalFires true 640 "data:a" in
  Capture.countdown (Capture.run (Capture.step s Capture.ClickTakePhoto) [tick; tick])
    = Some 1%nat /\
  Capture.photos
    (Capture.step (Capture.run (Capture.step s Capture.ClickTakePhoto) [tick; tick]) tick)
    = ["data:a"].
Proof.
  intros s tick.
  assert (Hlt : (List.length (Capture.photos s) < Capture.requiredPhotos s)%nat)
    by (vm_compute; lia).
  assert (Hlen : (List.length [tick; tick] < Capture.timerDuration s)%nat)
    by (vm_compute; lia).
  assert (Hvw : (0 < 640)%Z) by lia.
  destruct (countdown_lasts_timerDuration s [tick; tick] 640 "data:a"
              eq_refl eq_refl eq_refl Hlt eq_refl Hlen Hvw) as (_ & Hcd & Hfire).
  split; [exact Hcd|]. destruct (Hfire eq_refl) as (Hph & _). exact Hph.
Defined.

Section StringFacts.
Import Js.
Local Open Scope nat_scope.

Lemma length_append a b :
  String.length (a ++ b) = String.length a + String.length b.
Proof. induction a as [|c a IH]; cbn; [reflexivity|]. rewrite IH. reflexivity. Qed.

Lemma substring_all s : substring 0 (String.length s) s = s.
Proof. induction s as [|c s IH]; cbn; [reflexivity|]. rewrite IH. reflexivity. Qed.

Lemma substring_suffix a b :
  substring (String.length a) (String.length b) (a ++ b) = b.
Proof. induction a as [|c a IH]; cbn; [apply substring_all|exact IH]. Qed.

Lemma endsWith_append a b : endsWith (a ++ b) b = true.
Proof.
  unfold endsWith. rewrite length_append.
  replace (String.length a + String.length b - String.length b)
    with (String.length a) by lia.
  rewrite substring_suffix, String.eqb_refl.
  destruct (Nat.leb_spec (String.length b) (String.length a + String.length b));
    [reflexivity|lia].
Qed.

Lemma toLowerCase_append a b :
  toLowerCase (a ++ b) = toLowerCase a ++ toLowerCase b.
Proof. induction a as [|c a IH]; cbn; [reflexivity|]. rewrite IH. reflexivity. Qed.

End StringFacts.



(** X10.  The component is only ever in the choose or the camera mode (the
    "upload" mode of the type is never entered), and outside the camera
    mode it holds no photos: leaving the camera view discards what was
    captured. *)
Theorem photos_live_only_in_camera_mode (s : Capture.State) :
  reachable s ->
  (Capture.mode s = Capture.choose \/ Capture.mode s = Capture.camera) /\
  (Capture.mode s = Capture.choose -> Capture.photos s = []).
Proof.
  intros Hr. pose proof (reachable_Inv s Hr) as [_ Hc _ _ _ _ _].
  pose proof (mode_never_upload s Hr) as Hup.
  split.
  - destruct (Capture.mode s); auto. congruence.
  - intros Hm. apply Hc. rewrite Hm. reflexivity.
Qed.

Lemma photos_live_only_in_camera_mode_witness :
  let s := Capture.run Capture.initial (three_captures ++ [Capture.ClickBack]) in
  Capture.mode s = Capture.choose /\ Capture.photos s = [].
Proof.
  intros s.
  assert (Hr : reachable s) by (eexists; reflexivity).
  destruct (photos_live_only_in_camera_mode s Hr) as [_ Hempty].
  split; [reflexivity | apply Hempty; reflexivity].
Defined.

(** X11.  Whatever the user does in the capture component, every call of
    onPhotosReady made from the camera view (handleDone) passes the id of a
    catalog layout together with exactly that layout's number of photos. *)
Theorem camera_path_forwards_complete_sets (s : Capture.State) :
  reachable s -> forwardsComplete (Capture.effects s).
Proof.
  intros [es ->]. induction es as [|e es IH] using rev_ind.
  - intros ps lid [].
  - rewrite run_snoc.
    assert (HI : Inv (Capture.run Capture.initial es))
      by (apply reachable_Inv; exists es; reflexivity).
    destruct (step_effects _ e HI) as (new & -> & Hnew).
    intros ps lid Hin. apply in_app_or in Hin.
    destruct Hin as [Hin|Hin]; [exact (IH ps lid Hin) | exact (Hnew ps lid Hin)].
Qed.

Lemma camera_path_forwards_complete_sets_witness :
  let s := Capture.run Capture.initial (three_captures ++ [Capture.ClickDone]) in
  In (Capture.PhotosReady ["data:a"; "data:b"; "data:c"] "strip-3") (Capture.effects s) /\
  exists l, In l Catalog.STRIP_LAYOUTS /\ Catalog.id l = "strip-3" /\
            List.length ["data:a"; "data:b"; "data:c"] = Catalog.photoCount l.
Proof.
  intros s.
  assert (Hr : reachable s) by (eexists; reflexivity).
  assert (Hin : In (Capture.PhotosReady ["data:a"; "data:b"; "data:c"] "strip-3")
                   (Capture.effects s))
    by (vm_compute; right; right; right; left; reflexivity).
  split; [exact Hin|].
  exact (camera_path_forwards_complete_sets s Hr _ _ Hin).
Defined.

(** X12.  deletePhoto with an index at or past the end of the list removes
    nothing (only its toast is shown), and the view offers no delete button
    for such a slot: a click there changes nothing at all. *)
Theorem deletePhoto_out_of_range (s : Capture.State) (i : nat) :
  (List.length (Capture.photos s) <= i)%nat ->
  Capture.photos (Capture.deletePhoto i s) = Capture.photos s /\
  Capture.effects (Capture.deletePhoto i s)
    = (Capture.effects s ++
       [Capture.Notify (Capture.toast_success "Photo deleted. Take another!")])%list /\
  Capture.step s (Capture.ClickDelete i) = s.
Proof.
  intros Hi. split; [|split].
  - apply (filter_index_none (Capture.photos s) 0 i). lia.
  - reflexivity.
  - cbn [Capture.step].
    assert (Hn : nth_error (Capture.photos s) i = None) by (apply nth_error_None; lia).
    rewrite Hn. cbn [Capture.truthy]. rewrite andb_false_r. reflexivity.
Qed.

Lemma deletePhoto_out_of_range_witness :
  let s := Capture.run Capture.initial three_captures in
  Capture.photos (Capture.deletePhoto 3 s) = ["data:a"; "data:b"; "data:c"] /\
  Capture.step s (Capture.ClickDelete 3) = s.
Proof.
  intros s.
  assert (Hi : (List.length (Capture.photos s) <= 3)%nat) by (vm_compute; lia).
  destruct (deletePhoto_out_of_range s 3 Hi) as (Hp & _ & Hclick).
  split; [exact Hp | exact Hclick].
Defined.

(** X13.  The extension fallback of the image check ignores letter case: a
    file whose name ends in a dot and one of jpg, jpeg, png, gif, webp,
    heic, heif, bmp written in any mix of upper and lower case passes the
    check whatever its MIME type is. *)
Theorem image_extension_any_case (f : Capture.File) (base ext : string) :
  In (Js.toLowerCase ext) Capture.imageExtensions ->
  Capture.file_name f = base ++ "." ++ ext ->
  Capture.isImageFile f = true.
Proof.
  intros Hext Hname. unfold Capture.isImageFile, Capture.hasImageExtension.
  apply orb_true_iff. right. apply existsb_exists.
  exists (Js.toLowerCase ext). split; [exact Hext|].
  rewrite Hname, !toLowerCase_append.
  change (Js.toLowerCase ".") with ".".
  rewrite endsWith_append. reflexivity.
Qed.

Lemma image_extension_any_case_witness :
  Capture.isImageFile
    (Capture.mkFile "application/octet-stream" "Holiday.2024.JpEg" None false
                    Capture.NoContext) = true.
Proof.
  apply (image_extension_any_case _ "Holiday.2024" "JpEg").
  - vm_compute. auto.
  - reflexivity.
Defined.

(* ------------------------------------------------------------------ *)
(** ** The download hook and handler, further                          *)
(* ------------------------------------------------------------------ *)

Section DataUrlFacts.
Import Js Eff Download.

Lemma freeOf_cons cs c s :
  freeOf cs (String c s) = true ->
  existsb (Ascii.eqb c) cs = false /\ freeOf cs s = true.
Proof.
  cbn [freeOf]. intros H. apply andb_prop in H. destruct H as [Hc Hs].
  split; [|exact Hs]. destruct (existsb (Ascii.eqb c) cs); [discriminate|reflexivity].
Qed.

Lemma untilComma_append a rest :
  freeOf [","%char] a = true -> untilComma (a ++ String "," rest) = a.
Proof.
  induction a as [|c a IH]; intros H; [reflexivity|].
  apply freeOf_cons in H. destruct H as [Hc Ha]. cbn [existsb] in Hc.
  rewrite orb_false_r in Hc.
  change (untilComma (String c a ++ String "," rest))
    with (if Ascii.eqb c "," then EmptyString
          else String c (untilComma (a ++ String "," rest))).
  rewrite Hc, IH by exact Ha. reflexivity.
Qed.

Lemma afterComma_append a rest :
  freeOf [","%char] a = true ->
  afterComma (a ++ String "," rest) = Some (untilComma rest).
Proof.
  induction a as [|c a IH]; intros H; [reflexivity|].
  apply freeOf_cons in H. destruct H as [Hc Ha]. cbn [existsb] in Hc.
  rewrite orb_false_r in Hc.
  change (afterComma (String c a ++ String "," rest))
    with (if Ascii.eqb c "," then Some (untilComma (a ++ String "," rest))
          else afterComma (a ++ String "," rest)).
  rewrite Hc. apply IH. exact Ha.
Qed.

Lemma untilSemicolon_append m rest :
  freeOf [";"%char; "010"%char; "013"%char] m = true ->
  untilSemicolon (m ++ String ";" rest) = Some m.
Proof.
  induction m as [|c m IH]; intros H; [reflexivity|].
  apply freeOf_cons in H. destruct H as [Hc Hm]. cbn [existsb] in Hc.
  apply orb_false_elim in Hc. destruct Hc as [H1 Hc].
  apply orb_false_elim in Hc. destruct Hc as [H2 Hc].
  apply orb_false_elim in Hc. destruct Hc as [H3 _].
  change (untilSemicolon (String c m ++ String ";" rest))
    with (if Ascii.eqb c ";" then Some EmptyString
          else if (Ascii.eqb c "010" || Ascii.eqb c "013")%bool then None
          else option_map (String c) (untilSemicolon (m ++ String ";" rest))).
  rewrite H1, H2, H3, IH by exact Hm. reflexivity.
Qed.

Lemma freeOf_cons_intro cs c s :
  existsb (Ascii.eqb c) cs = false -> freeOf cs s = true ->
  freeOf cs (String c s) = true.
Proof. cbn [freeOf]. intros -> ->. reflexivity. Qed.

Lemma freeOf_subset cs ds s :
  incl ds cs -> freeOf cs s = true -> freeOf ds s = true.
Proof.
  intros Hincl. induction s as [|x s IH]; intros H; [reflexivity|].
  apply freeOf_cons in H. destruct H as [Hx Hs].
  apply freeOf_cons_intro; [|apply IH; exact Hs].
  destruct (existsb (Ascii.eqb x) ds) eqn:E; [|reflexivity].
  apply existsb_exists in E. destruct E as (d & Hd & Hxd).
  assert (existsb (Ascii.eqb x) cs = true)
    by (apply existsb_exists; exists d; split; [apply Hincl; exact Hd|exact Hxd]).
  congruence.
Qed.

Lemma freeOf_append cs a b :
  freeOf cs a = true -> freeOf cs b = true -> freeOf cs (a ++ b) = true.
Proof.
  induction a as [|x a IH]; intros Ha Hb; [exact Hb|].
  apply freeOf_cons in Ha. destruct Ha as [Hx Ha].
  change (String x a ++ b) with (String x (a ++ b)).
  apply freeOf_cons_intro; [exact Hx|apply IH; assumption].
Qed.

Lemma append_assoc a b c : (a ++ b) ++ c = a ++ (b ++ c).
Proof.
  induction a as [|x a IH]; [reflexivity|].
  change ((String x a ++ b) ++ c) with (String x ((a ++ b) ++ c)).
  rewrite IH. reflexivity.
Qed.

Lemma toLower_printable c : printable c = true -> printable (toLower c) = true.
Proof.
  destruct c as [[] [] [] [] [] [] [] []]; vm_compute; intros H;
    first [reflexivity | discriminate H].
Qed.

Lemma toLower_toLower c : toLower (toLower c) = toLower c.
Proof. destruct c as [[] [] [] [] [] [] [] []]; reflexivity. Qed.

Lemma blobType_printable type : allPrintable (blobType type) = true.
Proof.
  unfold blobType. destruct (allPrintable type) eqn:Hp; [|reflexivity].
  induction type as [|c type IH]; [reflexivity|].
  cbn [allPrintable] in Hp. apply andb_prop in Hp. destruct Hp as [Hc Hp].
  cbn [toLowerCase allPrintable]. rewrite (toLower_printable c Hc). exact (IH Hp).
Qed.

Lemma blobType_lower type : toLowerCase (blobType type) = blobType type.
Proof.
  unfold blobType. destruct (allPrintable type); [|reflexivity].
  induction type as [|c type IH]; [reflexivity|].
  cbn [toLowerCase]. rewrite toLower_toLower, IH. reflexivity.
Qed.

Lemma downloadImage_total h dataUrl filename st :
  exists st' ok, downloadImage h dataUrl filename st = (st', inr ok).
Proof.
  destruct (isDownloadingRef st) eqn:Hg.
  - exists st, false. apply downloadImage_in_flight. exact Hg.
  - destruct (downloadImage_returns h dataUrl filename st Hg) as (st' & Hrun & _).
    eauto.
Qed.

End DataUrlFacts.

(** X14.  dataUrlToBlob reads a data URL of the form
    data:<mime>;base64,<payload> back into its parts: for a non-empty MIME
    type without comma, semicolon or line break, the blob holds the bytes
    that atob gives for the payload (the text up to the payload's first
    comma) and, as its type, the MIME type as the Blob constructor stores
    it: in ASCII lower case, or empty when the MIME type has a character
    outside U+0020 to U+007E.  So a lower-case printable MIME type comes
    back unchanged, and the stored type is always lower-case and printable.
    When atob throws, so does dataUrlToBlob; the state is untouched in both
    cases. *)
Theorem dataUrlToBlob_reads_data_url (h : Download.Host) (mime payload : string)
    (st : Download.State) :
  mime <> EmptyString ->
  freeOf [","%char; ";"%char; "010"%char; "013"%char] mime = true ->
  Download.dataUrlToBlob h ("data:" ++ mime ++ ";base64," ++ payload) st
  = (st, match Download.atob h (Js.untilComma payload) with
         | Some bytes =>
             inr (Download.mkBlob bytes
                    (if Download.allPrintable mime then Js.toLowerCase mime
                     else EmptyString))
         | None => inl (JsError "InvalidCharacterError")
         end) /\
  (Download.allPrintable mime = true -> Js.toLowerCase mime = mime ->
   Download.blobType mime = mime) /\
  Download.allPrintable (Download.blobType mime) = true /\
  Js.toLowerCase (Download.blobType mime) = Download.blobType mime.
Proof.
  intros Hne Hfree.
  split; [|split; [|split]].
  - assert (Hcomma : freeOf [","%char] mime = true).
    { apply (freeOf_subset _ [","%char] _) with (2 := Hfree).
      intros c [<-|[]]. left. reflexivity. }
    assert (Hsemi : freeOf [";"%char; "010"%char; "013"%char] mime = true).
    { apply (freeOf_subset _ [";"%char; "010"%char; "013"%char] _) with (2 := Hfree).
      intros c H. right. exact H. }
    assert (Hsplit : "data:" ++ mime ++ ";base64," ++ payload
                     = ("data:" ++ mime ++ ";base64") ++ String "," payload).
    { rewrite !append_assoc. reflexivity. }
    assert (Hpre : freeOf [","%char] ("data:" ++ mime ++ ";base64") = true).
    { apply (freeOf_append _ "data:"); [reflexivity|].
      apply freeOf_append; [exact Hcomma|reflexivity]. }
    unfold Download.dataUrlToBlob, Eff.bind, Eff.call.
    rewrite Hsplit, (untilComma_append _ _ Hpre), (afterComma_append _ _ Hpre).
    cbn [Js.orUndefined].
    assert (Hmime : Download.matchMime ("data:" ++ mime ++ ";base64") = Some mime).
    { change ("data:" ++ mime ++ ";base64")
        with (String "d" (String "a" (String "t" (String "a" (String ":"
                (mime ++ String ";" "base64")))))).
      cbn [Download.matchMime Ascii.eqb Bool.eqb].
      rewrite (untilSemicolon_append _ _ Hsemi). reflexivity. }
    rewrite Hmime.
    destruct (String.eqb_spec mime EmptyString) as [E|_]; [contradiction|].
    destruct (Download.atob h (Js.untilComma payload)); reflexivity.
  - intros Hp Hl. unfold Download.blobType. rewrite Hp. exact Hl.
  - apply blobType_printable.
  - apply blobType_lower.
Qed.

Lemma dataUrlToBlob_reads_data_url_witness :
  Download.dataUrlToBlob (Preview.downloadHost sample_page)
    "data:Image/PNG;base64,QUJD" Download.initial
  = (Download.initial, inr (Download.mkBlob sample_bytes "image/png")).
Proof.
  assert (Hne : "Image/PNG" <> EmptyString) by discriminate.
  destruct (dataUrlToBlob_reads_data_url (Preview.downloadHost sample_page)
              "Image/PNG" "QUJD" Download.initial Hne eq_refl) as [Hrun _].
  exact Hrun.
Defined.

(** X15.  The hook keeps at most one object URL referenced.  A call that
    passes the guard first revokes the URL left by an earlier download.  When
    it returns true the new URL is referenced, the link clicked carries that
    URL and the file name, and a cleanup timer is set (100 ms in the Median
    WebView, where the link is put into the document, 1000 ms otherwise).
    When it returns false no URL stays referenced, and a URL that had been
    created before the failure has been revoked. *)
Theorem object_url_lifecycle (h : Download.Host) (dataUrl filename : string)
    (st : Download.State) :
  Download.isDownloadingRef st = false ->
  let out := Download.downloadImage h dataUrl filename st in
  let created :=
    match Download.atob h (Js.orUndefined (Js.afterComma dataUrl)) with
    | Some bytes =>
        Download.createObjectURL h (Download.mkBlob bytes (blob_type_of dataUrl))
    | None => None
    end in
  (forall old, Download.objectUrlRef st = Some old ->
     exists rest, Download.dom (fst out)
                  = (Download.dom st ++ Download.RevokeObjectURL old :: rest)%list) /\
  (snd out = inr true ->
     exists url, created = Some url /\
       Download.objectUrlRef (fst out) = Some url /\
       In (Download.LinkClicked url filename (Download.isMedianWebView h))
          (Download.dom (fst out)) /\
       In (Download.TimerSet (if Download.isMedianWebView h then 100 else 1000))
          (Download.dom (fst out))) /\
  (snd out = inr false ->
     Download.objectUrlRef (fst out) = None /\
     forall url, created = Some url ->
       In (Download.RevokeObjectURL url) (Download.dom (fst out))).
Proof.
  intros Hg out created. subst out created.
  unfold Download.downloadImage, blob_type_of, Download.dataUrlToBlob,
    Download.cleanupObjectUrl, Download.dom_call,
    Eff.try_finally, Eff.try_catch, Eff.bind, Eff.get, Eff.modify, Eff.call,
    Eff.ret, Eff.throw.
  destruct st as [flag ref events]. cbn [Download.isDownloadingRef] in Hg. subst flag.
  destruct ref as [old|];
    cbn [Download.isDownloadingRef Download.objectUrlRef Download.dom
         Download.setIsDownloadingRef Download.setObjectUrlRef Download.record];
    (destruct (Download.atob h _) as [bytes|];
     [destruct (Download.createObjectURL h _) as [url|];
      [destruct (Download.domThrows h Download.createElement);
       [|destruct (Download.isMedianWebView h);
         [destruct (Download.domThrows h Download.appendChild)|];
         (destruct (Download.domThrows h Download.click);
          [|destruct (Download.domThrows h Download.setTimeout)])]
      |]
     |]);
    cbn [fst snd Download.isDownloadingRef Download.objectUrlRef Download.dom
         Download.setIsDownloadingRef Download.setObjectUrlRef Download.record];
    rewrite <- ?app_assoc; cbn [app];
    (split; [intros o Ho; first [discriminate Ho
                                | injection Ho as <-; eexists; reflexivity]
            |split; intros Hr; first [discriminate Hr|idtac]]);
    try (eexists; split; [reflexivity|]; split; [reflexivity|];
         split; apply in_or_app; right; cbn; tauto);
    try (split; [reflexivity|]; intros u Hu;
         first [discriminate Hu
               | injection Hu as <-; apply in_or_app; right; cbn; tauto]).
Qed.

Lemma object_url_lifecycle_witness :
  let st := Download.mkState false (Some "blob:0") [] in
  let h := Preview.downloadHost sample_page in
  Download.dom (fst (Download.downloadImage h "data:image/png;base64,QQ==" "a.png" st))
  = [ Download.RevokeObjectURL "blob:0";
      Download.LinkClicked "blob:1" "a.png" false;
      Download.TimerSet 1000 ] /\
  Download.objectUrlRef
    (fst (Download.downloadImage h "data:image/png;base64,QQ==" "a.png" st))
  = Some "blob:1".
Proof.
  intros st h.
  destruct (object_url_lifecycle h "data:image/png;base64,QQ==" "a.png" st eq_refl)
    as (_ & Hok & _).
  destruct (Hok eq_refl) as (url & Hcreated & Href & _).
  split; [reflexivity|]. rewrite Href, <- Hcreated. reflexivity.
Defined.

(** X16.  A call of handleDownload that passes its guard shows exactly one
    toast and ends with isDownloading reset: "Failed to generate image" when
    the strip cannot be generated (the hook is then not called), and
    otherwise the success toast or "Download failed", according to what
    downloadImage returns for the generated data URL and the file name
    love-booth-<Date.now()>.png. *)
Theorem handleDownload_outcome (p : Preview.Page) (s : Preview.State) :
  Preview.isDownloading s = false ->
  let filename := "love-booth-" ++ NilEmpty.string_of_uint (N.to_uint (Preview.dateNow p))
                  ++ ".png" in
  match Preview.stripDataUrl p with
  | None =>
      Preview.handleDownload p s
      = (Preview.mkState false (Preview.isPrinting s) (Preview.hook s)
           (Preview.log s ++
            [ Preview.SetIsDownloading true; Preview.ConsoleError;
              Preview.Notify (Capture.toast_error
                                "Failed to generate image. Please try again.");
              Preview.SetIsDownloading false ])%list, inr tt)
  | Some dataUrl =>
      let run := Download.downloadImage (Preview.downloadHost p) dataUrl filename
                   (Preview.hook s) in
      exists ok, snd run = inr ok /\
        Preview.handleDownload p s
        = (Preview.mkState false (Preview.isPrinting s) (fst run)
             (Preview.log s ++
              [ Preview.SetIsDownloading true;
                Preview.Notify
                  (if ok then Capture.toast_success "Photo downloaded! View in Gallery"
                   else Capture.toast_error "Download failed. Please try again.");
                Preview.SetIsDownloading false ])%list, inr tt)
  end.
Proof.
  intros Hg filename. subst filename.
  unfold Preview.handleDownload, Preview.setIsDownloading, Preview.emit,
    Preview.liftHook, Eff.try_finally, Eff.try_catch, Eff.bind, Eff.get,
    Eff.modify, Eff.call, Eff.ret, Eff.throw.
  rewrite Hg.
  destruct (Preview.stripDataUrl p) as [url|];
    cbn [Preview.hook Preview.log Preview.isPrinting Preview.isDownloading].
  - destruct (downloadImage_total (Preview.downloadHost p) url
                ("love-booth-" ++ NilEmpty.string_of_uint (N.to_uint (Preview.dateNow p))
                 ++ ".png") (Preview.hook s)) as (st' & ok & Hrun).
    rewrite Hrun. cbn [fst snd]. exists ok. split; [reflexivity|].
    destruct ok; cbn [Preview.hook Preview.log Preview.isPrinting Preview.isDownloading];
      rewrite <- !app_assoc; reflexivity.
  - rewrite <- !app_assoc. reflexivity.
Qed.

Lemma handleDownload_outcome_witness :
  Preview.log (fst (Preview.handleDownload sample_page Preview.initial))
  = [ Preview.SetIsDownloading true;
      Preview.Notify (Capture.toast_success "Photo downloaded! View in Gallery");
      Preview.SetIsDownloading false ] /\
  Download.dom (Preview.hook (fst (Preview.handleDownload sample_page Preview.initial)))
  = [ Download.LinkClicked "blob:1" "love-booth-1700000000000.png" false;
      Download.TimerSet 1000 ].
Proof.
  pose proof (handleDownload_outcome sample_page Preview.initial eq_refl) as H.
  cbv zeta in H. cbn [Preview.stripDataUrl sample_page] in H.
  destruct H as (ok & Hok & Hrun). rewrite Hrun. cbn [fst Preview.log Preview.hook].
  assert (ok = true) by (vm_compute in Hok; congruence). subst ok.
  split; vm_compute; reflexivity.
Defined.

(* ------------------------------------------------------------------ *)
(** ** The print session, further                                      *)
(* ------------------------------------------------------------------ *)

Section SessionFacts2.
Import Eff Preview.
Local Open Scope nat_scope.

Lemma occurrences_app kind a b :
  occurrences kind (a ++ b) = occurrences kind a + occurrences kind b.
Proof. unfold occurrences. rewrite filter_app, length_app. reflexivity. Qed.

Lemma occurrences_writes kind l :
  (forall e, isWrite e = true -> kind e = false) ->
  forallb isWrite l = true -> occurrences kind l = 0.
Proof.
  intros Hk. induction l as [|e l IH]; cbn [forallb]; [reflexivity|].
  intros H. apply andb_prop in H. destruct H as [He Hl].
  unfold occurrences in *. cbn [filter]. rewrite (Hk e He). apply IH. exact Hl.
Qed.

Lemma runFrom_members c bytes k e :
  In e (runFrom c bytes k) ->
  exists j ok, e = Write (char_uuid c) j (chunk bytes j) ok /\
               j < chunkCount (List.length bytes) /\
               ok = writeValue c j (chunk bytes j).
Proof.
  unfold runFrom.
  destruct (find (rejects c bytes) (seq k (chunkCount (List.length bytes) - k)))
    as [j|] eqn:Hf; intros Hin.
  - apply in_app_or in Hin. destruct Hin as [Hin|[<-|[]]].
    + apply in_map_iff in Hin. destruct Hin as (i & <- & Hi).
      apply in_seq in Hi. pose proof (find_seq_ge _ _ _ _ Hf) as Hge.
      pose proof (find_some _ _ Hf) as [Hj _]. apply in_seq in Hj.
      exists i, true. split; [reflexivity|]. split; [lia|].
      pose proof (find_seq_first _ _ _ _ Hf i ltac:(lia)) as Hr.
      unfold rejects in Hr. destruct (writeValue c i (chunk bytes i));
        [reflexivity|discriminate].
    + apply find_some in Hf. destruct Hf as [Hj Hr]. apply in_seq in Hj.
      exists j, false. split; [reflexivity|]. split; [lia|].
      unfold rejects in Hr. destruct (writeValue c j (chunk bytes j));
        [discriminate|reflexivity].
  - apply in_map_iff in Hin. destruct Hin as (i & <- & Hi).
    pose proof (find_none _ _ Hf i Hi) as Hr. apply in_seq in Hi.
    exists i, true. split; [reflexivity|]. split; [lia|].
    unfold rejects in Hr. destruct (writeValue c i (chunk bytes i));
      [reflexivity|discriminate].
Qed.

End SessionFacts2.

Section SessionFacts3.
Import Eff Preview.
Local Open Scope nat_scope.

Lemma serviceTrace_members bytes : forall ss e,
  In e (serviceTrace bytes ss) ->
  exists sv c, In sv ss /\ attemptOf sv = Some c /\ In e (runFrom c bytes 0).
Proof.
  induction ss as [|sv ss IH]; cbn [serviceTrace]; intros e Hin; [destruct Hin|].
  destruct (attemptOf sv) as [c|] eqn:Ha.
  - apply in_app_or in Hin. destruct Hin as [Hin|Hin].
    + exists sv, c. repeat split; auto. left; reflexivity.
    + destruct (accepted c bytes); [destruct Hin|].
      destruct (IH e Hin) as (sv' & c' & Hsv & Hat & He).
      exists sv', c'. repeat split; auto. right; exact Hsv.
  - destruct (IH e Hin) as (sv' & c' & Hsv & Hat & He).
    exists sv', c'. repeat split; auto. right; exact Hsv.
Qed.

Lemma systemPrintTrace_kinds p :
  occurrences isDisconnect (systemPrintTrace p) = 0 /\
  forallb (fun e => negb (isWrite e)) (systemPrintTrace p) = true /\
  occurrences isPrintWindow (systemPrintTrace p)
  = (match stripDataUrl p with
     | Some _ => if windowOpens p then 1 else 0
     | None => 0
     end) /\
  occurrences isErrorToast (systemPrintTrace p)
  = (match stripDataUrl p with
     | Some _ => if windowOpens p then 0 else 1
     | None => 1
     end).
Proof.
  unfold systemPrintTrace.
  destruct (stripDataUrl p); [destruct (windowOpens p)|]; repeat split.
Qed.

Lemma bluetoothTrace_shape p device :
  bluetoothTrace p device
  = ([SetIsPrinting true] ++
     match sessionInputs p device with
     | Some (services, bytes) =>
         serviceTrace bytes services ++
         (if existsb (completes bytes) services then [sentToast]
          else [Notify (Capture.toast_info
                          "Direct print not supported. Opening print dialog...")]
               ++ systemPrintTrace p) ++
         [Disconnect]
     | None =>
         [ConsoleError;
          Notify (Capture.toast_info "Opening system print dialog instead...")]
         ++ systemPrintTrace p
     end ++ [SetIsPrinting false])%list.
Proof.
  unfold bluetoothTrace.
  destruct (sessionInputs p device) as [[services bytes]|]; [|reflexivity].
  destruct (existsb (completes bytes) services); reflexivity.
Qed.

End SessionFacts3.

(** X17.  A print session opens at most one system print window, and opens
    one exactly when the transmission completed on no service, the strip
    could be generated for the dialog, and the pop-up was not blocked; when
    the fallback runs without opening a window, exactly one error toast
    says so. *)
Theorem print_window_at_most_once (p : Preview.Page) (device : Preview.Device)
    (s : Preview.State) :
  let evs := bluetoothTrace p device in
  Preview.log (fst (Preview.handleBluetoothPrint p device s))
    = (Preview.log s ++ evs)%list /\
  occurrences isPrintWindow evs
  = (if printed p device then 0
     else match Preview.stripDataUrl p with
          | Some _ => if Preview.windowOpens p then 1 else 0
          | None => 0
          end)%nat /\
  (occurrences isPrintWindow evs + occurrences isErrorToast evs
   = if printed p device then 0 else 1)%nat.
Proof.
  intros evs. subst evs.
  split; [rewrite handleBluetoothPrint_spec; reflexivity|].
  rewrite bluetoothTrace_shape. unfold printed.
  destruct (systemPrintTrace_kinds p) as (_ & _ & Hw & He).
  destruct (sessionInputs p device) as [[services bytes]|].
  - pose proof (serviceTrace_writes bytes services) as Hwr.
    rewrite !occurrences_app.
    rewrite (occurrences_writes isPrintWindow _ ltac:(intros [] H; auto; discriminate) Hwr).
    rewrite (occurrences_writes isErrorToast _ ltac:(intros [] H; auto; discriminate) Hwr).
    destruct (existsb (completes bytes) services).
    + split; reflexivity.
    + rewrite !occurrences_app, Hw, He.
      destruct (Preview.stripDataUrl p); [destruct (Preview.windowOpens p)|];
        split; reflexivity.
  - rewrite !occurrences_app, Hw, He.
    destruct (Preview.stripDataUrl p); [destruct (Preview.windowOpens p)|];
      split; reflexivity.
Qed.

(** X18.  server.disconnect() is called exactly once in a session that got
    as far as the service list, whether the image was then sent or the
    fallback was used, and not at all in a session that failed before: in
    particular a connection that was established is left open when the
    strip cannot be generated or the services cannot be listed. *)
Theorem disconnect_only_after_service_list (p : Preview.Page)
    (device : Preview.Device) (s : Preview.State) :
  let evs := bluetoothTrace p device in
  Preview.log (fst (Preview.handleBluetoothPrint p device s))
    = (Preview.log s ++ evs)%list /\
  occurrences isDisconnect evs
  = (match sessionInputs p device with Some _ => 1 | None => 0 end)%nat /\
  (forall g server,
     Preview.gatt device = Some g -> Preview.connect g = Some server ->
     Preview.stripDataUrl p = None \/ Preview.getPrimaryServices server = None ->
     occurrences isDisconnect evs = 0%nat).
Proof.
  intros evs. subst evs.
  split; [rewrite handleBluetoothPrint_spec; reflexivity|].
  assert (Hcount : occurrences isDisconnect (bluetoothTrace p device)
                   = (match sessionInputs p device with Some _ => 1 | None => 0 end)%nat).
  { rewrite bluetoothTrace_shape.
    destruct (systemPrintTrace_kinds p) as (Hd & _).
    destruct (sessionInputs p device) as [[services bytes]|].
    - pose proof (serviceTrace_writes bytes services) as Hwr.
      rewrite !occurrences_app.
      rewrite (occurrences_writes isDisconnect _ ltac:(intros [] H; auto; discriminate) Hwr).
      destruct (existsb (completes bytes) services);
        rewrite ?occurrences_app, ?Hd; reflexivity.
    - rewrite !occurrences_app, Hd. reflexivity. }
  split; [exact Hcount|].
  intros g server Hg Hc Hfail. rewrite Hcount. unfold sessionInputs.
  rewrite Hg, Hc. destruct Hfail as [-> | Hsv]; [reflexivity|].
  destruct (Preview.stripDataUrl p); [|reflexivity].
  destruct (Download.atob _ _); [|reflexivity]. rewrite Hsv. reflexivity.
Qed.

(** X19.  A print session writes only to the first writable characteristic
    of a service whose characteristics could be listed: every write in its
    log goes to such a characteristic, carries the chunk of the image with
    the write's index, and is logged with the outcome the characteristic
    gave; a read-only characteristic, or a second writable one of the same
    service, is never written to. *)
Theorem writes_only_to_first_writable (p : Preview.Page) (device : Preview.Device)
    (uuid : string) (k : nat) (data : list Z) (ok : bool) :
  In (Preview.Write uuid k data ok) (bluetoothTrace p device) ->
  exists services bytes sv cs c,
    sessionInputs p device = Some (services, bytes) /\
    In sv services /\ Preview.getCharacteristics sv = Some cs /\
    find Preview.writable cs = Some c /\ Preview.writable c = true /\
    Preview.char_uuid c = uuid /\
    (k < chunkCount (List.length bytes))%nat /\ data = chunk bytes k /\
    ok = Preview.writeValue c k data.
Proof.
  unfold bluetoothTrace. intros Hin.
  destruct (systemPrintTrace_kinds p) as (_ & Hnw & _).
  assert (Hsys : ~ In (Preview.Write uuid k data ok) (systemPrintTrace p)).
  { intros H. rewrite forallb_forall in Hnw. specialize (Hnw _ H). discriminate. }
  destruct (sessionInputs p device) as [[services bytes]|].
  - assert (Htr : In (Preview.Write uuid k data ok) (serviceTrace bytes services)).
    { repeat match goal with
             | H : In _ (_ ++ _)%list |- _ => apply in_app_or in H; destruct H as [H|H]
             | H : In _ (if ?b then _ else _) |- _ => destruct b
             | H : In _ (_ :: _) |- _ => destruct H as [H|H]
             | H : In _ [] |- _ => destruct H
             end; try discriminate; try contradiction; assumption. }
    destruct (serviceTrace_members bytes services _ Htr) as (sv & c & Hsv & Hat & Hrun).
    destruct (runFrom_members c bytes 0 _ Hrun) as (j & ok' & Heq & Hj & Hok).
    injection Heq as -> -> -> ->.
    unfold attemptOf in Hat.
    destruct (Preview.getCharacteristics sv) as [cs|] eqn:Hcs; [|discriminate].
    exists services, bytes, sv, cs, c.
    pose proof (find_some _ _ Hat) as [_ Hwc].
    repeat split; auto.
  - exfalso.
    repeat match goal with
           | H : In _ (_ ++ _)%list |- _ => apply in_app_or in H; destruct H as [H|H]
           | H : In _ (_ :: _) |- _ => destruct H as [H|H]
           | H : In _ [] |- _ => destruct H
           end; try discriminate; contradiction.
Qed.

Lemma writes_only_to_first_writable_witness :
  In (Preview.Write "ffe2" 2 (chunk sample_bytes 2) true)
     (bluetoothTrace sample_page device_single_printer) /\
  exists c, find Preview.writable [char_readonly; char_printer] = Some c /\
            Preview.char_uuid c = "ffe2" /\
            true = Preview.writeValue c 2 (chunk sample_bytes 2).
Proof.
  assert (Hin : In (Preview.Write "ffe2" 2 (chunk sample_bytes 2) true)
                   (bluetoothTrace sample_page device_single_printer))
    by (vm_compute; do 3 right; left; reflexivity).
  split; [exact Hin|].
  destruct (writes_only_to_first_writable sample_page device_single_printer
              "ffe2" 2 (chunk sample_bytes 2) true Hin)
    as (services & bytes & sv & cs & c & Hinputs & Hsv & Hcs & Hfind & _ & Huuid & _
        & _ & Hok).
  injection Hinputs as <- <-.
  destruct Hsv as [<-|[<-|[]]]; cbn [Preview.getCharacteristics] in Hcs;
    injection Hcs as <-; [discriminate Hfind|].
  exists c. repeat split; assumption.
Defined.

(* ------------------------------------------------------------------ *)
(** ** The Print button                                                *)
(* ------------------------------------------------------------------ *)

Section PrintButtonFacts.
Import Eff Preview PrintButton.

Lemma liftPreview_session p d s :
  liftPreview (handleBluetoothPrint p d) s
  = (PrintButton.mkState
       (Preview.mkState (isDownloading (preview s)) false (hook (preview s))
                        (log (preview s) ++ bluetoothTrace p d)%list)
       (isScanning s) (connectedDevice s), inr tt).
Proof. unfold liftPreview. rewrite handleBluetoothPrint_spec. reflexivity. Qed.

Lemma liftPreview_emit e s :
  liftPreview (emit e) s
  = (PrintButton.mkState
       (Preview.mkState (isDownloading (preview s)) (isPrinting (preview s))
                        (hook (preview s)) (log (preview s) ++ [e])%list)
       (isScanning s) (connectedDevice s), inr tt).
Proof. reflexivity. Qed.

Lemma handleScanBluetooth_spec nav p s :
  handleScanBluetooth nav p s
  = match chosenDevice nav with
    | Some d =>
        (PrintButton.mkState
           (Preview.mkState (isDownloading (preview s)) false (hook (preview s))
              (log (preview s) ++
               Notify (Capture.toast_success ("Connected to " ++ nameOrDefault d))
               :: bluetoothTrace p d)%list)
           false (Some d), inr tt)
    | None =>
        (PrintButton.mkState
           (Preview.mkState (isDownloading (preview s)) (isPrinting (preview s))
              (hook (preview s)) (log (preview s) ++ noDeviceTrace nav)%list)
           (if isBluetoothSupported nav then false else isScanning s)
           (connectedDevice s), inr tt)
    end.
Proof.
  unfold handleScanBluetooth, chosenDevice, noDeviceTrace, isBluetoothSupported,
    requestDevice.
  destruct s as [[dl pr hk lg] sc cd].
  destruct (bluetooth nav) as [[[d|]|name]|]; cbn [negb].
  - unfold try_finally, try_catch, bind, ret, setIsScanning, setConnectedDevice,
      notify, modify.
    rewrite liftPreview_emit, liftPreview_session.
    cbn [preview isScanning connectedDevice isDownloading isPrinting hook log].
    rewrite <- app_assoc. reflexivity.
  - unfold try_finally, try_catch, bind, ret, setIsScanning, modify.
    cbn [preview isScanning connectedDevice]. rewrite app_nil_r. reflexivity.
  - unfold try_finally, try_catch, bind, throw, setIsScanning, notify, modify.
    cbn [error_name]. destruct (String.eqb name "NotFoundError").
    + rewrite liftPreview_emit. reflexivity.
    + rewrite !liftPreview_emit.
      cbn [preview isScanning connectedDevice isDownloading isPrinting hook log].
      rewrite <- app_assoc. reflexivity.
  - unfold notify. rewrite liftPreview_emit. reflexivity.
Qed.

End PrintButtonFacts.

(** X20.  handlePrint does nothing while a print or a scan is in flight;
    otherwise it returns normally, whatever the chooser, the device and the
    page do, with isPrinting and isScanning both reset, the download state
    untouched, and the stored device either as it was or replaced by the
    device the user has just chosen. *)
Theorem handlePrint_guard_and_boundary (nav : PrintButton.Navigator)
    (p : Preview.Page) (s : PrintButton.State) :
  (idle s = false -> PrintButton.handlePrint nav p s = (s, inr tt)) /\
  (idle s = true ->
   exists s', PrintButton.handlePrint nav p s = (s', inr tt) /\
     Preview.isPrinting (PrintButton.preview s') = false /\
     PrintButton.isScanning s' = false /\
     Preview.isDownloading (PrintButton.preview s')
       = Preview.isDownloading (PrintButton.preview s) /\
     Preview.hook (PrintButton.preview s') = Preview.hook (PrintButton.preview s) /\
     (PrintButton.connectedDevice s' = PrintButton.connectedDevice s \/
      (storedDevice s = None /\ chosenDevice nav <> None /\
       PrintButton.connectedDevice s' = chosenDevice nav))).
Proof.
  unfold idle, PrintButton.handlePrint, Eff.bind, Eff.get, storedDevice.
  destruct (Preview.isPrinting (PrintButton.preview s)) eqn:Hp;
    [split; [reflexivity|discriminate]|].
  destruct (PrintButton.isScanning s) eqn:Hs; [split; [reflexivity|discriminate]|].
  cbn [orb negb]. split; [discriminate|]. intros _.
  assert (Hscan : storedDevice s = None ->
            exists s', PrintButton.handleScanBluetooth nav p s = (s', inr tt) /\
              Preview.isPrinting (PrintButton.preview s') = false /\
              PrintButton.isScanning s' = false /\
              Preview.isDownloading (PrintButton.preview s')
                = Preview.isDownloading (PrintButton.preview s) /\
              Preview.hook (PrintButton.preview s') = Preview.hook (PrintButton.preview s) /\
              (PrintButton.connectedDevice s' = PrintButton.connectedDevice s \/
               (storedDevice s = None /\ chosenDevice nav <> None /\
                PrintButton.connectedDevice s' = chosenDevice nav))).
  { intros Hstored. rewrite handleScanBluetooth_spec.
    destruct (chosenDevice nav) as [d|].
    - eexists. split; [reflexivity|]. cbn. repeat split.
      right. repeat split; [exact Hstored|discriminate].
    - eexists. split; [reflexivity|]. cbn. rewrite Hp, Hs.
      destruct (PrintButton.isBluetoothSupported nav); repeat split; left; reflexivity. }
  unfold storedDevice in Hscan.
  destruct (PrintButton.connectedDevice s) as [d|] eqn:Hcd; [|apply Hscan; reflexivity].
  destruct (PrintButton.gattConnected d); [|apply Hscan; reflexivity].
  rewrite liftPreview_session. eexists. split; [reflexivity|]. cbn.
  repeat split; [exact Hs|]. left. exact Hcd.
Qed.

(** X21.  Printing needs a device.  When a click on Print passes the guard,
    no connected device is stored and the scan yields none (Web Bluetooth is
    missing, the chooser is dismissed or fails, or it resolves with
    nothing), the click only adds the matching notice to the log, at most a
    console error and one toast: nothing is written to a printer and the
    system print dialog is not opened, the stored device stays as it was. *)
Theorem print_needs_a_device (nav : PrintButton.Navigator) (p : Preview.Page)
    (s : PrintButton.State) :
  idle s = true -> storedDevice s = None -> chosenDevice nav = None ->
  PrintButton.handlePrint nav p s
  = (PrintButton.mkState
       (Preview.mkState (Preview.isDownloading (PrintButton.preview s)) false
          (Preview.hook (PrintButton.preview s))
          (Preview.log (PrintButton.preview s) ++ noDeviceTrace nav)%list)
       false (PrintButton.connectedDevice s), inr tt) /\
  forallb (fun e => negb (isPrintingEffect e)) (noDeviceTrace nav) = true /\
  (List.length (noDeviceTrace nav) <= 2)%nat /\
  (PrintButton.isBluetoothSupported nav = false ->
   noDeviceTrace nav
   = [Preview.Notify
        (Capture.toast_error "Bluetooth not supported. Use Chrome or Edge browser.")]).
Proof.
  unfold idle, storedDevice. intros Hidle Hstored Hchosen.
  apply negb_true_iff, orb_false_elim in Hidle. destruct Hidle as [Hp Hs].
  split; [|split; [|split]].
  - unfold PrintButton.handlePrint, Eff.bind, Eff.get. rewrite Hp, Hs. cbn [orb].
    assert (Hscan : PrintButton.handleScanBluetooth nav p s
              = (PrintButton.mkState
                   (Preview.mkState (Preview.isDownloading (PrintButton.preview s)) false
                      (Preview.hook (PrintButton.preview s))
                      (Preview.log (PrintButton.preview s) ++ noDeviceTrace nav)%list)
                   false (PrintButton.connectedDevice s), inr tt)).
    { rewrite handleScanBluetooth_spec, Hchosen, Hp, Hs.
      destruct (PrintButton.isBluetoothSupported nav); reflexivity. }
    destruct (PrintButton.connectedDevice s) as [d|]; [|exact Hscan].
    destruct (PrintButton.gattConnected d); [discriminate Hstored|exact Hscan].
  - unfold noDeviceTrace.
    destruct (PrintButton.bluetooth nav) as [[d|name]|]; try reflexivity.
    destruct (String.eqb name "NotFoundError"); reflexivity.
  - unfold noDeviceTrace.
    destruct (PrintButton.bluetooth nav) as [[d|name]|]; cbn; try lia.
    destruct (String.eqb name "NotFoundError"); cbn; lia.
  - unfold PrintButton.isBluetoothSupported, noDeviceTrace.
    destruct (PrintButton.bluetooth nav); [discriminate|reflexivity].
Qed.

Lemma print_needs_a_device_witness :
  Preview.log (PrintButton.preview
                 (fst (PrintButton.handlePrint nav_unsupported sample_page
                         PrintButton.initial)))
  = [Preview.Notify
       (Capture.toast_error "Bluetooth not supported. Use Chrome or Edge browser.")] /\
  Preview.log (PrintButton.preview
                 (fst (PrintButton.handlePrint nav_dismissed sample_page
                         PrintButton.initial)))
  = [Preview.Notify (Capture.toast_info "No device selected")].
Proof.
  destruct (print_needs_a_device nav_unsupported sample_page PrintButton.initial
              eq_refl eq_refl eq_refl) as (Hu & _).
  destruct (print_needs_a_device nav_dismissed sample_page PrintButton.initial
              eq_refl eq_refl eq_refl) as (Hd & _).
  rewrite Hu, Hd. split; reflexivity.
Defined.

(** X22.  A click on Print that passes the guard runs exactly one
    Bluetooth print session when a device is at hand.  A stored device whose
    GATT server is connected is used as it is, without asking the browser
    (even one without Web Bluetooth); otherwise the device the user picks in
    the chooser is stored, announced by the toast "Connected to <name>"
    (<name> being "Bluetooth Device" for a device without a name), and then
    used. *)
Theorem print_click_session (nav : PrintButton.Navigator) (p : Preview.Page)
    (s : PrintButton.State) (d : Preview.Device) :
  idle s = true ->
  (storedDevice s = Some d ->
   PrintButton.handlePrint nav p s
   = (PrintButton.mkState
        (Preview.mkState (Preview.isDownloading (PrintButton.preview s)) false
           (Preview.hook (PrintButton.preview s))
           (Preview.log (PrintButton.preview s) ++ bluetoothTrace p d)%list)
        false (Some d), inr tt)) /\
  (storedDevice s = None -> chosenDevice nav = Some d ->
   PrintButton.handlePrint nav p s
   = (PrintButton.mkState
        (Preview.mkState (Preview.isDownloading (PrintButton.preview s)) false
           (Preview.hook (PrintButton.preview s))
           (Preview.log (PrintButton.preview s) ++
            Preview.Notify (Capture.toast_success
                              ("Connected to " ++ PrintButton.nameOrDefault d))
            :: bluetoothTrace p d)%list)
        false (Some d), inr tt)).
Proof.
  unfold idle, storedDevice. intros Hidle.
  apply negb_true_iff, orb_false_elim in Hidle. destruct Hidle as [Hp Hs].
  unfold PrintButton.handlePrint, Eff.bind, Eff.get. rewrite Hp, Hs. cbn [orb].
  split.
  - destruct (PrintButton.connectedDevice s) as [d'|] eqn:Hcd; [|discriminate].
    destruct (PrintButton.gattConnected d'); [|discriminate].
    intros [= ->]. rewrite liftPreview_session, Hs, Hcd. reflexivity.
  - intros Hstored Hchosen.
    assert (Hscan : PrintButton.handleScanBluetooth nav p s
              = (PrintButton.mkState
                   (Preview.mkState (Preview.isDownloading (PrintButton.preview s)) false
                      (Preview.hook (PrintButton.preview s))
                      (Preview.log (PrintButton.preview s) ++
                       Preview.Notify (Capture.toast_success
                                         ("Connected to " ++ PrintButton.nameOrDefault d))
                       :: bluetoothTrace p d)%list)
                   false (Some d), inr tt)).
    { rewrite handleScanBluetooth_spec, Hchosen. reflexivity. }
    destruct (PrintButton.connectedDevice s) as [d'|]; [|exact Hscan].
    destruct (PrintButton.gattConnected d'); [discriminate Hstored|exact Hscan].
Qed.

Lemma print_click_session_witness :
  let s1 := fst (PrintButton.handlePrint nav_picks_printer sample_page
                   PrintButton.initial) in
  PrintButton.connectedDevice s1 = Some device_single_printer /\
  Preview.log (PrintButton.preview s1)
  = (Preview.Notify (Capture.toast_success "Connected to Printer")
     :: bluetoothTrace sample_page device_single_printer)%list.
Proof.
  intros s1. subst s1.
  destruct (print_click_session nav_picks_printer sample_page PrintButton.initial
              device_single_printer eq_refl) as [_ Hchosen].
  rewrite (Hchosen eq_refl eq_refl). split; reflexivity.
Defined.

(* ------------------------------------------------------------------ *)
(** ** The camera hook                                                 *)
(* ------------------------------------------------------------------ *)

Ltac camera_unfold :=
  unfold Camera.requestCamera, Camera.retryCamera, Camera.stopCamera,
    Camera.await_getUserMedia, Camera.whenMounted, Camera.during, Camera.unmount,
    Camera.fails, Camera.setStream, Camera.setPermissionState,
    Camera.setErrorMessage, Camera.stopTracks,
    Eff.try_catch, Eff.bind, Eff.get, Eff.modify, Eff.ret, Eff.throw in *.

Ltac camera_fields :=
  cbn [Camera.stream Camera.permissionState Camera.errorMessage Camera.isMounted
       Camera.acquired Camera.stopped fst snd] in *.

Ltac camera_done :=
  cbn [negb orb andb]; camera_fields;
  eexists; (split; [reflexivity|]); camera_fields;
  repeat split; intros; try discriminate; try reflexivity;
  try (eexists; split; [reflexivity|discriminate]).

Lemma requestCamera_mounted (env : Camera.Env) (s : Camera.State) :
  Camera.isMounted s = true -> staysMounted env = true ->
  exists s',
    Camera.requestCamera env s
    = (s', inr (match obtains env with Some _ => true | None => false end)) /\
    Camera.isMounted s' = true /\
    match obtains env with
    | Some st =>
        Camera.stream s' = Some st /\ Camera.permissionState s' = Camera.granted /\
        Camera.errorMessage s' = None
    | None =>
        Camera.stream s' = Camera.stream s /\
        isFailure (Camera.permissionState s') = true /\
        exists msg, Camera.errorMessage s' = Some msg /\ msg <> EmptyString
    end.
Proof.
  intros Hm Hstay. unfold staysMounted in Hstay.
  apply andb_prop in Hstay. destruct Hstay as [H1 H2].
  apply negb_true_iff in H1, H2.
  destruct s as [st pm em mt ac sp]. cbn [Camera.isMounted] in Hm. subst mt.
  unfold obtains, firstConstraints. camera_unfold. rewrite H1, H2.
  destruct (Camera.getUserMedia env) as [gum|]; camera_fields; [|camera_done].
  destruct (gum (if Camera.isWebView env then Camera.WebViewVideo
                 else Camera.BrowserVideo)) as [e|new]; camera_fields.
  - destruct (String.eqb (Camera.name e) "OverconstrainedError") eqn:E5.
    + apply String.eqb_eq in E5. rewrite E5.
      cbv [String.eqb Ascii.eqb Bool.eqb orb negb].
      destruct (gum Camera.AnyVideo) as [e2|fb]; camera_fields; [camera_done|].
      destruct (Camera.sameStream st (Some fb)) eqn:Hsame; camera_done.
      destruct st as [old|]; [|discriminate Hsame].
      cbn in Hsame. apply Nat.eqb_eq in Hsame. congruence.
    + destruct (String.eqb (Camera.name e) "NotAllowedError");
        [destruct (_ || _)%bool; camera_done|].
      destruct (String.eqb (Camera.name e) "NotFoundError"); [camera_done|].
      destruct (String.eqb (Camera.name e) "NotReadableError"); [camera_done|].
      destruct (String.eqb (Camera.name e) "AbortError"); [camera_done|].
      destruct (String.eqb (Camera.name e) "SecurityError"); camera_done.
  - destruct (Camera.sameStream st (Some new)) eqn:Hsame; camera_done.
    destruct st as [old|]; [|discriminate Hsame].
    cbn in Hsame. apply Nat.eqb_eq in Hsame. congruence.
Qed.

(** X23.  While the component stays mounted, the boolean requestCamera
    returns and the state it leaves agree: it returns true exactly when a
    stream was obtained (by the first request, or by the retry with minimal
    constraints after an OverconstrainedError), and then the state is
    granted with that stream and no error message; it returns false exactly
    when the state is one of denied, blocked, unavailable and error, and then
    the stream is as before and a non-empty error message is set.  It never
    throws and never ends in the prompt or requesting state. *)
Theorem requestCamera_result_matches_state (env : Camera.Env) (s : Camera.State) :
  Camera.isMounted s = true -> staysMounted env = true ->
  exists s' ok,
    Camera.requestCamera env s = (s', inr ok) /\
    (ok = true <-> Camera.permissionState s' = Camera.granted) /\
    (ok = true <-> Camera.errorMessage s' = None) /\
    (ok = false <-> isFailure (Camera.permissionState s') = true) /\
    match obtains env with
    | Some st => ok = true /\ Camera.stream s' = Some st
    | None =>
        ok = false /\ Camera.stream s' = Camera.stream s /\
        exists msg, Camera.errorMessage s' = Some msg /\ msg <> EmptyString
    end.
Proof.
  intros Hm Hstay.
  destruct (requestCamera_mounted env s Hm Hstay) as (s' & Hrun & _ & Hstate).
  exists s'. destruct (obtains env) as [st|].
  - destruct Hstate as (Hst & Hp & He). exists true.
    split; [exact Hrun|]. rewrite Hp, He.
    repeat split; auto; discriminate.
  - destruct Hstate as (Hst & Hp & msg & He & Hmsg). exists false.
    split; [exact Hrun|]. rewrite He.
    assert (Hng : Camera.permissionState s' <> Camera.granted)
      by (intros E; rewrite E in Hp; discriminate).
    repeat split; auto; try discriminate; try contradiction.
    exists msg. auto.
Qed.

Lemma requestCamera_result_matches_state_witness :
  exists s',
    Camera.requestCamera env_dismissed Camera.initial = (s', inr false) /\
    Camera.permissionState s' = Camera.denied /\
    Camera.errorMessage s'
    = Some "Camera access denied. Please allow camera access to take photos.".
Proof.
  destruct (requestCamera_result_matches_state env_dismissed Camera.initial
              eq_refl eq_refl) as (s' & ok & Hrun & _ & _ & _ & Hnone).
  exists s'. cbn in Hnone. destruct Hnone as (-> & _ & _).
  split; [exact Hrun|]. vm_compute in Hrun. injection Hrun as <-.
  split; reflexivity.
Defined.

Section CameraFacts.
Import Eff Camera.

Lemma sameStream_eq a b : sameStream a b = true -> a = b.
Proof.
  destruct a as [x|], b as [y|]; cbn; try discriminate; auto.
  intros H. apply Nat.eqb_eq in H. congruence.
Qed.

Lemma retryCamera_steps env s :
  retryCamera env s
  = requestCamera env (fst (during (unmountsDuringDelay env) (fst (stopCamera s)))).
Proof.
  unfold retryCamera, stopCamera, during, unmount, whenMounted, setStream,
    setPermissionState, setErrorMessage, stopTracks, bind, get, modify, ret.
  destruct s as [[st|] pm em [|] ac sp]; camera_fields;
    destruct (unmountsDuringDelay env); reflexivity.
Qed.

Ltac accounted_leaf HI :=
  cbn; intros x Hx; rewrite ?in_app_iff in *; cbn [In] in *;
  repeat match goal with
         | H : sameStream _ _ = true |- _ => apply sameStream_eq in H
         | H : Nat.eqb _ _ = true |- _ => apply Nat.eqb_eq in H
         | H : _ \/ _ |- _ => destruct H
         | H : False |- _ => destruct H
         end;
  subst;
  try match goal with
      | H : In x _ |- _ => destruct (HI x H) as [[? ?]|?]
      end;
  repeat match goal with
         | H : Some _ = Some _ |- _ => injection H as H
         end;
  subst; rewrite ?in_app_iff; cbn [In tracksOf];
  try discriminate; try (left; split; congruence); try tauto.

Ltac accounted_split :=
  repeat (cbn;
          match goal with
          | |- context [if ?b then _ else _] => destruct b eqn:?
          | |- context [match ?x with inl _ => _ | inr _ => _ end] => destruct x eqn:?
          end).

Lemma unmount_accounted s : accountedFor s -> accountedFor (fst (unmount s)).
Proof.
  destruct s as [st pm em mt ac sp]. unfold accountedFor, unmount, modify.
  camera_fields. intros HI. destruct mt; [|exact HI].
  destruct st as [old|]; accounted_leaf HI.
Qed.

Lemma during_accounted b s : accountedFor s -> accountedFor (fst (during b s)).
Proof. destruct b; [apply unmount_accounted|auto]. Qed.

Lemma stopCamera_accounted s : accountedFor s -> accountedFor (fst (stopCamera s)).
Proof.
  destruct s as [st pm em mt ac sp]. unfold accountedFor. camera_unfold.
  camera_fields. intros HI.
  destruct st as [old|], mt; accounted_leaf HI.
Qed.

Lemma requestCamera_accounted env s :
  unmountsDuringFallback env = false ->
  accountedFor s -> accountedFor (fst (requestCamera env s)).
Proof.
  destruct s as [st pm em mt ac sp]. unfold accountedFor. camera_unfold.
  camera_fields. intros H2 HI. rewrite H2.
  destruct (getUserMedia env) as [gum|]; [|destruct mt; accounted_leaf HI].
  destruct mt, (unmountsDuringRequest env), st as [old|];
    accounted_split; accounted_leaf HI.
Qed.

Lemma perform_accounted s op :
  fallbackUndisturbed op = true -> accountedFor s -> accountedFor (perform s op).
Proof.
  destruct op as [env| |env|]; cbn [fallbackUndisturbed perform]; intros Hop HI.
  - apply requestCamera_accounted; [apply negb_true_iff; exact Hop|exact HI].
  - apply stopCamera_accounted. exact HI.
  - rewrite retryCamera_steps.
    apply requestCamera_accounted; [apply negb_true_iff; exact Hop|].
    apply during_accounted, stopCamera_accounted. exact HI.
  - apply unmount_accounted. exact HI.
Qed.

End CameraFacts.

Section CameraRuns.
Import Camera.

Lemma run_accounted : forall ops s,
  forallb fallbackUndisturbed ops = true -> accountedFor s ->
  accountedFor (fold_left perform ops s).
Proof.
  induction ops as [|op ops IH]; intros s Hops HI; [exact HI|].
  cbn [forallb] in Hops. apply andb_prop in Hops. destruct Hops as [Hop Hops].
  cbn [fold_left]. apply IH; [exact Hops|]. apply perform_accounted; assumption.
Qed.

End CameraRuns.

(** X24.  No camera stream is left running behind the hook's back.  After
    any sequence of calls of requestCamera, stopCamera and retryCamera and
    of an unmount of the component (which may happen while a request is
    pending, but not while the retry with minimal constraints is), every
    stream getUserMedia has delivered is the hook's current stream or has had
    its tracks stopped; once the component is unmounted, or the hook holds no
    stream, every stream delivered has been stopped. *)
Theorem no_stream_left_running (ops : list Op) :
  forallb fallbackUndisturbed ops = true ->
  let s := fold_left perform ops Camera.initial in
  accountedFor s /\
  (Camera.isMounted s = false \/ Camera.stream s = None ->
   forall st, In st (Camera.acquired s) -> In st (Camera.stopped s)).
Proof.
  intros Hops s.
  assert (HI : accountedFor s).
  { apply run_accounted; [exact Hops|]. intros st []. }
  split; [exact HI|].
  intros Hgone st Hin. destruct (HI st Hin) as [[Hm Hst]|Hs]; [|exact Hs].
  destruct Hgone as [H|H]; congruence.
Qed.

Lemma no_stream_left_running_witness :
  let s := fold_left perform
             [Request (env_granted 1 false); Request (env_granted 2 false);
              Request (env_granted 3 true)] Camera.initial in
  Camera.acquired s = [1; 2; 3]%nat /\
  In 1%nat (Camera.stopped s) /\ In 2%nat (Camera.stopped s) /\
  In 3%nat (Camera.stopped s).
Proof.
  intros s.
  destruct (no_stream_left_running
              [Request (env_granted 1 false); Request (env_granted 2 false);
               Request (env_granted 3 true)] eq_refl) as [_ Hgone].
  split; [reflexivity|].
  assert (Hall : forall st, In st (Camera.acquired s) -> In st (Camera.stopped s))
    by (apply Hgone; left; reflexivity).
  repeat split; apply Hall; vm_compute; tauto.
Defined.

(** X25.  A stream that arrives after the component was unmounted.  When
    the unmount happens while the first request is pending, the stream it
    delivers is stopped at once.  When the first request is rejected with an
    OverconstrainedError and the unmount happens while the retry with minimal
    constraints is pending, the stream the retry delivers is neither stored
    nor stopped: requestCamera returns true and the camera stays on. *)
Theorem stream_arriving_after_unmount (env : Camera.Env) (s : Camera.State)
    (gum : Camera.Constraints -> Camera.DOMException + Camera.Stream)
    (st : Camera.Stream) :
  Camera.isMounted s = true -> Camera.getUserMedia env = Some gum ->
  ~ In st (Camera.stopped s) -> Camera.stream s <> Some st ->
  (gum (firstConstraints env) = inr st -> Camera.unmountsDuringRequest env = true ->
   exists s', Camera.requestCamera env s = (s', inr true) /\
     Camera.isMounted s' = false /\ In st (Camera.stopped s')) /\
  (forall e, gum (firstConstraints env) = inl e ->
     Camera.name e = "OverconstrainedError" ->
     Camera.unmountsDuringRequest env = false ->
     gum Camera.AnyVideo = inr st -> Camera.unmountsDuringFallback env = true ->
     exists s', Camera.requestCamera env s = (s', inr true) /\
       Camera.isMounted s' = false /\ In st (Camera.acquired s') /\
       ~ In st (Camera.stopped s') /\ Camera.stream s' <> Some st).
Proof.
  intros Hm Hgum Hns Hcur. unfold firstConstraints.
  destruct s as [cur pm em mt ac sp]. camera_fields. subst mt.
  split.
  - intros Hfirst Hleave. camera_unfold. rewrite Hgum. camera_fields.
    rewrite Hleave, Hfirst. camera_fields.
    eexists. split; [reflexivity|]. camera_fields. split; [reflexivity|].
    apply in_or_app. right. left. reflexivity.
  - intros e Hfirst Hname Hstay Hfb Hleave. camera_unfold. rewrite Hgum.
    camera_fields. rewrite Hstay, Hfirst, Hname, Hleave, Hfb.
    cbv [String.eqb Ascii.eqb Bool.eqb orb negb]. camera_fields.
    eexists. split; [reflexivity|]. camera_fields.
    split; [reflexivity|]. split; [apply in_or_app; right; left; reflexivity|].
    split; [|exact Hcur].
    intros Hin. apply in_app_or in Hin. destruct Hin as [Hin|Hin]; [auto|].
    destruct cur as [c|]; cbn in Hin; [|exact Hin].
    destruct Hin as [->|[]]. apply Hcur. reflexivity.
Qed.

Lemma stream_arriving_after_unmount_witness :
  exists s',
    Camera.requestCamera (env_overconstrained true) Camera.initial = (s', inr true) /\
    Camera.acquired s' = [7%nat] /\ Camera.stopped s' = [] /\
    Camera.stream s' = None.
Proof.
  assert (Hns : ~ In 7%nat (Camera.stopped Camera.initial)) by (intros []).
  assert (Hcur : Camera.stream Camera.initial <> Some 7%nat) by discriminate.
  destruct (stream_arriving_after_unmount (env_overconstrained true) Camera.initial
              _ 7%nat eq_refl eq_refl Hns Hcur) as [_ Hfb].
  destruct (Hfb _ eq_refl eq_refl eq_refl eq_refl eq_refl) as (s' & Hrun & _).
  exists s'. split; [exact Hrun|].
  vm_compute in Hrun. injection Hrun as <-. repeat split.
Defined.

(** X26.  startCamera enters the camera view exactly when the request
    obtained a stream, and then shows no toast.  When the request fails it
    stays in the current view and shows one error toast whose text is the
    error message the hook held before this attempt ("Unable to access
    camera." when it held none, as on the first attempt), not the message
    that the failed attempt has just set in the hook. *)
Theorem startCamera_outcome (env : Camera.Env) (s : CaptureCamera.State) :
  Camera.isMounted (CaptureCamera.hook s) = true -> staysMounted env = true ->
  exists s',
    CaptureCamera.startCamera env s = (s', inr tt) /\
    match obtains env with
    | Some st =>
        CaptureCamera.component s'
          = Capture.step (CaptureCamera.component s) Capture.CameraGranted /\
        Capture.mode (CaptureCamera.component s') = Capture.camera /\
        Capture.effects (CaptureCamera.component s')
          = Capture.effects (CaptureCamera.component s) /\
        Camera.stream (CaptureCamera.hook s') = Some st
    | None =>
        Capture.mode (CaptureCamera.component s')
          = Capture.mode (CaptureCamera.component s) /\
        Capture.effects (CaptureCamera.component s')
          = (Capture.effects (CaptureCamera.component s) ++
             [Capture.Notify
                (Capture.toast_error
                   (CaptureCamera.orUnable
                      (Camera.errorMessage (CaptureCamera.hook s))))])%list /\
        (exists msg, Camera.errorMessage (CaptureCamera.hook s') = Some msg /\
                     msg <> EmptyString) /\
        (Camera.errorMessage (CaptureCamera.hook s) = None ->
         CaptureCamera.orUnable (Camera.errorMessage (CaptureCamera.hook s))
         = "Unable to access camera.")
    end.
Proof.
  intros Hm Hstay.
  destruct (requestCamera_mounted env (CaptureCamera.hook s) Hm Hstay)
    as (h' & Hrun & _ & Hstate).
  unfold CaptureCamera.startCamera, CaptureCamera.liftHook, CaptureCamera.update,
    Eff.bind, Eff.get, Eff.modify.
  rewrite Hrun. destruct (obtains env) as [st|].
  - destruct Hstate as (Hst & _). eexists. split; [reflexivity|].
    cbn [CaptureCamera.component CaptureCamera.hook]. repeat split. exact Hst.
  - destruct Hstate as (_ & _ & Hmsg). eexists. split; [reflexivity|].
    cbn [CaptureCamera.component CaptureCamera.hook]. repeat split.
    + exact Hmsg.
    + intros ->. reflexivity.
Qed.

Lemma startCamera_outcome_witness :
  exists s',
    CaptureCamera.startCamera env_dismissed CaptureCamera.initial = (s', inr tt) /\
    Capture.effects (CaptureCamera.component s')
    = [Capture.Notify (Capture.toast_error "Unable to access camera.")] /\
    Camera.errorMessage (CaptureCamera.hook s')
    = Some "Camera access denied. Please allow camera access to take photos.".
Proof.
  destruct (startCamera_outcome env_dismissed CaptureCamera.initial eq_refl eq_refl)
    as (s' & Hrun & Hstate).
  exists s'. split; [exact Hrun|].
  cbn in Hstate. destruct Hstate as (_ & Heff & _).
  split; [exact Heff|]. vm_compute in Hrun. injection Hrun as <-. reflexivity.
Defined.

(* ------------------------------------------------------------------ *)
(** ** The page as a whole                                             *)
(* ------------------------------------------------------------------ *)

Section IndexFacts.
Import Catalog Index.
Local Open Scope nat_scope.

Lemma readyCalls_In effs ps lid :
  In (ps, lid) (readyCalls effs) <-> In (Capture.PhotosReady ps lid) effs.
Proof.
  unfold readyCalls. rewrite in_flat_map. split.
  - intros (e & He & Hin). destruct e; cbn in Hin; try contradiction.
    destruct Hin as [[= <- <-]|[]]. exact He.
  - intros H. exists (Capture.PhotosReady ps lid). split; [exact H|left; reflexivity].
Qed.

Lemma deliver_fits : forall calls i,
  (forall ps lid, In (ps, lid) calls -> fits ps lid) ->
  (appState i = preview -> fits (photos i) (selectedLayout i)) ->
  (appState i = landing -> photos i = []) ->
  (appState (deliver calls i) = preview ->
   fits (photos (deliver calls i)) (selectedLayout (deliver calls i))) /\
  (appState (deliver calls i) = landing -> photos (deliver calls i) = []).
Proof.
  induction calls as [|[ps lid] calls IH]; intros i Hcalls Hp Hl; [split; assumption|].
  cbn [deliver fold_left fst snd].
  apply (IH (handlePhotosReady ps lid i)).
  - intros ps' lid' Hin. apply Hcalls. right. exact Hin.
  - intros _. apply Hcalls. left. reflexivity.
  - discriminate.
Qed.

Lemma upload_fits c refNow refLater files :
  Inv c -> forwardsComplete (Capture.handleFileUpload c refNow refLater files).
Proof.
  intros [Hl _ _ _ _ _ _] ps lid. unfold Capture.handleFileUpload.
  destruct (List.length files =? 0); [intros []|].
  destruct (List.length files =? Capture.requiredPhotos c); cbn [negb].
  - destruct (List.length (filter Capture.isImageFile files) =? List.length files);
      cbn [negb].
    + intros [H|H]; [discriminate|]. apply in_app_or in H.
      destruct H as [H|H]; [destruct refLater; cbn in H; intuition discriminate|].
      destruct (Nat.eqb_spec
                  (List.length
                     (filter (fun p => negb (String.eqb p EmptyString))
                        (map Capture.processFile (filter Capture.isImageFile files))))
                  (Capture.requiredPhotos c)) as [Hfull|_].
      * destruct H as [H|[H|[]]]; [|discriminate]. injection H as <- <-.
        exists (Capture.selectedLayout c). auto.
      * destruct H as [H|[]]. discriminate.
    + intros [H|H]; [discriminate|]. destruct refNow; cbn in H; intuition discriminate.
  - intros [H|H]; [discriminate|]. destruct refNow; cbn in H; intuition discriminate.
Qed.

Lemma step_PageInv s e : PageInv s -> PageInv (Index.step s e).
Proof.
  intros HI. pose proof HI as [Hc Hq Hp Hl].
  destruct e as [|ev| |refNow refLater files| | |]; cbn [Index.step].
  - destruct (isLanding (appState (index s))); [|exact HI].
    constructor; cbn; auto; try discriminate. apply Inv_initial.
  - destruct (isCapture (appState (index s))); [|exact HI].
    destruct (step_effects (child s) ev Hc) as (new & Heff & Hnew).
    rewrite Heff, skipn_app, Nat.sub_diag, skipn_all. cbn [skipn app].
    destruct (deliver_fits (readyCalls new) (index s)) as [Hp' Hl'].
    + intros ps lid Hin. apply readyCalls_In in Hin. exact (Hnew ps lid Hin).
    + exact Hp.
    + exact Hl.
    + constructor; cbn [child pending index]; auto. apply Inv_step. exact Hc.
  - destruct (_ && _)%bool; [|exact HI]. constructor; cbn; auto; discriminate.
  - destruct (_ && _)%bool; [|exact HI].
    constructor; cbn [child pending index]; auto.
    intros calls ps lid Hin Hcall. apply in_app_or in Hin.
    destruct Hin as [Hin|[<-|[]]]; [exact (Hq calls ps lid Hin Hcall)|].
    apply readyCalls_In in Hcall.
    exact (upload_fits (child s) refNow refLater files Hc ps lid Hcall).
  - destruct (pending s) as [|calls rest] eqn:Hpend; [exact HI|].
    destruct (deliver_fits calls (index s)) as [Hp' Hl'].
    + intros ps lid Hin. apply (Hq calls ps lid); [left; reflexivity|exact Hin].
    + exact Hp.
    + exact Hl.
    + constructor; cbn [child pending index]; auto.
      intros calls' ps lid Hin. apply (Hq calls' ps lid). right. exact Hin.
  - destruct (isPreview (appState (index s))); [|exact HI].
    constructor; cbn; auto; try discriminate. apply Inv_initial.
  - destruct (isPreview (appState (index s))); [|exact HI].
    constructor; cbn; auto; discriminate.
Qed.

Lemma run_PageInv : forall es s, PageInv s -> PageInv (Index.run s es).
Proof.
  induction es as [|e es IH]; intros s HI; [exact HI|].
  apply (IH (Index.step s e)). apply step_PageInv. exact HI.
Qed.

Lemma start_PageInv : PageInv Index.start.
Proof.
  constructor; cbn; try discriminate; auto.
  - apply Inv_initial.
  - intros calls ps lid [].
Qed.

Lemma fits_counts ps lid :
  fits ps lid ->
  3 <= List.length ps <= 4 /\ (lid = "grid-4" -> List.length ps = 4).
Proof.
  intros (l & Hin & Hid & Hlen). rewrite Hlen. subst lid. cbn in Hin.
  destruct Hin as [<-|[<-|[<-|[<-|[]]]]]; cbn; split; try lia; try discriminate; auto.
Qed.

End IndexFacts.

(** X27.  Whatever the user does on the page, the preview is only ever
    shown with a layout id of the catalog and exactly that layout's number
    of photos (3 or 4, and 4 for grid-4), whether the set came from the
    camera or from an upload that settled later; and the landing page is
    only shown with the page's photo list empty. *)
Theorem preview_gets_complete_sets (es : list Index.Event) :
  let s := Index.index (Index.run Index.start es) in
  (Index.appState s = Index.preview ->
   fits (Index.photos s) (Index.selectedLayout s) /\
   (3 <= List.length (Index.photos s) <= 4)%nat /\
   (Index.selectedLayout s = "grid-4" -> List.length (Index.photos s) = 4%nat)) /\
  (Index.appState s = Index.landing -> Index.photos s = []).
Proof.
  intros s. subst s.
  destruct (run_PageInv es Index.start start_PageInv) as [_ _ Hp Hl].
  split; [|exact Hl].
  intros Ha. specialize (Hp Ha). split; [exact Hp|]. apply fits_counts. exact Hp.
Qed.

Example preview_is_reached :
  let viaCamera :=
    Index.run Index.start
      (Index.ClickStart :: map Index.InCapture (three_captures ++ [Capture.ClickDone])) in
  let viaUpload :=
    Index.run Index.start
      [Index.ClickStart; Index.FilesChosen true true sample_upload;
       Index.ClickLeaveCapture; Index.UploadSettles] in
  Index.index viaCamera
    = Index.mkState Index.preview ["data:a"; "data:b"; "data:c"] "strip-3" /\
  Index.appState (Index.index viaUpload) = Index.preview /\
  List.length (Index.photos (Index.index viaUpload)) = 3%nat.
Proof. vm_compute. repeat split. Qed.
